(** * MGC SDK Go documentation generator: a model of [docs/main_generator.py]

    The generator is a linear pipeline of text and file-system steps.  This
    development embeds the steps that carry logic (version resolution, the
    output scaffolder, the README sectionizer, the page writer, the [go doc]
    fetcher and the doc-output cleaner) as executable functions and proves
    properties of them.

    Text is a list of characters; a character is a code point below 256, so
    the model covers Latin-1 text.  Python's [str] methods are given their
    meaning on that range. *)

From Stdlib Require Import List Ascii String Bool Arith ZArith Lia Sorting.Sorted.
Import ListNotations.
Open Scope string_scope.
Open Scope list_scope.

(** ** Python string operations *)

Module Py.

Definition str := list ascii.

(** A literal. *)
Definition s (x : string) : str := list_ascii_of_string x.

Definition nl : ascii := ascii_of_nat 10.
Definition squote : ascii := ascii_of_nat 39.
Definition dquote : ascii := ascii_of_nat 34.
Definition backslash : ascii := ascii_of_nat 92.

Definition str_eqb (a b : str) : bool :=
  if list_eq_dec ascii_dec a b then true else false.

(** [str.isspace] on one character: the code points below 256 that Python
    counts as whitespace (also what [\s] matches in a [str] pattern). *)
Definition is_space (c : ascii) : bool :=
  existsb (Nat.eqb (nat_of_ascii c)) [9; 10; 11; 12; 13; 28; 29; 30; 31; 32; 133; 160].

Fixpoint lstrip (x : str) : str :=
  match x with
  | [] => []
  | c :: r => if is_space c then lstrip r else x
  end.

Definition rstrip (x : str) : str := rev (lstrip (rev x)).

(** [x.strip()] *)
Definition strip (x : str) : str := lstrip (rstrip x).

(** [x.startswith(p)] *)
Fixpoint startswith (p x : str) : bool :=
  match p, x with
  | [], _ => true
  | _ :: _, [] => false
  | a :: p', b :: x' => if ascii_dec a b then startswith p' x' else false
  end.

(** [x.endswith(p)] *)
Definition endswith (p x : str) : bool := startswith (rev p) (rev x).

(** [x.split(sep)] for a one-character separator: never the empty list. *)
Fixpoint split (sep : ascii) (x : str) : list str :=
  match x with
  | [] => [[]]
  | c :: r =>
      if ascii_dec c sep then [] :: split sep r
      else match split sep r with
           | h :: t => (c :: h) :: t
           | [] => [[c]]
           end
  end.

(** [sep.join(xs)] *)
Fixpoint join (sep : str) (xs : list str) : str :=
  match xs with
  | [] => []
  | [x] => x
  | x :: r => x ++ sep ++ join sep r
  end.

(** A text given by its lines. *)
Definition text (ls : list string) : str := join [nl] (map s ls).

(** [x.replace(c, new)] for a one-character pattern [c]. *)
Fixpoint replace_char (c : ascii) (new : str) (x : str) : str :=
  match x with
  | [] => []
  | a :: r => (if ascii_dec a c then new else [a]) ++ replace_char c new r
  end.

(** [x.replace(old, new, 1)]: the first occurrence only. *)
Fixpoint replace_first (old new : str) (x : str) : str :=
  if startswith old x then new ++ skipn (List.length old) x
  else match x with
       | [] => []
       | a :: r => a :: replace_first old new r
       end.

Definition in_range (lo hi : nat) (c : ascii) : bool :=
  Nat.leb lo (nat_of_ascii c) && Nat.leb (nat_of_ascii c) hi.

(** [x.lower()] on code points below 256: the ASCII capitals and the Latin-1
    capitals (all of 192..222 but the multiplication sign 215) move by 32. *)
Definition lower_char (c : ascii) : ascii :=
  if in_range 65 90 c || (in_range 192 222 c && negb (Nat.eqb (nat_of_ascii c) 215))
  then ascii_of_nat (nat_of_ascii c + 32) else c.

Definition lower (x : str) : str := map lower_char x.

Definition is_ascii_letter (c : ascii) : bool :=
  in_range 65 90 c || in_range 97 122 c.

Definition upper_ascii (c : ascii) : ascii :=
  if in_range 97 122 c then ascii_of_nat (nat_of_ascii c - 32) else c.

Definition lower_ascii (c : ascii) : ascii :=
  if in_range 65 90 c then ascii_of_nat (nat_of_ascii c + 32) else c.

(** [x.title()] on ASCII text: a letter that follows a non-letter is put in
    upper case, every other letter in lower case.  It is the method's result
    for a text that [is_ascii]; the letters above 127 have no case here, and
    the title case of two of them lies beyond code point 255.  The generator
    calls the method on the keys of a fixed table and on the fixed module
    names, which are ASCII, and on the names of the example directories;
    a statement that fixes the title of a name it does not know assumes the
    name [is_ascii]. *)
Fixpoint title_from (prev_cased : bool) (x : str) : str :=
  match x with
  | [] => []
  | c :: r =>
      if is_ascii_letter c
      then (if prev_cased then lower_ascii c else upper_ascii c) :: title_from true r
      else c :: title_from false r
  end.

Definition title (x : str) : str := title_from false x.

(** [x.isascii()] *)
Definition is_ascii (x : str) : bool :=
  forallb (fun c => Nat.ltb (nat_of_ascii c) 128) x.

(** [re.sub(r'[^a-z0-9\s-]', '', x)] *)
Definition keep_name_char (c : ascii) : bool :=
  in_range 97 122 c || in_range 48 57 c || is_space c || Nat.eqb (nat_of_ascii c) 45.

Definition sub_drop_other (x : str) : str := filter keep_name_char x.

(** [re.sub(r'\s+', '-', x)]: every maximal run of whitespace becomes one
    hyphen. *)
Fixpoint sub_ws_from (in_run : bool) (x : str) : str :=
  match x with
  | [] => []
  | c :: r =>
      if is_space c
      then (if in_run then sub_ws_from true r else s "-" ++ sub_ws_from true r)
      else c :: sub_ws_from false r
  end.

Definition sub_ws_hyphen (x : str) : str := sub_ws_from false x.

(** Python truthiness of a string or of a list. *)
Definition truthy {A} (x : list A) : bool :=
  match x with [] => false | _ :: _ => true end.

(** An insertion-ordered [dict] with string keys. *)
Definition dict (V : Type) := list (str * V).

Fixpoint dict_get {V} (k : str) (d : dict V) : option V :=
  match d with
  | [] => None
  | (k', v) :: r => if str_eqb k k' then Some v else dict_get k r
  end.

Definition dict_mem {V} (k : str) (d : dict V) : bool :=
  match dict_get k d with Some _ => true | None => false end.

(** [d[k] = v]: an existing key keeps its place, a new key goes last. *)
Fixpoint dict_set {V} (k : str) (v : V) (d : dict V) : dict V :=
  match d with
  | [] => [(k, v)]
  | (k', v') :: r => if str_eqb k k' then (k', v) :: r else (k', v') :: dict_set k v r
  end.

End Py.

Import Py.

(** ** The doc-output cleaner: [clean_go_doc_output] *)

Module Cleaner.

(** The local variables of the scan. *)
Record state := mk_state {
  cleaned_lines : list str;
  in_code_block : bool;
  code_block_content : list str;
  constants_removed : bool;
  types_removed : bool
}.

Definition initial : state := mk_state [] false [] false false.

Definition fence : str := s "```".

Definition declaration_keywords : list str :=
  [s "func "; s "type "; s "const "; s "var "; s "package "; s "import "].

Definition is_declaration (stripped_line : str) : bool :=
  existsb (fun k => startswith k stripped_line) declaration_keywords.

(** [.replace("'", "\\'").replace('"', '\\"')] *)
Definition escape (x : str) : str :=
  replace_char dquote [backslash; dquote] (replace_char squote [backslash; squote] x).

(** The block that closes an open code block. *)
Definition close_block (st : state) : list str :=
  if in_code_block st
  then (if truthy (code_block_content st)
        then cleaned_lines st ++ [fence] ++ code_block_content st ++ [fence]
        else cleaned_lines st)
  else cleaned_lines st.

(** One iteration of the [for line in lines] loop. *)
Definition step (st : state) (line : str) : state :=
  if negb (truthy (cleaned_lines st)) && negb (truthy (strip line)) then st
  else
    let stripped_line := strip line in
    if negb (constants_removed st) && str_eqb stripped_line (s "CONSTANTS")
    then mk_state (cleaned_lines st) (in_code_block st) (code_block_content st)
                  true (types_removed st)
    else if negb (types_removed st) && str_eqb stripped_line (s "TYPES")
    then mk_state (cleaned_lines st) (in_code_block st) (code_block_content st)
                  (constants_removed st) true
    else if is_declaration stripped_line
    then mk_state (close_block st) true [stripped_line]
                  (constants_removed st) (types_removed st)
    else if in_code_block st
    then (if truthy (strip line)
          then mk_state (cleaned_lines st) true (code_block_content st ++ [strip line])
                        (constants_removed st) (types_removed st)
          else mk_state (cleaned_lines st) true (code_block_content st ++ [[]])
                        (constants_removed st) (types_removed st))
    else if startswith (s "//") (strip line)
    then (let comment := strip (skipn 2 (strip line)) in
          if truthy comment
          then mk_state (cleaned_lines st ++ [s "*" ++ escape comment ++ s "*"])
                        (in_code_block st) (code_block_content st)
                        (constants_removed st) (types_removed st)
          else st)
    else if truthy (strip line)
    then mk_state (cleaned_lines st ++ [escape (strip line)])
                  (in_code_block st) (code_block_content st)
                  (constants_removed st) (types_removed st)
    else st.

(** The whole loop. *)
Definition scan_from (st : state) (lines : list str) : state :=
  fold_left step lines st.

Definition scan (lines : list str) : state := scan_from initial lines.

(** After the loop: "Close any remaining code block". *)
Definition finish (st : state) : list str :=
  if in_code_block st && truthy (code_block_content st)
  then cleaned_lines st ++ [fence] ++ code_block_content st ++ [fence]
  else cleaned_lines st.

(** The lines the cleaner emits for a non-empty input: the first input line
    is dropped, the rest is scanned. *)
Definition emitted_lines (doc_output : str) : list str :=
  finish (scan (tl (split nl doc_output))).

Definition clean_go_doc_output (doc_output : str) : str :=
  if negb (truthy doc_output) then []
  else strip (join [nl] (emitted_lines doc_output)).

End Cleaner.

Import Cleaner.

(** ** Log output

    Every message the generator prints starts with a pictograph: a check
    mark, a warning sign, a cross, or another one for progress messages.  An
    entry keeps it as its level and the rest of the message as its text. *)

Inductive level := Info | Success | Warning | Failure.

Record entry := mk_entry { entry_level : level; entry_text : str }.

Definition warn (x : str) : entry := mk_entry Warning x.
Definition ok (x : str) : entry := mk_entry Success x.
Definition info (x : str) : entry := mk_entry Info x.

(** ** Calls that may raise

    A computation returns a value or raises, and prints on the way. *)

Inductive exn := TimeoutExpired | OtherException (what : str).

(** The text of an exception in a message. *)
Definition exn_text (e : exn) : str :=
  match e with
  | TimeoutExpired => s "timed out"
  | OtherException what => what
  end.

Inductive result (A : Type) := Returned (a : A) | Raised (e : exn).
Arguments Returned {A} a.
Arguments Raised {A} e.

Definition M (A : Type) : Type := result A * list entry.

Definition ret {A} (a : A) : M A := (Returned a, []).
Definition raise {A} (e : exn) : M A := (Raised e, []).
Definition print (e : entry) : M unit := (Returned tt, [e]).

Definition bind {A B} (m : M A) (k : A -> M B) : M B :=
  match m with
  | (Returned a, out) => let (r, out') := k a in (r, out ++ out')
  | (Raised e, out) => (Raised e, out)
  end.

(** [try: body  except ...: handler] with a handler for every exception. *)
Definition try_except {A} (body : M A) (handler : exn -> M A) : M A :=
  match body with
  | (Returned a, out) => (Returned a, out)
  | (Raised e, out) => let (r, out') := handler e in (r, out ++ out')
  end.

Declare Scope m_scope.
Notation "x <- m ;; k" := (bind m (fun x => k))
  (at level 61, m at next level, right associativity) : m_scope.
Notation "m ;;; k" := (bind m (fun _ => k))
  (at level 61, right associativity) : m_scope.
Open Scope m_scope.

(** What [subprocess.run(..., capture_output=True, text=True, timeout=...)]
    can do: complete with an exit status and the captured standard output, or
    raise ([TimeoutExpired], or another exception such as [FileNotFoundError]
    when the program is not installed). *)
Record completed := mk_completed { returncode : Z; stdout : str }.

Definition subprocess_run (outcome : result completed) : M completed := (outcome, []).

Definition default_version : str := s "0.3.45".

(** ** The version resolver: [get_project_version] *)

Module Version.

(** [os.environ] *)
Definition environ := dict str.

(** The module-level [is_readthedocs = os.environ.get("READTHEDOCS") == "True"] *)
Definition is_readthedocs (env : environ) : bool :=
  match dict_get (s "READTHEDOCS") env with
  | Some v => str_eqb v (s "True")
  | None => false
  end.

(** [git] is what running [git describe --tags] does. *)
Definition get_project_version_from_git (git : result completed) : M str :=
  try_except
    (result <- subprocess_run git ;;
     if Z.eqb (returncode result) 0 then ret (strip (stdout result))
     else ret default_version)
    (fun e =>
       print (warn (s "Error getting project version from git: " ++ exn_text e
                     ++ s ", using default version")) ;;;
       ret default_version).

(** [not version] for an optional string. *)
Definition falsy (version : option str) : bool :=
  match version with Some v => negb (truthy v) | None => true end.

Definition get_project_version (env : environ) (git : result completed) : M str :=
  try_except
    (version <-
       (if negb (is_readthedocs env)
        then v <- get_project_version_from_git git ;; ret (Some v)
        else
          let version := dict_get (s "VERSION") env in
          let version :=
            if falsy version then dict_get (s "READTHEDOCS_VERSION") env else version in
          match version with
          | Some v =>
              if truthy v && (str_eqb v (s "latest") || str_eqb v (s "stable"))
              then v' <- get_project_version_from_git git ;; ret (Some v')
              else ret version
          | None => ret version
          end) ;;
     match version with
     | Some v =>
         if truthy v && truthy (strip v)
         then
           let version := strip v in
           let version := if startswith (s "v") version then skipn 1 version else version in
           print (ok (s "Captured project version from VERSION env: " ++ version)) ;;;
           ret version
         else
           print (warn (s "Error getting VERSION from environment, using default version")) ;;;
           ret default_version
     | None =>
         print (warn (s "Error getting VERSION from environment, using default version")) ;;;
         ret default_version
     end)
    (fun e =>
       print (warn (s "Error getting VERSION from environment: " ++ exn_text e
                     ++ s ", using default version")) ;;;
       ret default_version).

End Version.

(** ** The README sectionizer and the page writer *)

Module Readme.

Definition introduction : str := s "introduction".

(** The variables of the sectionizer's loop. *)
Record state := mk_state {
  sections : dict (list str);
  current_section : str
}.

Definition initial : state := mk_state [] introduction.

(** The name of the section a level-2 heading line opens. *)
Definition heading_name (line : str) : str :=
  let section_name := lower (strip (skipn 3 line)) in
  let section_name := sub_drop_other section_name in
  sub_ws_hyphen section_name.

(** [sections[k].append(line)] *)
Definition dict_append (k : str) (line : str) (d : dict (list str)) : dict (list str) :=
  match dict_get k d with
  | Some lines => dict_set k (lines ++ [line]) d
  | None => d
  end.

(** One iteration of [for line in lines]. *)
Definition step (st : state) (line : str) : state :=
  if startswith (s "## ") line
  then
    let section_name := heading_name line in
    mk_state (dict_set section_name [] (sections st)) section_name
  else if startswith (s "# ") line
  then mk_state (dict_set introduction [line] (sections st)) introduction
  else
    let sections :=
      if negb (dict_mem (current_section st) (sections st))
      then dict_set (current_section st) [] (sections st)
      else sections st in
    mk_state (dict_append (current_section st) line sections) (current_section st).

(** "Convert lists to strings" *)
Definition to_strings (d : dict (list str)) : dict str :=
  map (fun kv => (fst kv, strip (join [nl] (snd kv)))) d.

(** The sections of a README that is there. *)
Definition readme_sections (content : str) : dict str :=
  let lines := split nl content in
  to_strings (sections (fold_left step lines initial)).

(** [readme] is the text of README.md, [None] when the file is missing. *)
Definition extract_readme_content (readme : option str) : M (dict str) :=
  match readme with
  | None => print (warn (s "README.md not found")) ;;; ret []
  | Some content => ret (readme_sections content)
  end.

Definition section_files : dict str :=
  [ (s "introduction", s "introduction.md");
    (s "installation", s "installation.md");
    (s "authentication", s "authentication.md");
    (s "regions", s "regions.md");
    (s "global-services", s "regions.md");
    (s "project-structure", s "project-structure.md");
    (s "usage-examples", s "usage.md");
    (s "error-handling", s "error-handling.md");
    (s "contributing", s "contributing.md") ].

(** "Convert H3 to H2 to maintain hierarchy" *)
Definition process_line (line : str) : str :=
  if startswith (s "### ") line then replace_first (s "### ") (s "## ") line else line.

Definition markdown_content (section content : str) : str :=
  let title := title (replace_char "-"%char (s " ") section) in
  let lines := split nl content in
  let processed_content := join [nl] (map process_line lines) in
  s "---" ++ [nl] ++ s "title: " ++ title ++ [nl] ++ s "---" ++ [nl] ++ [nl]
    ++ s "# " ++ title ++ [nl] ++ [nl] ++ processed_content ++ [nl].

(** [source_dir] is the directory of pages, file name to content; writing a
    file replaces what was there.  The directory stands for one that takes
    every write: a write that raises, which nothing here would catch, is not
    part of this model. *)
Fixpoint write_sections (items : list (str * str)) (source_dir : dict str)
    : M (dict str) :=
  match items with
  | [] => ret source_dir
  | (section, content) :: r =>
      match dict_get section section_files with
      | Some filename =>
          if truthy (strip content)
          then
            let source_dir := dict_set filename (markdown_content section content) source_dir in
            print (ok (s "Created " ++ filename)) ;;;
            write_sections r source_dir
          else write_sections r source_dir
      | None => write_sections r source_dir
      end
  end.

Definition create_markdown_files (readme_sections : dict str) (source_dir : dict str)
    : M (dict str) :=
  print (info (s "Creating Markdown files...")) ;;;
  write_sections readme_sections source_dir.

End Readme.

(** ** The output scaffolder: [clean_output_directory] *)

Module Scaffold.

(** A file system is a tree; a directory lists its entries by name. *)
#[warnings="-register-all"]
Inductive node :=
| File (content : str)
| Dir (entries : dict node).

Definition path := list str.

Fixpoint lookup (p : path) (n : node) : option node :=
  match p with
  | [] => Some n
  | c :: q =>
      match n with
      | Dir es => match dict_get c es with Some m => lookup q m | None => None end
      | File _ => None
      end
  end.

Fixpoint dict_remove {V} (k : str) (d : dict V) : dict V :=
  match d with
  | [] => []
  | (k', v) :: r => if str_eqb k k' then dict_remove k r else (k', v) :: dict_remove k r
  end.

(** The tree without what is at [p]. *)
Fixpoint remove (p : path) (n : node) : node :=
  match p, n with
  | [c], Dir es => Dir (dict_remove c es)
  | c :: q, Dir es =>
      match dict_get c es with
      | Some m => Dir (dict_set c (remove q m) es)
      | None => n
      end
  | _, _ => n
  end.

(** The tree with [m] put at [p], where the parent of [p] is a directory. *)
Fixpoint put (p : path) (m : node) (n : node) : node :=
  match p, n with
  | [c], Dir es => Dir (dict_set c m es)
  | c :: q, Dir es =>
      match dict_get c es with
      | Some n' => Dir (dict_set c (put q m n') es)
      | None => n
      end
  | _, _ => n
  end.

Definition is_dir (o : option node) : bool :=
  match o with Some (Dir _) => true | _ => false end.

(** A step on the file system returns or raises, prints, and leaves a file
    system; what a step has changed stays changed when a later one raises. *)
Definition FS (A : Type) : Type := node -> result A * node * list entry.

Definition fs_ret {A} (a : A) : FS A := fun fs => (Returned a, fs, []).
Definition fs_raise {A} (e : exn) : FS A := fun fs => (Raised e, fs, []).
Definition fs_print (e : entry) : FS unit := fun fs => (Returned tt, fs, [e]).

Definition fs_bind {A B} (m : FS A) (k : A -> FS B) : FS B :=
  fun fs =>
    match m fs with
    | (Returned a, fs', out) =>
        let '(r, fs'', out') := k a fs' in (r, fs'', out ++ out')
    | (Raised e, fs', out) => (Raised e, fs', out)
    end.

Definition fs_try_except {A} (body : FS A) (handler : exn -> FS A) : FS A :=
  fun fs =>
    match body fs with
    | (Returned a, fs', out) => (Returned a, fs', out)
    | (Raised e, fs', out) =>
        let '(r, fs'', out') := handler e fs' in (r, fs'', out ++ out')
    end.

Declare Scope fs_scope.
Notation "x <- m ;; k" := (fs_bind m (fun x => k))
  (at level 61, m at next level, right associativity) : fs_scope.
Notation "m ;;; k" := (fs_bind m (fun _ => k))
  (at level 61, right associativity) : fs_scope.
Local Open Scope fs_scope.

(** [p.exists()] *)
Definition exists_ (p : path) : FS bool :=
  fun fs => (Returned (match lookup p fs with Some _ => true | None => false end), fs, []).

(** [shutil.rmtree(p)]: removes the directory at [p] with all it holds, and
    raises when [p] is not a directory. *)
Definition rmtree (p : path) : FS unit :=
  fun fs =>
    match lookup p fs with
    | Some (Dir _) => (Returned tt, remove p fs, [])
    | Some (File _) => (Raised (OtherException (s "NotADirectoryError")), fs, [])
    | None => (Raised (OtherException (s "FileNotFoundError")), fs, [])
    end.

(** [p.mkdir(exist_ok=True)]: nothing to do for a directory that is there,
    and an error when [p] is a file or the parent of [p] is no directory. *)
Definition mkdir_exist_ok (p : path) : FS unit :=
  fun fs =>
    match lookup p fs with
    | Some (Dir _) => (Returned tt, fs, [])
    | Some (File _) => (Raised (OtherException (s "FileExistsError")), fs, [])
    | None =>
        if is_dir (lookup (removelast p) fs)
        then (Returned tt, put p (Dir []) fs, [])
        else (Raised (OtherException (s "FileNotFoundError")), fs, [])
    end.

(** The generator object: [docs_dir] always, [output_dir] only when the
    constructor has set it, which it does not do on Read the Docs. *)
Record generator := mk_generator {
  docs_dir : path;
  output_dir : option path
}.

Definition new_generator (is_readthedocs : bool) (docs_dir : path) : generator :=
  if is_readthedocs then mk_generator docs_dir None
  else mk_generator docs_dir (Some (docs_dir ++ [s "output"])).

(** Reading [self.output_dir]. *)
Definition get_output_dir (self : generator) : FS path :=
  match output_dir self with
  | Some p => fs_ret p
  | None => fs_raise (OtherException (s "AttributeError"))
  end.

Definition clean_output_directory (self : generator) : FS unit :=
  fs_print (info (s "Cleaning output/ directory...")) ;;;
  fs_try_except
    (p <- get_output_dir self ;;
     there <- exists_ p ;;
     (if there then rmtree p else fs_ret tt) ;;;
     mkdir_exist_ok p)
    (fun e =>
       fs_print (warn (s "Error cleaning output/ directory: " ++ exn_text e))) ;;;
  fs_print (ok (s "Output/ directory cleaned successfully")).

(** The file system a run of the scaffolder leaves. *)
Definition run (self : generator) (fs : node) : node :=
  snd (fst (clean_output_directory self fs)).

End Scaffold.

(** ** The module pages: [create_modules_documentation], and the
    external-doc fetcher [get_go_doc_for_package] *)

Module GoDoc.

Import Scaffold.

(** What the outside world does during one module's documentation step:
    the two [os.chdir] calls, the [go doc -all] run for a module, and the
    module's directory under the project root ([None] when it does not
    exist, else the names of the files in it). *)
Record world := mk_world {
  chdir_project_root : result unit;
  go_doc_all : str -> result completed;
  chdir_original_cwd : result unit;
  module_dir : str -> option (list str)
}.

Definition os_chdir (outcome : result unit) : M unit := (outcome, []).

Definition get_go_doc_for_package (w : world) (module_name : str) : M str :=
  try_except
    (os_chdir (chdir_project_root w) ;;;
     result <- subprocess_run (go_doc_all w module_name) ;;
     os_chdir (chdir_original_cwd w) ;;;
     if Z.eqb (returncode result) 0 && truthy (strip (stdout result))
     then ret (clean_go_doc_output (stdout result))
     else
       print (warn (s "No package documentation found for " ++ module_name)) ;;;
       ret [])
    (fun e =>
       match e with
       | TimeoutExpired =>
           print (warn (s "Timeout getting documentation for " ++ module_name)) ;;;
           ret []
       | OtherException what =>
           print (warn (s "Error getting package documentation for " ++ module_name
                         ++ s ": " ++ what)) ;;;
           ret []
       end).

(** [module_path.glob("*.go")] without the test files. *)
Definition go_files (names : list str) : list str :=
  filter (fun f => endswith (s ".go") f && negb (endswith (s "_test.go") f)) names.

Local Open Scope fs_scope.

(** A computation that leaves the file system alone, as a step on it. *)
Definition lift {A} (m : M A) : FS A := fun fs => (fst m, fs, snd m).

(** On the way down [p] there is a regular file where a directory is
    needed. *)
Fixpoint through_file (p : path) (n : node) : bool :=
  match p, n with
  | [], _ => false
  | _ :: _, File _ => true
  | c :: q, Dir es =>
      match dict_get c es with
      | Some m => through_file q m
      | None => false
      end
  end.

(** [with open(p, "w", encoding="utf-8") as f: f.write(content)]: makes the
    regular file at [p] or replaces its content, and raises when [p] is a
    directory or the parent of [p] is no directory. *)
Definition write_file (p : path) (content : str) : FS unit :=
  fun fs =>
    match lookup p fs with
    | Some (Dir _) => (Raised (OtherException (s "IsADirectoryError")), fs, [])
    | Some (File _) => (Returned tt, put p (File content) fs, [])
    | None =>
        if is_dir (lookup (removelast p) fs)
        then (Returned tt, put p (File content) fs, [])
        else if through_file p fs
        then (Raised (OtherException (s "NotADirectoryError")), fs, [])
        else (Raised (OtherException (s "FileNotFoundError")), fs, [])
    end.

(** [p / name] *)
Definition child (p : path) (name : str) : path := p ++ [name].

(** [modules_dir] is the path of the directory of module pages; a module
    name is one path component, as the listed names are.  Nothing here is
    caught: when the page cannot be written, the step raises. *)
Definition create_module_documentation (w : world) (module_name : str)
    (modules_dir : path) : FS unit :=
  match module_dir w module_name with
  | None => fs_print (warn (s "Module " ++ module_name ++ s " not found"))
  | Some names =>
      if negb (truthy (go_files names))
      then fs_print (warn (s "No Go files found in " ++ module_name))
      else
        let module_content := s "# " ++ title module_name ++ [nl; nl] in
        package_doc <- lift (get_go_doc_for_package w module_name) ;;
        let module_content :=
          if truthy package_doc then module_content ++ package_doc ++ [nl; nl]
          else module_content in
        let module_file := child modules_dir (module_name ++ s ".md") in
        write_file module_file module_content ;;;
        fs_print (ok (s "Documentation created for module " ++ module_name
                       ++ s " using go doc"))
  end.

Definition go_modules : list str :=
  map s ["client"; "compute"; "blockstorage"; "network"; "kubernetes";
         "dbaas"; "containerregistry"; "sshkeys"; "availabilityzones";
         "audit"; "lbaas"; "helpers"].

(** [for module in self.go_modules: self.create_module_documentation(...)] *)
Fixpoint for_modules (w : world) (modules : list str) (modules_dir : path)
    : FS unit :=
  match modules with
  | [] => fs_ret tt
  | m :: r =>
      create_module_documentation w m modules_dir ;;;
      for_modules w r modules_dir
  end.

(** [source_dir] is [self.source_dir].  The [mkdir] is not caught either. *)
Definition create_modules_documentation (w : world) (source_dir : path) : FS unit :=
  fs_print (info (s "Creating module documentation...")) ;;;
  let modules_dir := child source_dir (s "modules") in
  mkdir_exist_ok modules_dir ;;;
  for_modules w go_modules modules_dir.

End GoDoc.

(** ** Vocabulary of the statements *)

(** Reading an output back as lines, and its fenced blocks: a fence line
    toggles between prose and code; [fenced_blocks] lists the contents of the
    code blocks. *)
Definition output_lines (out : str) : list str := split nl out.

Fixpoint fenced_from (cur : option (list str)) (ls : list str) : list (list str) :=
  match ls with
  | [] => match cur with Some b => [b] | None => [] end
  | l :: r =>
      if str_eqb l fence
      then match cur with
           | Some b => b :: fenced_from None r
           | None => fenced_from (Some []) r
           end
      else match cur with
           | Some b => fenced_from (Some (b ++ [l])) r
           | None => fenced_from None r
           end
  end.

Definition fenced_blocks (out : str) : list (list str) :=
  fenced_from None (output_lines out).

Definition mem_line (l : str) (b : list str) : bool := existsb (str_eqb l) b.

(** Two lines sit in one fenced block of [out]. *)
Definition same_block (a b : str) (out : str) : bool :=
  existsb (fun blk => mem_line a blk && mem_line b blk) (fenced_blocks out).




(** A string whose first, respectively last, character is not whitespace. *)
Definition head_ok (x : str) : bool :=
  match x with c :: _ => negb (is_space c) | [] => false end.

Definition last_ok (x : str) : bool := head_ok (rev x).

(** A list of lines that, joined, is already stripped: it is empty, or its
    first line starts and its last line ends with a character that is not
    whitespace. *)
Definition framed (ls : list str) : Prop :=
  ls = [] \/ (head_ok (hd [] ls) = true /\ last_ok (last ls []) = true).

Definition nl_free (l : str) : Prop := ~ In nl l.

(** How often [t] is a line of [ls]. *)
Definition occ (t : str) (ls : list str) : nat :=
  List.length (filter (str_eqb t) ls).

(** How many lines of [ls] are [t] once stripped. *)
Definition occ_stripped (t : str) (ls : list str) : nat :=
  occ t (map strip ls).

(** The two section dividers of [go doc] and the flag each one sets. *)
Inductive divider := CONSTANTS | TYPES.

Definition divider_text (d : divider) : str :=
  match d with CONSTANTS => s "CONSTANTS" | TYPES => s "TYPES" end.

Definition removed (d : divider) (st : Cleaner.state) : bool :=
  match d with
  | CONSTANTS => constants_removed st
  | TYPES => types_removed st
  end.

(** The state with the flag of a divider set, and nothing else changed. *)
Definition mark_removed (d : divider) (st : Cleaner.state) : Cleaner.state :=
  match d with
  | CONSTANTS =>
      Cleaner.mk_state (cleaned_lines st) (in_code_block st) (code_block_content st)
        true (types_removed st)
  | TYPES =>
      Cleaner.mk_state (cleaned_lines st) (in_code_block st) (code_block_content st)
        (constants_removed st) true
  end.

(** The divider lines a state holds, emitted or in its open block. *)
Definition held (t : str) (st : Cleaner.state) : nat :=
  occ t (cleaned_lines st)
  + (if in_code_block st then occ t (code_block_content st) else 0).

(** A declaration line, as the loop tests it. *)
Definition declares (line : str) : bool := is_declaration (strip line).

(** The line is not one the divider rules drop in state [st]. *)
Definition kept (st : Cleaner.state) (line : str) : Prop :=
  forall d, strip line = divider_text d -> removed d st = true.

(** The cases of one iteration of the cleaner's loop. *)
Inductive stepped (st : Cleaner.state) (line : str) : Cleaner.state -> Prop :=
| stepped_leading_blank :
    cleaned_lines st = [] -> strip line = [] ->
    stepped st line st
| stepped_constants :
    strip line = s "CONSTANTS" -> constants_removed st = false ->
    stepped st line
      (Cleaner.mk_state (cleaned_lines st) (in_code_block st) (code_block_content st)
         true (types_removed st))
| stepped_types :
    strip line = s "TYPES" -> types_removed st = false ->
    stepped st line
      (Cleaner.mk_state (cleaned_lines st) (in_code_block st) (code_block_content st)
         (constants_removed st) true)
| stepped_declaration :
    is_declaration (strip line) = true -> kept st line ->
    stepped st line
      (Cleaner.mk_state (close_block st) true [strip line]
         (constants_removed st) (types_removed st))
| stepped_continue :
    in_code_block st = true -> is_declaration (strip line) = false -> kept st line ->
    stepped st line
      (Cleaner.mk_state (cleaned_lines st) true (code_block_content st ++ [strip line])
         (constants_removed st) (types_removed st))
| stepped_comment :
    in_code_block st = false -> startswith (s "//") (strip line) = true ->
    strip (skipn 2 (strip line)) <> [] ->
    stepped st line
      (Cleaner.mk_state
         (cleaned_lines st ++ [s "*" ++ escape (strip (skipn 2 (strip line))) ++ s "*"])
         false (code_block_content st)
         (constants_removed st) (types_removed st))
| stepped_text :
    in_code_block st = false -> is_declaration (strip line) = false ->
    startswith (s "//") (strip line) = false -> strip line <> [] -> kept st line ->
    stepped st line
      (Cleaner.mk_state (cleaned_lines st ++ [escape (strip line)])
         false (code_block_content st)
         (constants_removed st) (types_removed st))
| stepped_nothing :
    in_code_block st = false -> is_declaration (strip line) = false ->
    (forall d, strip line <> divider_text d) ->
    stepped st line st.

(** Level-1 and level-2 heading lines of a README, as the sectionizer tests
    them. *)
Definition is_h2 (line : str) : bool := startswith (s "## ") line.
Definition is_h1 (line : str) : bool := startswith (s "# ") line.

(** The lines from the last level-1 heading on; every line when there is no
    such heading. *)
Fixpoint from_last_h1 (lines : list str) : list str :=
  match lines with
  | [] => []
  | l :: r => if existsb is_h1 r then from_last_h1 r else l :: r
  end.

(** The sectionizer's buffer after more lines, none a level-2 heading. *)
Definition buffer_after (buf : list str) (lines : list str) : list str :=
  fold_left (fun b l => if is_h1 l then [l] else b ++ [l]) lines buf.

(** The external command did not succeed: it raised, timed out or ended
    with a status other than zero. *)
Definition failed (outcome : result completed) : Prop :=
  match outcome with
  | Raised _ => True
  | Returned c => returncode c <> 0%Z
  end.

(** The path is a regular file. *)
Definition is_file (o : option Scaffold.node) : bool :=
  match o with Some (Scaffold.File _) => true | _ => false end.

(** The page of a module in the directory of module pages. *)
Definition module_page (modules_dir : Scaffold.path) (module_name : str) : Scaffold.path :=
  GoDoc.child modules_dir (module_name ++ s ".md").

(** The file at [p] can be written: it is a regular file already, or
    nothing is there and the parent of [p] is a directory. *)
Definition writable (p : Scaffold.path) (fs : Scaffold.node) : bool :=
  match Scaffold.lookup p fs with
  | Some (Scaffold.File _) => true
  | Some (Scaffold.Dir _) => false
  | None => Scaffold.is_dir (Scaffold.lookup (removelast p) fs)
  end.

(** A directory listing of regular files only. *)
Definition all_files (es : dict Scaffold.node) : bool :=
  forallb (fun e => is_file (Some (snd e))) es.

(** The directory at [p] is there and holds regular files only. *)
Definition holds_only_files (p : Scaffold.path) (fs : Scaffold.node) : bool :=
  match Scaffold.lookup p fs with
  | Some (Scaffold.Dir es) => all_files es
  | _ => false
  end.

(** The directory of module pages can take every page: it holds regular
    files only, or it is not there yet and can be made. *)
Definition pages_dir_ok (p : Scaffold.path) (fs : Scaffold.node) : bool :=
  match Scaffold.lookup p fs with
  | Some (Scaffold.Dir es) => all_files es
  | Some (Scaffold.File _) => false
  | None => Scaffold.is_dir (Scaffold.lookup (removelast p) fs)
  end.

(** The file system the loop over the modules leaves, whether it returns or
    raises. *)
Definition after_modules (w : GoDoc.world) (source_dir : Scaffold.path)
    (fs : Scaffold.node) : Scaffold.node :=
  snd (fst (GoDoc.create_modules_documentation w source_dir fs)).

(** The output directory of a generator made for [docs_dir]. *)
Definition output_path (docs_dir : Scaffold.path) : Scaffold.path :=
  docs_dir ++ [s "output"].

(** The scaffolder can do its work: the generator has an output directory,
    the directory that is to hold it is there, and no regular file is in its
    place. *)
Definition cleanable (is_readthedocs : bool) (docs_dir : Scaffold.path)
    (fs : Scaffold.node) : bool :=
  negb is_readthedocs
  && Scaffold.is_dir (Scaffold.lookup docs_dir fs)
  && negb (is_file (Scaffold.lookup (output_path docs_dir) fs)).

(** What holds of every state the scan reaches on lines without a newline. *)
Record reachable (st : Cleaner.state) : Prop := mk_reachable {
  block_not_empty : in_code_block st = true -> code_block_content st <> [];
  cleaned_framed : framed (cleaned_lines st);
  cleaned_nl_free : Forall nl_free (cleaned_lines st);
  block_nl_free : Forall nl_free (code_block_content st)
}.

(** ** The Sphinx structure: [create_sphinx_structure] *)

Module Structure.

Import Scaffold.
Local Open Scope fs_scope.

(** [self.source_dir], as the constructor sets it. *)
Definition source_dir (is_readthedocs : bool) (docs_dir : path) : path :=
  if is_readthedocs then docs_dir else docs_dir ++ [s "source"].

(** No exception is caught here: a failing [mkdir] ends the step. *)
Definition create_sphinx_structure (source_dir : path) : FS unit :=
  fs_print (info (s "Creating Sphinx structure...")) ;;;
  mkdir_exist_ok source_dir ;;;
  mkdir_exist_ok (source_dir ++ [s "_static"]) ;;;
  mkdir_exist_ok (source_dir ++ [s "_templates"]).

(** The file system the step leaves, whether it returns or raises. *)
Definition run (source_dir : path) (fs : node) : node :=
  snd (fst (create_sphinx_structure source_dir fs)).

End Structure.

(** [p] is [q] or an ancestor of [q]. *)
Fixpoint is_prefix (p q : Scaffold.path) : bool :=
  match p, q with
  | [], _ => true
  | _ :: _, [] => false
  | a :: p', b :: q' => str_eqb a b && is_prefix p' q'
  end.

(** The directory at [p] is there or can be made: its parent is a
    directory and no regular file is in its place. *)
Definition can_make (p : Scaffold.path) (fs : Scaffold.node) : bool :=
  match Scaffold.lookup p fs with
  | Some (Scaffold.Dir _) => true
  | Some (Scaffold.File _) => false
  | None => Scaffold.is_dir (Scaffold.lookup (removelast p) fs)
  end.

(** ** The index and the example pages: [create_index_rst],
    [create_examples_documentation] *)

Module Examples.

Import Scaffold.

(** The order of [str]: by code points, a prefix first. *)
Fixpoint str_leb (a b : str) : bool :=
  match a, b with
  | [], _ => true
  | _ :: _, [] => false
  | x :: a', y :: b' =>
      if Nat.ltb (nat_of_ascii x) (nat_of_ascii y) then true
      else if Nat.eqb (nat_of_ascii x) (nat_of_ascii y) then str_leb a' b'
      else false
  end.

Fixpoint insert_entry (e : str * node) (l : list (str * node)) : list (str * node) :=
  match l with
  | [] => [e]
  | h :: r => if str_leb (fst e) (fst h) then e :: l else h :: insert_entry e r
  end.

(** [sorted(examples_dir.iterdir())]: the entries of the directory by name. *)
Definition sorted_entries (es : dict node) : list (str * node) :=
  fold_right insert_entry [] es.

(** [example_dir.is_dir() and (example_dir / "main.go").exists()] *)
Definition has_main (n : node) : bool :=
  match n with
  | Dir es => dict_mem (s "main.go") es
  | File _ => false
  end.

(** [example_name.replace('_', '-')] *)
Definition display_name (example_name : str) : str :=
  replace_char "_"%char (s "-") example_name.

(** The subdirectories that are examples, in the order of the loop. *)
Definition example_dirs (es : dict node) : list (str * node) :=
  filter (fun e => has_main (snd e)) (sorted_entries es).

Definition example_entries (es : dict node) : list str :=
  map (fun e => s "   examples/" ++ display_name (fst e)) (example_dirs es).

Definition examples_section (example_entries : list str) : str :=
  if truthy example_entries
  then text [""; ".. toctree::"; "   :maxdepth: 1"; "   :caption: Examples:"; ""]
         ++ [nl] ++ join [nl] example_entries ++ [nl]
  else [].

Definition index_content (examples_section : str) : str :=
  text [""; "MGC Go SDK"; "###########"; "";
        "Welcome to the MGC Go SDK documentation!"; "";
        "The MGC Go SDK provides a convenient way to interact with the Magalu Cloud API from Go applications.";
        ""; ".. toctree::"; "   :maxdepth: 2"; "   :caption: Content:"; "";
        "   introduction"; "   installation"; "   authentication"; "   regions";
        "   usage"; "   error-handling"; "   contributing"; "   project-structure"]
    ++ [nl] ++ examples_section ++ [nl]
    ++ text [".. toctree::"; "   :maxdepth: 1"; "   :caption: Modules:"; "";
             "   modules/client"; "   modules/compute"; "   modules/blockstorage";
             "   modules/network"; "   modules/kubernetes"; "   modules/dbaas";
             "   modules/containerregistry"; "   modules/sshkeys";
             "   modules/availabilityzones"; "   modules/audit"; "   modules/lbaas";
             "   modules/helpers"; ""; "Indices and tables"; "==================";
             ""; "* :ref:`genindex`"; "* :ref:`modindex`"; "* :ref:`search`"; ""].

(** Iterating over a path that is no directory raises. *)
Definition iterdir (examples_dir : node) : M (dict node) :=
  match examples_dir with
  | Dir es => ret es
  | File _ => raise (OtherException (s "NotADirectoryError"))
  end.

(** [examples_dir] is what is at [cmd/examples] under the project root,
    [None] when nothing is; [source_dir] is the directory of pages. *)
Definition create_index_rst (examples_dir : option node) (source_dir : dict str)
    : M (dict str) :=
  example_entries <-
    match examples_dir with
    | Some n => es <- iterdir n ;; ret (example_entries es)
    | None => ret []
    end ;;
  let source_dir :=
    dict_set (s "index.rst") (index_content (examples_section example_entries)) source_dir in
  print (ok (s "index.rst file created")) ;;;
  ret source_dir.

(** [open(main_file, "r")] and reading it whole: raises for a directory. *)
Definition read_file (n : node) : result str :=
  match n with
  | File content => Returned content
  | Dir _ => Raised (OtherException (s "IsADirectoryError"))
  end.

(** What follows the first two slashes of a text. *)
Fixpoint after_slashes (x : str) : option str :=
  match x with
  | a :: r =>
      match r with
      | b :: r' =>
          if Ascii.eqb a "/" && Ascii.eqb b "/" then Some r' else after_slashes r
      | [] => None
      end
  | [] => None
  end.

Fixpoint line_of (x : str) : str :=
  match x with
  | [] => []
  | c :: r => if Ascii.eqb c nl then [] else c :: line_of r
  end.

(** [re.search(r'//\s*(.+?)(?:\n|$)', content)] and, of a match,
    [group(1).strip()].  After the first two slashes the pattern skips
    whitespace, newlines too, and takes the rest of the line it reaches;
    when only whitespace follows, it gives some of that back and the group
    is blank, unless there are nothing but newlines, where nothing matches. *)
Definition package_comment (content : str) : option str :=
  match after_slashes content with
  | None => None
  | Some rest =>
      if truthy (lstrip rest) then Some (strip (line_of (lstrip rest)))
      else if existsb (fun c => negb (Ascii.eqb c nl)) rest then Some []
      else None
  end.

(** The page of one example; its title line uses [title], which is exact
    for a directory name in ASCII. *)
Definition example_content (example_name : str) (main_file : node) : str :=
  let example_content :=
    s "# " ++ title example_name ++ [nl; nl]
      ++ s "Example usage of the `" ++ example_name ++ s "` module." ++ [nl; nl] in
  let example_content :=
    match read_file main_file with
    | Returned content =>
        match package_comment content with
        | Some comment => example_content ++ comment ++ [nl; nl]
        | None => example_content
        end
    | Raised _ => example_content
    end in
  let example_content :=
    example_content ++ s "**File:** `cmd/examples/" ++ example_name ++ s "/main.go`"
      ++ [nl; nl] in
  let example_content := example_content ++ s "```go" ++ [nl] in
  let example_content :=
    match read_file main_file with
    | Returned content => example_content ++ content
    | Raised _ => example_content ++ s "// Error reading example file" ++ [nl]
    end in
  example_content ++ s "```" ++ [nl].

(** The body of the loop for the entries that pass its two tests. *)
Fixpoint write_examples (dirs : list (str * node)) (examples_docs_dir : dict str)
    : M (dict str) :=
  match dirs with
  | [] => ret examples_docs_dir
  | (example_name, example_dir) :: r =>
      match example_dir with
      | Dir es =>
          match dict_get (s "main.go") es with
          | Some main_file =>
              let examples_docs_dir :=
                dict_set (display_name example_name ++ s ".md")
                  (example_content example_name main_file) examples_docs_dir in
              print (ok (s "Created example documentation for " ++ example_name)) ;;;
              write_examples r examples_docs_dir
          | None => write_examples r examples_docs_dir
          end
      | File _ => write_examples r examples_docs_dir
      end
  end.

(** [examples_docs_dir] is the directory [examples] of pages, which the step
    makes first. *)
Definition create_examples_documentation (examples_dir : option node)
    (examples_docs_dir : dict str) : M (dict str) :=
  match examples_dir with
  | None =>
      print (warn (s "Examples directory not found")) ;;;
      ret examples_docs_dir
  | Some n =>
      es <- iterdir n ;;
      examples_docs_dir <- write_examples (sorted_entries es) examples_docs_dir ;;
      print (ok (s "Examples documentation created")) ;;;
      ret examples_docs_dir
  end.

End Examples.

(** ** Vocabulary of the further statements *)

(** Two entries of a directory in the order of their names. *)
Definition by_name (a b : str * Scaffold.node) : Prop :=
  Examples.str_leb (fst a) (fst b) = true.

(** What the cleaner emits for one line outside a code block: nothing for a
    blank line or an empty comment, the emphasized text of a comment, the
    escaped text of any other line. *)
Definition render_prose (line : str) : list str :=
  if startswith (s "//") (strip line)
  then (if truthy (strip (skipn 2 (strip line)))
        then [s "*" ++ escape (strip (skipn 2 (strip line))) ++ s "*"]
        else [])
  else if truthy (strip line) then [escape (strip line)] else [].

(** The lines without the first [CONSTANTS] and the first [TYPES] line, the
    flags telling which of the two was met before. *)
Fixpoint drop_dividers (constants_met types_met : bool) (lines : list str) : list str :=
  match lines with
  | [] => []
  | l :: r =>
      if negb constants_met && str_eqb (strip l) (s "CONSTANTS")
      then drop_dividers true types_met r
      else if negb types_met && str_eqb (strip l) (s "TYPES")
      then drop_dividers constants_met true r
      else l :: drop_dividers constants_met types_met r
  end.

Definition is_quote (c : ascii) : bool :=
  Ascii.eqb c squote || Ascii.eqb c dquote.

(** Every quote character of the string follows a backslash. *)
Fixpoint quotes_escaped_from (after_backslash : bool) (x : str) : bool :=
  match x with
  | [] => true
  | c :: r =>
      (if is_quote c then after_backslash else true)
      && quotes_escaped_from (Ascii.eqb c backslash) r
  end.

Definition quotes_escaped (x : str) : bool := quotes_escaped_from false x.

Definition blank (line : str) : bool := negb (truthy (strip line)).

(** The characters of a section name: [a-z], [0-9] and the hyphen. *)
Definition is_name_char (c : ascii) : bool :=
  in_range 97 122 c || in_range 48 57 c || Nat.eqb (nat_of_ascii c) 45.

(** A heading line of either level, as the sectionizer tests them. *)
Definition is_heading (line : str) : bool := is_h2 line || is_h1 line.

Definition is_h3 (line : str) : bool := startswith (s "### ") line.

(** The file and the page the page writer produces for one section, if it
    writes one. *)
Definition page_of (section content : str) : option (str * str) :=
  match dict_get section Readme.section_files with
  | Some filename =>
      if truthy (strip content)
      then Some (filename, Readme.markdown_content section content)
      else None
  | None => None
  end.

(** The page of the last section of [items] that is written to file [f]. *)
Fixpoint last_page (f : str) (items : list (str * str)) : option str :=
  match items with
  | [] => None
  | (section, content) :: r =>
      match last_page f r with
      | Some page => Some page
      | None =>
          match page_of section content with
          | Some (filename, page) => if str_eqb f filename then Some page else None
          | None => None
          end
      end
  end.

(** A version without its leading v, if it has one. *)
Definition drop_prefix_v (version : str) : str :=
  if startswith (s "v") version then skipn 1 version else version.

(** [git describe --tags] gave a tag: it ended with status zero and printed
    more than whitespace. *)
Definition git_tag (git : result completed) : option str :=
  match git with
  | Returned c =>
      if Z.eqb (returncode c) 0 && truthy (strip (stdout c))
      then Some (strip (stdout c)) else None
  | Raised _ => None
  end.

(** The value the resolver reads from the environment on Read the Docs. *)
Definition env_version (env : Version.environ) : option str :=
  if Version.falsy (dict_get (s "VERSION") env)
  then dict_get (s "READTHEDOCS_VERSION") env
  else dict_get (s "VERSION") env.


(** * Properties *)

(** ** Facts about the string operations *)

Section TextFacts.

Lemma str_eqb_eq (a b : str) : str_eqb a b = true <-> a = b.
Proof.
  unfold str_eqb. destruct (list_eq_dec ascii_dec a b); split; congruence.
Qed.

Lemma str_eqb_refl (a : str) : str_eqb a a = true.
Proof. apply str_eqb_eq. reflexivity. Qed.

Lemma str_eqb_neq (a b : str) : str_eqb a b = false <-> a <> b.
Proof.
  unfold str_eqb. destruct (list_eq_dec ascii_dec a b); split; congruence.
Qed.

Lemma truthy_false {A} (x : list A) : truthy x = false <-> x = [].
Proof. destruct x; simpl; split; congruence. Qed.

Lemma truthy_true {A} (x : list A) : truthy x = true <-> x <> [].
Proof. destruct x; simpl; split; congruence. Qed.

(** *** [split] and [join] *)

Lemma split_not_nil (sep : ascii) (x : str) : split sep x <> [].
Proof.
  destruct x as [|c r]; simpl; [discriminate|].
  destruct (ascii_dec c sep); [discriminate|].
  destruct (split sep r); discriminate.
Qed.

Lemma split_app_sep (sep : ascii) (l r : str) :
  ~ In sep l -> split sep (l ++ sep :: r) = l :: split sep r.
Proof.
  induction l as [|c l IH]; simpl; intros Hl.
  - destruct (ascii_dec sep sep); [reflexivity|congruence].
  - destruct (ascii_dec c sep) as [->|Hc]; [tauto|].
    rewrite IH by tauto. reflexivity.
Qed.

Lemma split_no_sep (sep : ascii) (l : str) : ~ In sep l -> split sep l = [l].
Proof.
  induction l as [|c l IH]; simpl; intros Hl; [reflexivity|].
  destruct (ascii_dec c sep) as [->|Hc]; [tauto|].
  rewrite IH by tauto. reflexivity.
Qed.

Lemma split_sep_free (sep : ascii) (x : str) :
  Forall (fun l => ~ In sep l) (split sep x).
Proof.
  induction x as [|c r IH]; simpl.
  - constructor; [tauto|constructor].
  - destruct (ascii_dec c sep) as [->|Hc].
    + constructor; [tauto|assumption].
    + destruct (split sep r) as [|h t]; inversion IH; subst.
      * constructor; [|constructor]. simpl. intros [E|[]]. congruence.
      * constructor; [|assumption]. simpl. intros [E|E]; [congruence|tauto].
Qed.

Lemma join_cons (sep x : str) (r : list str) :
  r <> [] -> join sep (x :: r) = x ++ sep ++ join sep r.
Proof. destruct r; [congruence|reflexivity]. Qed.

Lemma join_split (sep : ascii) (x : str) : join [sep] (split sep x) = x.
Proof.
  induction x as [|c r IH]; simpl; [reflexivity|].
  destruct (ascii_dec c sep) as [->|Hc].
  - rewrite join_cons by apply split_not_nil. simpl. now rewrite IH.
  - pose proof (split_not_nil sep r) as Hne.
    destruct (split sep r) as [|h t]; [congruence|].
    destruct t as [|h' t]; simpl in *; congruence.
Qed.

Lemma split_join (sep : ascii) (ls : list str) :
  ls <> [] -> Forall (fun l => ~ In sep l) ls -> split sep (join [sep] ls) = ls.
Proof.
  induction ls as [|x r IH]; [congruence|]. intros _ Hall.
  inversion Hall as [|? ? Hx Hr]; subst.
  destruct r as [|y r].
  - simpl. now apply split_no_sep.
  - rewrite join_cons by discriminate.
    change ([sep] ++ join [sep] (y :: r)) with (sep :: join [sep] (y :: r)).
    rewrite split_app_sep by assumption.
    f_equal. apply IH; [discriminate|assumption].
Qed.

(** *** [strip] *)

Lemma lstrip_head_ok (x : str) : head_ok x = true -> lstrip x = x.
Proof.
  destruct x as [|c r]; simpl; [discriminate|].
  destruct (is_space c); [discriminate|reflexivity].
Qed.

Lemma rstrip_last_ok (x : str) : last_ok x = true -> rstrip x = x.
Proof.
  unfold last_ok, rstrip. intros H. rewrite lstrip_head_ok by assumption.
  apply rev_involutive.
Qed.

Lemma strip_solid (x : str) : head_ok x = true -> last_ok x = true -> strip x = x.
Proof.
  intros H1 H2. unfold strip. rewrite rstrip_last_ok by assumption.
  now apply lstrip_head_ok.
Qed.

Lemma lstrip_suffix (x : str) :
  exists ws, x = ws ++ lstrip x /\ forallb is_space ws = true.
Proof.
  induction x as [|c r [ws [E W]]]; simpl.
  - exists []. split; reflexivity.
  - destruct (is_space c) eqn:Hc.
    + exists (c :: ws). simpl. rewrite Hc, W. split; [congruence|reflexivity].
    + exists []. split; reflexivity.
Qed.

Lemma lstrip_head (x : str) : lstrip x <> [] -> head_ok (lstrip x) = true.
Proof.
  induction x as [|c r IH]; simpl; [congruence|].
  destruct (is_space c) eqn:Hc; [assumption|].
  intros _. simpl. now rewrite Hc.
Qed.

Lemma head_ok_app (a b : str) : head_ok a = true -> head_ok (a ++ b) = true.
Proof. destruct a; simpl; [discriminate|tauto]. Qed.

Lemma last_ok_app (a b : str) : last_ok b = true -> last_ok (a ++ b) = true.
Proof.
  unfold last_ok. rewrite rev_app_distr. apply head_ok_app.
Qed.

Lemma head_ok_app_nonempty (a b : str) :
  a <> [] -> head_ok (a ++ b) = head_ok a.
Proof. destruct a; [congruence|reflexivity]. Qed.

Lemma last_ok_lstrip (x : str) :
  last_ok x = true -> lstrip x <> [] -> last_ok (lstrip x) = true.
Proof.
  intros H Hne. destruct (lstrip_suffix x) as [ws [E _]].
  unfold last_ok in *. rewrite E, rev_app_distr in H.
  rewrite head_ok_app_nonempty in H; [assumption|].
  intros E'. apply Hne. apply (f_equal (@rev ascii)) in E'.
  rewrite rev_involutive in E'. assumption.
Qed.

Lemma last_ok_rstrip (x : str) : rstrip x <> [] -> last_ok (rstrip x) = true.
Proof.
  unfold last_ok, rstrip. rewrite rev_involutive. intros H.
  apply lstrip_head. intros E. apply H. now rewrite E.
Qed.

(** A non-empty stripped string starts and ends with a character that is
    not whitespace. *)
Lemma strip_edges (x : str) :
  strip x <> [] -> head_ok (strip x) = true /\ last_ok (strip x) = true.
Proof.
  unfold strip. intros H. split.
  - now apply lstrip_head.
  - apply last_ok_lstrip; [|assumption].
    apply last_ok_rstrip. intros E. apply H. now rewrite E.
Qed.

Lemma strip_idem (x : str) : strip (strip x) = strip x.
Proof.
  destruct (strip x) as [|c r] eqn:E; [reflexivity|].
  rewrite <- E. destruct (strip_edges x) as [H1 H2]; [congruence|].
  now apply strip_solid.
Qed.

(** Stripping removes characters at the two ends only. *)
Lemma lstrip_incl (x : str) (c : ascii) : In c (lstrip x) -> In c x.
Proof.
  induction x as [|a r IH]; simpl; [tauto|].
  destruct (is_space a); simpl; tauto.
Qed.

Lemma strip_incl (x : str) (c : ascii) : In c (strip x) -> In c x.
Proof.
  unfold strip, rstrip. intros H. apply lstrip_incl in H.
  apply in_rev in H. apply lstrip_incl in H. now apply in_rev in H.
Qed.

(** *** [join] keeps the edges of its first and last piece *)

Lemma head_ok_join (sep x : str) (r : list str) :
  head_ok x = true -> head_ok (join sep (x :: r)) = true.
Proof.
  destruct r; [tauto|]. intros H. rewrite join_cons by discriminate.
  now apply head_ok_app.
Qed.

Lemma last_ok_join (sep : str) (ls : list str) :
  ls <> [] -> last_ok (last ls []) = true -> last_ok (join sep ls) = true.
Proof.
  induction ls as [|x r IH]; [congruence|]. intros _ H.
  destruct r as [|y r]; [exact H|].
  rewrite join_cons by discriminate.
  apply last_ok_app, last_ok_app. apply IH; [discriminate|exact H].
Qed.

End TextFacts.

(** ** Facts about the cleaner's loop *)

(** Reducing the projections of a constructed state only. *)
Ltac fields :=
  cbn [cleaned_lines in_code_block code_block_content constants_removed types_removed].

Section CleanerFacts.

Lemma kept_of_tests (st : Cleaner.state) (line : str) :
  negb (constants_removed st) && str_eqb (strip line) (s "CONSTANTS") = false ->
  negb (types_removed st) && str_eqb (strip line) (s "TYPES") = false ->
  kept st line.
Proof.
  intros H1 H2 d E. rewrite E in H1, H2.
  destruct d; simpl in *.
  - rewrite str_eqb_refl, andb_true_r in H1. now apply negb_false_iff in H1.
  - rewrite str_eqb_refl, andb_true_r in H2. now apply negb_false_iff in H2.
Qed.

(** Every iteration falls in one of the cases of [stepped]. *)
Lemma step_stepped (st : Cleaner.state) (line : str) : stepped st line (step st line).
Proof.
  unfold step.
  destruct (negb (truthy (cleaned_lines st)) && negb (truthy (strip line))) eqn:E0.
  { apply andb_prop in E0 as [A B].
    apply negb_true_iff in A, B. apply truthy_false in A, B.
    now apply stepped_leading_blank. }
  cbv zeta.
  destruct (negb (constants_removed st) && str_eqb (strip line) (s "CONSTANTS")) eqn:E1.
  { apply andb_prop in E1 as [A B].
    apply negb_true_iff in A. apply str_eqb_eq in B.
    now apply stepped_constants. }
  destruct (negb (types_removed st) && str_eqb (strip line) (s "TYPES")) eqn:E2.
  { apply andb_prop in E2 as [A B].
    apply negb_true_iff in A. apply str_eqb_eq in B.
    now apply stepped_types. }
  pose proof (kept_of_tests st line E1 E2) as K.
  destruct (is_declaration (strip line)) eqn:E3.
  { now apply stepped_declaration. }
  destruct (in_code_block st) eqn:E4.
  { destruct (truthy (strip line)) eqn:E5.
    - now apply stepped_continue.
    - apply truthy_false in E5.
      replace [[]] with [strip line] by now rewrite E5.
      now apply stepped_continue. }
  destruct (startswith (s "//") (strip line)) eqn:E6.
  { destruct (truthy (strip (skipn 2 (strip line)))) eqn:E7.
    - apply truthy_true in E7.
      now apply stepped_comment.
    - apply stepped_nothing; try assumption.
      intros d E. rewrite E in E6. destruct d; discriminate. }
  destruct (truthy (strip line)) eqn:E5.
  - apply truthy_true in E5. now apply stepped_text.
  - apply truthy_false in E5. apply stepped_nothing; try assumption.
    intros d E. rewrite E in E5. destruct d; discriminate.
Qed.

Lemma scan_from_cons (st : Cleaner.state) (l : str) (r : list str) :
  scan_from st (l :: r) = scan_from (step st l) r.
Proof. reflexivity. Qed.

Lemma scan_from_app (st : Cleaner.state) (a b : list str) :
  scan_from st (a ++ b) = scan_from (scan_from st a) b.
Proof. unfold scan_from. apply fold_left_app. Qed.

(** *** Escaping *)

Lemma replace_char_app (c : ascii) (new a b : str) :
  replace_char c new (a ++ b) = replace_char c new a ++ replace_char c new b.
Proof.
  induction a as [|x a IH]; simpl; [reflexivity|].
  now rewrite IH, app_assoc.
Qed.

Lemma replace_char_rev (c : ascii) (new x : str) :
  rev (replace_char c new x) = replace_char c (rev new) (rev x).
Proof.
  induction x as [|a r IH]; simpl; [reflexivity|].
  rewrite rev_app_distr, IH, replace_char_app. f_equal. simpl.
  destruct (ascii_dec a c); simpl; now rewrite ?app_nil_r.
Qed.

Lemma replace_char_head_ok (c : ascii) (new x : str) :
  head_ok new = true -> head_ok x = true -> head_ok (replace_char c new x) = true.
Proof.
  intros Hn Hx. destruct x as [|a r]; [discriminate|]. simpl.
  destruct (ascii_dec a c); [now apply head_ok_app|exact Hx].
Qed.

Lemma replace_char_last_ok (c : ascii) (new x : str) :
  last_ok new = true -> last_ok x = true -> last_ok (replace_char c new x) = true.
Proof.
  unfold last_ok. intros Hn Hx. rewrite replace_char_rev.
  now apply replace_char_head_ok.
Qed.

Lemma replace_char_in (c : ascii) (new x : str) (a : ascii) :
  In a (replace_char c new x) -> In a new \/ In a x.
Proof.
  induction x as [|b r IH]; simpl; [tauto|].
  intros H. apply in_app_or in H as [H|H].
  - destruct (ascii_dec b c); [tauto|]. destruct H as [H|[]]. tauto.
  - tauto.
Qed.

(** Replacing leaves a string without the character alone, and leaves the
    replacement's characters in any other. *)
Lemma replace_char_fixed_or_marked (c : ascii) (new x : str) :
  replace_char c new x = x \/ (forall a, In a new -> In a (replace_char c new x)).
Proof.
  induction x as [|b r IH]; simpl; [now left|].
  destruct (ascii_dec b c) as [->|Hb].
  - right. intros a Ha. apply in_or_app. now left.
  - destruct IH as [IH|IH].
    + left. simpl. now rewrite IH.
    + right. intros a Ha. simpl. right. now apply IH.
Qed.

Lemma escape_head_ok (x : str) : head_ok x = true -> head_ok (escape x) = true.
Proof.
  intros H. unfold escape.
  apply replace_char_head_ok; [reflexivity|].
  now apply replace_char_head_ok.
Qed.

Lemma escape_last_ok (x : str) : last_ok x = true -> last_ok (escape x) = true.
Proof.
  intros H. unfold escape.
  apply replace_char_last_ok; [reflexivity|].
  now apply replace_char_last_ok.
Qed.

Lemma escape_nl_free (x : str) : nl_free x -> nl_free (escape x).
Proof.
  unfold nl_free, escape. intros H Hin.
  apply replace_char_in in Hin as [Hin|Hin].
  - simpl in Hin. destruct Hin as [E|[E|[]]]; discriminate.
  - apply replace_char_in in Hin as [Hin|Hin]; [|tauto].
    simpl in Hin. destruct Hin as [E|[E|[]]]; discriminate.
Qed.

(** Escaping yields a string free of backslashes only when it changed
    nothing. *)
Lemma escape_no_backslash (x : str) : ~ In backslash (escape x) -> escape x = x.
Proof.
  unfold escape. intros H.
  destruct (replace_char_fixed_or_marked dquote [backslash; dquote]
              (replace_char squote [backslash; squote] x)) as [E|E].
  - rewrite E in *.
    destruct (replace_char_fixed_or_marked squote [backslash; squote] x) as [E'|E'].
    + exact E'.
    + exfalso. apply H, E'. now left.
  - exfalso. apply H, E. now left.
Qed.

Lemma strip_nl_free (x : str) : nl_free x -> nl_free (strip x).
Proof. unfold nl_free. intros H Hin. now apply strip_incl in Hin. Qed.

(** *** Framed lists of lines *)

Lemma framed_snoc (ls : list str) (x : str) :
  framed ls -> head_ok x = true -> last_ok x = true -> framed (ls ++ [x]).
Proof.
  intros F H1 H2. right. rewrite last_last. split; [|exact H2].
  destruct ls as [|y r]; [exact H1|].
  destruct F as [F|[F _]]; [discriminate|exact F].
Qed.

Lemma framed_block (ls b : list str) :
  framed ls -> framed (ls ++ [fence] ++ b ++ [fence]).
Proof.
  intros F. right. split.
  - destruct ls as [|y r]; [reflexivity|].
    destruct F as [F|[F _]]; [discriminate|exact F].
  - replace (ls ++ [fence] ++ b ++ [fence]) with ((ls ++ [fence] ++ b) ++ [fence])
      by now rewrite <- !app_assoc.
    now rewrite last_last.
Qed.

Lemma strip_join_framed (ls : list str) :
  framed ls -> strip (join [nl] ls) = join [nl] ls.
Proof.
  intros [->|[H1 H2]]; [reflexivity|].
  destruct ls as [|x r]; [discriminate|].
  apply strip_solid.
  - now apply head_ok_join.
  - apply last_ok_join; [discriminate|exact H2].
Qed.

Lemma fence_nl_free : nl_free fence.
Proof. unfold nl_free. simpl. intros [E|[E|[E|[]]]]; discriminate. Qed.

(** *** The invariant of the scan *)

Lemma reachable_initial : reachable initial.
Proof.
  constructor; simpl; [discriminate|now left|constructor|constructor].
Qed.

Lemma close_block_framed (st : Cleaner.state) :
  reachable st -> framed (close_block st) /\ Forall nl_free (close_block st).
Proof.
  intros [_ F N B]. unfold close_block.
  destruct (in_code_block st); [|tauto].
  destruct (truthy (code_block_content st)); [|tauto].
  split; [now apply framed_block|].
  repeat (apply Forall_app; split); try assumption;
    repeat constructor; apply fence_nl_free.
Qed.

Lemma reachable_step (st : Cleaner.state) (line : str) :
  nl_free line -> reachable st -> reachable (step st line).
Proof.
  intros Hl R. pose proof (strip_nl_free line Hl) as Hs.
  destruct (step_stepped st line); try exact R.
  - destruct R; constructor; assumption.
  - destruct R; constructor; assumption.
  - destruct (close_block_framed st R) as [F N].
    constructor; fields; try assumption; [discriminate|now repeat constructor].
  - destruct R as [_ F N B]. constructor; fields; try assumption.
    + intros _ E. now apply app_eq_nil in E as [_ E].
    + apply Forall_app. split; [assumption|now repeat constructor].
  - destruct R as [_ F N B]. constructor; fields; try assumption; [discriminate| |].
    + apply framed_snoc; [assumption|reflexivity|].
      change (s "*" ++ escape (strip (skipn 2 (strip line))) ++ s "*")
        with ((s "*" ++ escape (strip (skipn 2 (strip line)))) ++ s "*").
      now apply last_ok_app.
    + apply Forall_app. split; [assumption|]. repeat constructor.
      unfold nl_free. intros Hin. simpl in Hin. destruct Hin as [E|Hin]; [discriminate|].
      apply in_app_or in Hin as [Hin|[E|[]]]; [|discriminate].
      revert Hin. apply escape_nl_free, strip_nl_free.
      unfold nl_free. intros Hin. apply Hs.
      rewrite <- (firstn_skipn 2 (strip line)). apply in_or_app. now right.
  - destruct R as [_ F N B]. constructor; fields; try assumption; [discriminate| |].
    + destruct (strip_edges line) as [E1 E2]; [assumption|].
      apply framed_snoc; [assumption| |].
      * now apply escape_head_ok.
      * now apply escape_last_ok.
    + apply Forall_app. split; [assumption|]. repeat constructor.
      now apply escape_nl_free.
Qed.

Lemma reachable_scan_from (lines : list str) (st : Cleaner.state) :
  Forall nl_free lines -> reachable st -> reachable (scan_from st lines).
Proof.
  revert st. induction lines as [|l r IH]; intros st Hall R; [exact R|].
  inversion Hall; subst. rewrite scan_from_cons.
  apply IH; [assumption|]. now apply reachable_step.
Qed.

Lemma finish_framed (st : Cleaner.state) :
  reachable st -> framed (finish st) /\ Forall nl_free (finish st).
Proof.
  intros [_ F N B]. unfold finish.
  destruct (in_code_block st && truthy (code_block_content st)); [|tauto].
  split; [now apply framed_block|].
  repeat (apply Forall_app; split); try assumption;
    repeat constructor; apply fence_nl_free.
Qed.

Lemma tl_split_nl_free (x : str) : Forall nl_free (tl (split nl x)).
Proof.
  pose proof (split_sep_free nl x) as H.
  destruct (split nl x); [constructor|]. now inversion H.
Qed.

Lemma reachable_scan_doc (doc_output : str) :
  reachable (scan (tl (split nl doc_output))).
Proof.
  apply reachable_scan_from; [apply tl_split_nl_free|apply reachable_initial].
Qed.

(** *** The output, line by line *)

(** The final [strip] has nothing to remove: the output is the emitted
    lines joined by newlines. *)
Lemma clean_is_join (doc_output : str) :
  clean_go_doc_output doc_output = join [nl] (emitted_lines doc_output).
Proof.
  unfold clean_go_doc_output. destruct doc_output as [|c r]; [reflexivity|].
  cbn [truthy negb]. apply strip_join_framed.
  apply finish_framed, reachable_scan_doc.
Qed.

(** Read back as lines, a non-empty output is the list of emitted lines. *)
Lemma output_lines_clean (doc_output : str) :
  emitted_lines doc_output <> [] ->
  output_lines (clean_go_doc_output doc_output) = emitted_lines doc_output.
Proof.
  intros Hne. rewrite clean_is_join. unfold output_lines.
  apply split_join; [assumption|].
  apply finish_framed, reachable_scan_doc.
Qed.

Lemma output_lines_clean_empty (doc_output : str) :
  emitted_lines doc_output = [] ->
  output_lines (clean_go_doc_output doc_output) = [[]].
Proof.
  intros E. rewrite clean_is_join, E. reflexivity.
Qed.

(** *** Declaration lines *)

Lemma comment_not_declaration (x : str) :
  startswith (s "//") x = true -> is_declaration x = false.
Proof.
  intros H. change (s "//") with ["/"%char; "/"%char] in H.
  destruct x as [|a x]; [discriminate|].
  cbn [startswith] in H.
  destruct (ascii_dec "/" a) as [<-|]; [|discriminate].
  destruct x as [|b x]; [discriminate|].
  destruct (ascii_dec "/" b) as [<-|]; [|discriminate].
  reflexivity.
Qed.

Lemma divider_not_declaration (d : divider) : is_declaration (divider_text d) = false.
Proof. destruct d; reflexivity. Qed.

(** A declaration line always reaches the declaration test. *)
Lemma step_declaration (st : Cleaner.state) (line : str) :
  declares line = true ->
  step st line =
    Cleaner.mk_state (close_block st) true [strip line]
      (constants_removed st) (types_removed st).
Proof.
  unfold declares. intros D.
  destruct (step_stepped st line) as [_ E|E _|E _| | |_ C _| |]; try congruence.
  - rewrite E in D. discriminate.
  - rewrite E in D. discriminate.
  - rewrite E in D. discriminate.
  - apply comment_not_declaration in C. congruence.
Qed.

(** Any other line leaves an open block open and emits nothing outside it. *)
Lemma step_in_block (st : Cleaner.state) (line : str) :
  in_code_block st = true -> declares line = false ->
  in_code_block (step st line) = true /\
  cleaned_lines (step st line) = cleaned_lines st /\
  (code_block_content (step st line) = code_block_content st \/
   code_block_content (step st line) = code_block_content st ++ [strip line]).
Proof.
  unfold declares. intros B D.
  destruct (step_stepped st line); fields; try congruence; tauto.
Qed.


(** The block that is open in [st] with content [b] is emitted right after
    what [st] has emitted, whatever lines follow. *)
Lemma open_block_emitted (lines : list str) :
  forall (st : Cleaner.state) (b : list str),
    in_code_block st = true -> code_block_content st = b -> b <> [] ->
    exists rest,
      finish (scan_from st lines) = cleaned_lines st ++ [fence] ++ b ++ rest.
Proof.
  induction lines as [|l r IH]; intros st b B C Hne.
  - exists [fence]. unfold scan_from, finish. simpl fold_left.
    rewrite B, C. destruct b; [congruence|reflexivity].
  - rewrite scan_from_cons.
    destruct (is_declaration (strip l)) eqn:D.
    + rewrite (step_declaration st l D).
      edestruct (IH (Cleaner.mk_state (close_block st) true [strip l]
                       (constants_removed st) (types_removed st)) [strip l])
        as [rest E]; [reflexivity|reflexivity|discriminate|].
      rewrite E. fields. unfold close_block. rewrite B, C.
      destruct b as [|x b]; [congruence|]. cbn [truthy].
      exists ([fence] ++ [fence] ++ [strip l] ++ rest).
      now rewrite <- !app_assoc.
    + destruct (step_in_block st l B D) as [B' [C' [K|K]]].
      * destruct (IH (step st l) b B') as [rest E]; [congruence|assumption|].
        rewrite E, C'. now exists rest.
      * destruct (IH (step st l) (b ++ [strip l]) B') as [rest E];
          [congruence|now destruct b|].
        rewrite E, C'. exists ([strip l] ++ rest). now rewrite <- !app_assoc.
Qed.

(** Whether a block is open after the scan: one was open before, or some
    line is a declaration. *)
Lemma in_code_block_scan (lines : list str) (st : Cleaner.state) :
  in_code_block (scan_from st lines) = in_code_block st || existsb declares lines.
Proof.
  revert st. induction lines as [|l r IH]; intros st.
  - simpl. now rewrite orb_false_r.
  - rewrite scan_from_cons, IH. cbn [existsb].
    destruct (declares l) eqn:D.
    + rewrite (step_declaration st l D). fields. now rewrite orb_true_r.
    + destruct (in_code_block st) eqn:B.
      * now destruct (step_in_block st l B D) as [-> _].
      * f_equal. unfold declares in D.
        destruct (step_stepped st l); fields; congruence.
Qed.

(** *** Counting divider lines *)

Lemma occ_app (t : str) (a b : list str) : occ t (a ++ b) = occ t a + occ t b.
Proof. unfold occ. now rewrite filter_app, length_app. Qed.

Lemma occ_one (t x : str) : occ t [x] = if str_eqb t x then 1 else 0.
Proof. unfold occ. simpl. now destruct (str_eqb t x). Qed.

Lemma occ_one_neq (t x : str) : x <> t -> occ t [x] = 0.
Proof.
  intros H. rewrite occ_one.
  destruct (str_eqb t x) eqn:E; [|reflexivity].
  apply str_eqb_eq in E. congruence.
Qed.

Lemma occ_stripped_cons (t l : str) (r : list str) :
  occ_stripped t (l :: r) = (if str_eqb t (strip l) then 1 else 0) + occ_stripped t r.
Proof.
  unfold occ_stripped. cbn [map].
  change (strip l :: map strip r) with ([strip l] ++ map strip r).
  now rewrite occ_app, occ_one.
Qed.

Lemma occ_fence (d : divider) : occ (divider_text d) [fence] = 0.
Proof. destruct d; reflexivity. Qed.

Lemma occ_finish (d : divider) (st : Cleaner.state) :
  occ (divider_text d) (finish st) = held (divider_text d) st.
Proof.
  unfold finish, held. destruct (in_code_block st); cbn [andb]; [|lia].
  destruct (code_block_content st) as [|x b]; cbn [truthy];
    [change (occ (divider_text d) []) with 0; lia|].
  rewrite !occ_app, !occ_fence. lia.
Qed.

Lemma occ_close_block (d : divider) (st : Cleaner.state) :
  occ (divider_text d) (close_block st) = held (divider_text d) st.
Proof.
  unfold close_block, held. destruct (in_code_block st); [|lia].
  destruct (code_block_content st) as [|x b]; cbn [truthy];
    [change (occ (divider_text d) []) with 0; lia|].
  rewrite !occ_app, !occ_fence. lia.
Qed.

Lemma escape_divider (d : divider) : escape (divider_text d) = divider_text d.
Proof. destruct d; reflexivity. Qed.

Lemma escape_eq_divider (d : divider) (x : str) :
  escape x = divider_text d -> x = divider_text d.
Proof.
  intros E. rewrite <- E. symmetry. apply escape_no_backslash.
  rewrite E. destruct d; simpl; intros H;
    repeat (destruct H as [H|H]; [discriminate|]); exact H.
Qed.

(** The first line that is a divider once stripped only sets the flag. *)
Lemma step_divider_first (d : divider) (st : Cleaner.state) (line : str) :
  strip line = divider_text d -> removed d st = false ->
  step st line = mark_removed d st.
Proof.
  intros E F.
  destruct (step_stepped st line)
    as [_ E'|E' _|E' _|D _|_ _ K|_ C _|_ _ _ _ K|_ _ N].
  - rewrite E in E'. destruct d; discriminate.
  - rewrite E in E'. destruct d; [reflexivity|discriminate].
  - rewrite E in E'. destruct d; [discriminate|reflexivity].
  - rewrite E, divider_not_declaration in D. discriminate.
  - rewrite (K d E) in F. discriminate.
  - rewrite E in C. destruct d; discriminate.
  - rewrite (K d E) in F. discriminate.
  - destruct (N d E).
Qed.

(** A later one is kept: it joins the open block or is emitted as text. *)
Lemma step_divider_later (d : divider) (st : Cleaner.state) (line : str) :
  strip line = divider_text d -> removed d st = true ->
  held (divider_text d) (step st line) = S (held (divider_text d) st) /\
  removed d (step st line) = true.
Proof.
  intros E F.
  destruct (step_stepped st line)
    as [_ E'|E' F'|E' F'|D _|B _ _|_ C _|B _ _ _ _|_ _ N].
  - rewrite E in E'. destruct d; discriminate.
  - rewrite E in E'. destruct d; [simpl in F; congruence|discriminate].
  - rewrite E in E'. destruct d; [discriminate|simpl in F; congruence].
  - rewrite E, divider_not_declaration in D. discriminate.
  - split; [|now destruct d]. unfold held. fields.
    rewrite B, occ_app, E, occ_one, str_eqb_refl. lia.
  - rewrite E in C. destruct d; discriminate.
  - split; [|now destruct d]. unfold held. fields.
    rewrite B, occ_app, E, escape_divider, occ_one, str_eqb_refl. lia.
  - destruct (N d E).
Qed.

(** A line that is not the divider changes neither its count nor its flag. *)
Lemma step_other (d : divider) (st : Cleaner.state) (line : str) :
  strip line <> divider_text d ->
  held (divider_text d) (step st line) = held (divider_text d) st /\
  removed d (step st line) = removed d st.
Proof.
  intros E.
  destruct (step_stepped st line)
    as [_ E'|E' F'|E' F'|D _|B _ _|B C _|B _ _ _ _|_ _ N].
  - tauto.
  - split; [reflexivity|]. destruct d; [contradiction|reflexivity].
  - split; [reflexivity|]. destruct d; [reflexivity|contradiction].
  - split; [|now destruct d]. unfold held at 1. fields.
    rewrite occ_close_block, occ_one_neq by assumption. lia.
  - split; [|now destruct d]. unfold held. fields.
    rewrite B, occ_app, occ_one_neq by assumption. lia.
  - split; [|now destruct d]. unfold held. fields.
    rewrite B, occ_app, occ_one_neq; [lia|].
    destruct d; discriminate.
  - split; [|now destruct d]. unfold held. fields.
    rewrite B, occ_app, occ_one_neq; [lia|].
    intros E'. now apply escape_eq_divider in E'.
  - tauto.
Qed.

(** After a scan: every divider line but the first is held. *)
Lemma held_scan_from (d : divider) (lines : list str) (st : Cleaner.state) :
  held (divider_text d) (scan_from st lines)
  = held (divider_text d) st
    + (if removed d st then occ_stripped (divider_text d) lines
       else pred (occ_stripped (divider_text d) lines)).
Proof.
  revert st. induction lines as [|l r IH]; intros st.
  - simpl. unfold occ_stripped, occ. simpl. destruct (removed d st); lia.
  - rewrite scan_from_cons, IH, occ_stripped_cons.
    destruct (str_eqb (divider_text d) (strip l)) eqn:E.
    + apply str_eqb_eq in E. symmetry in E.
      destruct (removed d st) eqn:F.
      * destruct (step_divider_later d st l E F) as [-> ->]. lia.
      * rewrite (step_divider_first d st l E F).
        replace (removed d (mark_removed d st)) with true by now destruct d.
        replace (held (divider_text d) (mark_removed d st))
          with (held (divider_text d) st) by now destruct d.
        simpl. lia.
    + apply str_eqb_neq in E.
      destruct (step_other d st l) as [-> ->]; [congruence|]. reflexivity.
Qed.

Lemma removed_scan_from (d : divider) (lines : list str) (st : Cleaner.state) :
  occ_stripped (divider_text d) lines = 0 ->
  removed d (scan_from st lines) = removed d st.
Proof.
  revert st. induction lines as [|l r IH]; intros st; [reflexivity|].
  rewrite occ_stripped_cons, scan_from_cons.
  destruct (str_eqb (divider_text d) (strip l)) eqn:E; [discriminate|].
  intros H. apply str_eqb_neq in E. rewrite IH by exact H.
  destruct (step_other d st l) as [_ ->]; [congruence|]. reflexivity.
Qed.

End CleanerFacts.

(** ** The doc-output cleaner: the claims *)

Section CleanerClaims.

Lemma nl_free_check (x : str) :
  forallb (fun c => negb (Ascii.eqb c nl)) x = true -> nl_free x.
Proof.
  unfold nl_free. intros H Hin.
  rewrite forallb_forall in H. specialize (H nl Hin).
  now rewrite Ascii.eqb_refl in H.
Qed.

Lemma startswith_app (p x : str) : startswith p (p ++ x) = true.
Proof.
  induction p as [|a p IH]; [reflexivity|]. simpl.
  destruct (ascii_dec a a); [exact IH|congruence].
Qed.

Lemma endswith_app (p x : str) : endswith p (x ++ p) = true.
Proof. unfold endswith. rewrite rev_app_distr. apply startswith_app. Qed.

Lemma join_snoc (sep : str) (xs : list str) (y : str) :
  exists pre, join sep (xs ++ [y]) = pre ++ y.
Proof.
  induction xs as [|x r [pre E]].
  - now exists [].
  - cbn [app]. rewrite join_cons by now destruct r.
    rewrite E. exists (x ++ sep ++ pre). now rewrite <- !app_assoc.
Qed.

Lemma emitted_lines_after_first (first rest : str) :
  nl_free first -> emitted_lines (first ++ nl :: rest) = finish (scan (split nl rest)).
Proof.
  intros H. unfold emitted_lines. now rewrite split_app_sep.
Qed.

(** C10: the cleaner drops the first line of a non-empty input whatever it
    holds: the lines it scans are those after the first newline, so the
    output is the one of the input with an empty first line, and an input of
    one line gives the empty output. *)
Theorem first_line_discarded (first rest : str) :
  nl_free first ->
  emitted_lines (first ++ nl :: rest) = finish (scan (split nl rest)) /\
  clean_go_doc_output (first ++ nl :: rest) = clean_go_doc_output (nl :: rest) /\
  clean_go_doc_output first = [].
Proof.
  intros H. split; [now apply emitted_lines_after_first|]. split.
  - rewrite !clean_is_join. f_equal.
    rewrite emitted_lines_after_first by assumption.
    symmetry. apply (emitted_lines_after_first [] rest). intros [].
  - rewrite clean_is_join. unfold emitted_lines.
    now rewrite split_no_sep.
Qed.

Lemma first_line_discarded_witness :
  nl_free (s "func Get() error") /\
  (emitted_lines (s "func Get() error" ++ nl :: s "func Put() error")
     = finish (scan (split nl (s "func Put() error"))) /\
   clean_go_doc_output (s "func Get() error" ++ nl :: s "func Put() error")
     = clean_go_doc_output (nl :: s "func Put() error") /\
   clean_go_doc_output (s "func Get() error") = []).
Proof.
  assert (H : nl_free (s "func Get() error")) by (apply nl_free_check; reflexivity).
  split; [exact H|].
  exact (first_line_discarded (s "func Get() error") (s "func Put() error") H).
Defined.

(** C8: when a code block is open once the last line is scanned, the output
    is what was emitted before the block, the opening fence, the lines of
    the block, which are at least one, and the closing fence as the last
    line of the output.  So it is when the last line is a declaration line:
    the output then ends with the opening fence, the stripped declaration
    and the closing fence. *)
Theorem open_block_closed_at_end (doc_output : str) :
  in_code_block (scan (tl (split nl doc_output))) = true ->
  code_block_content (scan (tl (split nl doc_output))) <> [] /\
  output_lines (clean_go_doc_output doc_output)
  = cleaned_lines (scan (tl (split nl doc_output))) ++ [fence]
    ++ code_block_content (scan (tl (split nl doc_output))) ++ [fence] /\
  last (output_lines (clean_go_doc_output doc_output)) [] = fence /\
  endswith fence (clean_go_doc_output doc_output) = true /\
  (forall before d,
     tl (split nl doc_output) = before ++ [d] -> declares d = true ->
     output_lines (clean_go_doc_output doc_output)
     = close_block (scan before) ++ [fence; strip d; fence]).
Proof.
  intros B.
  pose proof (block_not_empty _ (reachable_scan_doc doc_output) B) as Hne.
  assert (E : emitted_lines doc_output
              = (cleaned_lines (scan (tl (split nl doc_output))) ++ [fence]
                 ++ code_block_content (scan (tl (split nl doc_output)))) ++ [fence]).
  { unfold emitted_lines, finish. rewrite B.
    destruct (code_block_content (scan (tl (split nl doc_output)))); [congruence|].
    cbn [truthy andb]. now rewrite <- !app_assoc. }
  assert (O : output_lines (clean_go_doc_output doc_output) = emitted_lines doc_output).
  { apply output_lines_clean. rewrite E. intros H. now apply app_eq_nil in H as [_ H]. }
  split; [exact Hne|]. split; [|split; [|split]].
  - rewrite O, E. now rewrite <- !app_assoc.
  - rewrite O, E. apply last_last.
  - rewrite clean_is_join, E.
    destruct (join_snoc [nl]
                (cleaned_lines (scan (tl (split nl doc_output))) ++ [fence]
                 ++ code_block_content (scan (tl (split nl doc_output)))) fence)
      as [pre ->].
    apply endswith_app.
  - intros before d L D. rewrite O. unfold emitted_lines. rewrite L.
    unfold scan. rewrite scan_from_app. fold (scan before).
    unfold scan_from. cbn [fold_left]. rewrite (step_declaration _ _ D).
    unfold finish. fields. reflexivity.
Qed.

Lemma open_block_closed_at_end_witness :
  let doc := text ["package client"; "Package client."; "func New() *Client"] in
  in_code_block (scan (tl (split nl doc))) = true /\
  output_lines (clean_go_doc_output doc)
  = [s "Package client."; fence; s "func New() *Client"; fence] /\
  last (output_lines (clean_go_doc_output doc)) [] = fence /\
  endswith fence (clean_go_doc_output doc) = true.
Proof.
  intros doc.
  assert (H : in_code_block (scan (tl (split nl doc))) = true) by reflexivity.
  destruct (open_block_closed_at_end doc H) as [_ [H1 [H2 [H3 _]]]].
  split; [exact H|]. split; [exact H1|]. split; [exact H2|exact H3].
Defined.

(** C5, as stated, fails: when the first line of the input is one of the two
    [CONSTANTS] lines, the first-line rule drops it and the divider rule
    drops the other, so none is left. *)
Lemma divider_twice_none_retained :
  occ (s "CONSTANTS") (split nl (text ["CONSTANTS"; "CONSTANTS"])) = 2 /\
  clean_go_doc_output (text ["CONSTANTS"; "CONSTANTS"]) = [] /\
  occ (s "CONSTANTS") (output_lines (clean_go_doc_output (text ["CONSTANTS"; "CONSTANTS"]))) = 0.
Proof. repeat split. Qed.

(** C5, amended: among the lines after the first, compared once stripped,
    the first [CONSTANTS] line and the first [TYPES] line are dropped and
    every later one is kept, so the output has one such line less than the
    input has after its first line (exactly one when the input has two); the
    dropped line only sets the flag of its divider. *)
Theorem dividers_removed_once (d : divider) (doc_output : str) :
  occ (divider_text d) (output_lines (clean_go_doc_output doc_output))
    = pred (occ_stripped (divider_text d) (tl (split nl doc_output))) /\
  (forall (pre : list str) (line : str),
     occ_stripped (divider_text d) pre = 0 -> strip line = divider_text d ->
     scan (pre ++ [line]) = mark_removed d (scan pre)).
Proof.
  split.
  - assert (E : occ (divider_text d) (output_lines (clean_go_doc_output doc_output))
                = occ (divider_text d) (emitted_lines doc_output)).
    { destruct (emitted_lines doc_output) as [|x r] eqn:El.
      - rewrite output_lines_clean_empty by assumption. now destruct d.
      - rewrite output_lines_clean; [now rewrite El|]. rewrite El. discriminate. }
    rewrite E. unfold emitted_lines, scan.
    rewrite occ_finish, held_scan_from. now destruct d.
  - intros pre line Hpre Hline. unfold scan.
    rewrite scan_from_app. cbn [scan_from fold_left].
    apply step_divider_first; [assumption|].
    change (fold_left step pre initial) with (scan_from initial pre).
    rewrite removed_scan_from by assumption. now destruct d.
Qed.

Lemma dividers_removed_once_witness :
  let doc_output :=
    text ["package compute"; "CONSTANTS"; "const A = 1"; "  CONSTANTS"; "TYPES"] in
  occ_stripped (s "CONSTANTS") (tl (split nl doc_output)) = 2 /\
  occ (s "CONSTANTS") (output_lines (clean_go_doc_output doc_output)) = 1 /\
  occ_stripped (s "CONSTANTS") [s "Package compute"] = 0 /\
  strip (s "  CONSTANTS ") = s "CONSTANTS" /\
  scan ([s "Package compute"] ++ [s "  CONSTANTS "])
    = mark_removed CONSTANTS (scan [s "Package compute"]).
Proof.
  intros doc_output.
  destruct (dividers_removed_once CONSTANTS doc_output) as [H1 H2].
  split; [reflexivity|]. split; [exact H1|].
  split; [reflexivity|]. split; [reflexivity|].
  apply H2; reflexivity.
Defined.

(** C1, as stated, fails: two consecutive declaration lines end up in two
    fenced blocks, never in one. *)
Lemma consecutive_declarations_not_same_block :
  let out := clean_go_doc_output (text ["package client"; "func A()"; "func B()"]) in
  declares (s "func A()") = true /\ declares (s "func B()") = true /\
  out = text ["```"; "func A()"; "```"; "```"; "func B()"; "```"] /\
  same_block (s "func A()") (s "func B()") out = false.
Proof. repeat split. Qed.

(** C1, amended: a declaration line always opens a fenced block of its own.
    Of two consecutive declaration lines the first is emitted alone between
    two fences, and a new fence opens right after with the second line. *)
Theorem consecutive_declarations_separate_blocks
    (doc_output : str) (pre : list str) (d1 d2 : str) (post : list str) :
  tl (split nl doc_output) = pre ++ d1 :: d2 :: post ->
  declares d1 = true -> declares d2 = true ->
  exists before after,
    output_lines (clean_go_doc_output doc_output)
      = before ++ [fence; strip d1; fence; fence; strip d2] ++ after.
Proof.
  intros Hl D1 D2.
  assert (E : exists rest,
             emitted_lines doc_output
             = close_block (scan pre)
                 ++ [fence; strip d1; fence; fence; strip d2] ++ rest).
  { unfold emitted_lines. rewrite Hl. unfold scan.
    rewrite scan_from_app, !scan_from_cons.
    rewrite (step_declaration _ d1 D1), (step_declaration _ d2 D2).
    edestruct (open_block_emitted post) as [rest ->];
      [reflexivity|reflexivity|discriminate|].
    exists rest. fields. unfold close_block at 1. fields. cbn [truthy].
    now rewrite <- !app_assoc. }
  destruct E as [rest E].
  exists (close_block (scan pre)), rest.
  rewrite output_lines_clean; [exact E|].
  rewrite E. intros H. apply app_eq_nil in H as [_ H]. discriminate.
Qed.

Lemma consecutive_declarations_separate_blocks_witness :
  let doc_output := text ["package client"; "Package client."; "func A()"; "func B()"; ""] in
  tl (split nl doc_output) = [s "Package client."] ++ s "func A()" :: s "func B()" :: [[]] /\
  declares (s "func A()") = true /\ declares (s "func B()") = true /\
  exists before after,
    output_lines (clean_go_doc_output doc_output)
      = before ++ [fence; strip (s "func A()"); fence; fence; strip (s "func B()")] ++ after.
Proof.
  intros doc_output.
  assert (H : tl (split nl doc_output)
              = [s "Package client."] ++ s "func A()" :: s "func B()" :: [[]])
    by reflexivity.
  split; [exact H|]. split; [reflexivity|]. split; [reflexivity|].
  exact (consecutive_declarations_separate_blocks doc_output _ _ _ _ H eq_refl eq_refl).
Defined.





End CleanerClaims.

(** ** The README sectionizer and the page writer: the claims *)

Section ReadmeClaims.

Import Readme.

Lemma buffer_after_from_last_h1 (lines : list str) :
  forall buf,
    buffer_after buf lines
    = if existsb is_h1 lines then from_last_h1 lines else buf ++ lines.
Proof.
  induction lines as [|l r IH]; intros buf.
  - simpl. now rewrite app_nil_r.
  - unfold buffer_after in *. cbn [fold_left existsb from_last_h1]. rewrite IH.
    destruct (existsb is_h1 r); [now rewrite orb_true_r|].
    rewrite orb_false_r. destruct (is_h1 l); [reflexivity|].
    now rewrite <- app_assoc.
Qed.

Lemma from_last_h1_none (lines : list str) :
  existsb is_h1 lines = false -> from_last_h1 lines = lines.
Proof.
  destruct lines as [|l r]; [reflexivity|]. cbn [existsb from_last_h1].
  intros H. apply orb_false_elim in H as [_ ->]. reflexivity.
Qed.

(** Without level-2 headings the loop only ever fills "introduction". *)
Lemma step_introduction (buf : list str) (line : str) (d : dict (list str)) :
  is_h2 line = false ->
  d = [] \/ d = [(introduction, buf)] ->
  Readme.step (Readme.mk_state d introduction) line
  = Readme.mk_state
      [(introduction, if is_h1 line then [line] else (if truthy d then buf else []) ++ [line])]
      introduction.
Proof.
  unfold is_h2, is_h1. intros H2 Hd. unfold Readme.step. rewrite H2.
  cbn [Readme.sections Readme.current_section].
  destruct (startswith (s "# ") line).
  - destruct Hd as [->| ->]; reflexivity.
  - destruct Hd as [->| ->]; reflexivity.
Qed.

Lemma fold_introduction (lines : list str) :
  forall buf d,
    existsb is_h2 lines = false ->
    d = [] \/ d = [(introduction, buf)] ->
    lines <> [] ->
    fold_left Readme.step lines (Readme.mk_state d introduction)
    = Readme.mk_state
        [(introduction, buffer_after (if truthy d then buf else []) lines)]
        introduction.
Proof.
  induction lines as [|l r IH]; intros buf d H2 Hd Hne; [congruence|].
  cbn [existsb] in H2. apply orb_false_elim in H2 as [Hl Hr].
  cbn [fold_left]. rewrite (step_introduction buf l d Hl Hd).
  destruct r as [|l' r].
  - reflexivity.
  - rewrite (IH (if is_h1 l then [l] else (if truthy d then buf else []) ++ [l]));
      [reflexivity|assumption|now right|discriminate].
Qed.

(** C4, as stated, fails: a level-1 heading after other lines resets the
    "introduction" section, so the lines before it are lost. *)
Lemma introduction_loses_lines_before_heading :
  let content := text ["badges"; "# Title"; "body"] in
  existsb is_h2 (split nl content) = false /\
  readme_sections content = [(introduction, text ["# Title"; "body"])] /\
  readme_sections content <> [(introduction, strip content)].
Proof. repeat split. discriminate. Qed.

(** C4, amended: for a README without a level-2 heading the mapping has the
    single section "introduction"; it holds the joined, stripped lines from
    the last level-1 heading on, which is the entire content when no line
    after the first is a level-1 heading. *)
Theorem no_level2_heading_single_introduction (content : str) :
  existsb is_h2 (split nl content) = false ->
  extract_readme_content (Some content)
    = ret [(introduction, strip (join [nl] (from_last_h1 (split nl content))))] /\
  (existsb is_h1 (tl (split nl content)) = false ->
   extract_readme_content (Some content) = ret [(introduction, strip content)]).
Proof.
  intros H2.
  assert (E : extract_readme_content (Some content)
              = ret [(introduction, strip (join [nl] (from_last_h1 (split nl content))))]).
  { unfold extract_readme_content, readme_sections, Readme.initial. cbv zeta.
    rewrite (fold_introduction _ [] [] H2); [|now left|apply split_not_nil].
    cbn [truthy Readme.sections]. rewrite buffer_after_from_last_h1.
    destruct (existsb is_h1 (split nl content)) eqn:H1; [reflexivity|].
    now rewrite (from_last_h1_none _ H1). }
  split; [exact E|].
  intros H1. rewrite E. do 3 f_equal.
  rewrite <- (join_split nl content) at 2. f_equal.
  pose proof (split_not_nil nl content) as Hne.
  destruct (split nl content) as [|l r]; [congruence|].
  cbn [tl] in H1. cbn [from_last_h1]. now rewrite H1.
Qed.

Lemma no_level2_heading_single_introduction_witness :
  let content := text ["# MGC SDK"; ""; "The SDK."; "### Note"; ""] in
  existsb is_h2 (split nl content) = false /\
  extract_readme_content (Some content)
    = ret [(introduction, strip (join [nl] (from_last_h1 (split nl content))))] /\
  existsb is_h1 (tl (split nl content)) = false /\
  extract_readme_content (Some content) = ret [(introduction, strip content)].
Proof.
  intros content.
  assert (H2 : existsb is_h2 (split nl content) = false) by reflexivity.
  assert (H1 : existsb is_h1 (tl (split nl content)) = false) by reflexivity.
  destruct (no_level2_heading_single_introduction content H2) as [E1 E2].
  split; [exact H2|]. split; [exact E1|]. split; [exact H1|]. exact (E2 H1).
Defined.

End ReadmeClaims.

Section PageWriterClaims.

Import Readme.

(** C3, as stated, fails: the table of output files has no entry for a
    section named "usage" (only "usage-examples" is mapped to [usage.md]), so
    the third section of the example is not written. *)
Lemma usage_section_not_written :
  let sections :=
    readme_sections
      (text ["# Title"; "## Installation"; "run this"; "## Usage"; "do that"]) in
  dict_get (s "usage") sections = Some (s "do that") /\
  dict_get (s "usage") section_files = None /\
  exists files out,
    create_markdown_files sections [] = (Returned files, out) /\
    map fst files = [s "introduction.md"; s "installation.md"] /\
    dict_get (s "usage.md") files = None.
Proof.
  split; [reflexivity|]. split; [reflexivity|].
  eexists. eexists. split; [reflexivity|]. split; reflexivity.
Qed.

(** C3, amended: for the README of the example the sectionizer produces
    exactly the three sections "introduction" (the title line),
    "installation" ("run this") and "usage" ("do that"); the page writer
    writes the first two to [introduction.md] and [installation.md], each
    with a front matter and a heading that carry the titleized section name,
    and writes no file for "usage", which the table of output files does not
    list. *)
Theorem readme_example_pages (source_dir : dict str) :
  let sections :=
    readme_sections
      (text ["# Title"; "## Installation"; "run this"; "## Usage"; "do that"]) in
  sections = [(s "introduction", s "# Title");
              (s "installation", s "run this");
              (s "usage", s "do that")] /\
  extract_readme_content
    (Some (text ["# Title"; "## Installation"; "run this"; "## Usage"; "do that"]))
    = ret sections /\
  create_markdown_files sections source_dir
    = (Returned
         (dict_set (s "installation.md")
            (text ["---"; "title: Installation"; "---"; "";
                   "# Installation"; ""; "run this"; ""])
            (dict_set (s "introduction.md")
               (text ["---"; "title: Introduction"; "---"; "";
                      "# Introduction"; ""; "# Title"; ""])
               source_dir)),
       [info (s "Creating Markdown files...");
        ok (s "Created introduction.md");
        ok (s "Created installation.md")]) /\
  dict_get (s "usage") section_files = None.
Proof. repeat split. Qed.

End PageWriterClaims.

(** ** The version resolver: the claims *)

Section VersionClaims.

Import Version.

Lemma rstrip_prefix (x : str) :
  exists ws, x = rstrip x ++ ws /\ forallb is_space ws = true.
Proof.
  destruct (lstrip_suffix (rev x)) as [ws [E W]].
  exists (rev ws). split.
  - unfold rstrip. rewrite <- rev_app_distr, <- E. symmetry. apply rev_involutive.
  - rewrite forallb_forall in *. intros c Hc. apply W. now apply in_rev.
Qed.

(** Stripping keeps a first character that is not whitespace. *)
Lemma strip_keeps_head (c : ascii) (r : str) :
  is_space c = false -> exists r', strip (c :: r) = c :: r'.
Proof.
  intros Hc. destruct (rstrip_prefix (c :: r)) as [ws [E W]].
  unfold strip. destruct (rstrip (c :: r)) as [|c' r'].
  - simpl in E. subst ws. simpl in W. now rewrite Hc in W.
  - simpl in E. injection E as <- _. exists r'. simpl. now rewrite Hc.
Qed.

(** C6, as stated, fails: outside Read the Docs the resolver does not read
    VERSION at all; the version comes from [git describe --tags]. *)
Lemma version_ignored_outside_readthedocs :
  let env := [(s "VERSION", s "v1.2.3")] in
  let git := Returned (mk_completed 0 (text ["v0.9.0"; ""])) in
  is_readthedocs env = false /\
  fst (get_project_version env git) = Returned (s "0.9.0") /\
  fst (get_project_version env git) <> Returned (s "1.2.3").
Proof. repeat split. discriminate. Qed.

(** C6, amended: on Read the Docs (READTHEDOCS is "True"), for every VERSION
    value that starts with the character v, the resolver returns the
    stripped value without its leading v.  Elsewhere VERSION is not read:
    the result is the same for every environment. *)
Theorem version_prefix_stripped_on_readthedocs
    (env : environ) (git : result completed) (v : str) :
  (is_readthedocs env = true ->
   dict_get (s "VERSION") env = Some v -> startswith (s "v") v = true ->
   get_project_version env git
   = (Returned (skipn 1 (strip v)),
      [ok (s "Captured project version from VERSION env: " ++ skipn 1 (strip v))])) /\
  (is_readthedocs env = false ->
   get_project_version env git = get_project_version [] git).
Proof.
  split.
  - intros R E V. unfold get_project_version. rewrite R, E. cbn [negb].
    destruct v as [|c r]; [discriminate|].
    change (s "v") with ["v"%char] in V. cbn [startswith] in V.
    destruct (ascii_dec "v" c) as [<-|]; [|discriminate].
    destruct (strip_keeps_head "v" r) as [r' Hs]; [reflexivity|].
    assert (L : str_eqb ("v"%char :: r) (s "latest") = false)
      by (apply str_eqb_neq; discriminate).
    assert (S : str_eqb ("v"%char :: r) (s "stable") = false)
      by (apply str_eqb_neq; discriminate).
    cbn [falsy truthy negb andb]. rewrite L, S.
    cbn [orb ret bind]. rewrite Hs. reflexivity.
  - intros R. unfold get_project_version. rewrite R. reflexivity.
Qed.

Lemma version_prefix_stripped_on_readthedocs_witness :
  let env := [(s "READTHEDOCS", s "True"); (s "VERSION", s "v1.2.3 ")] in
  let git := Raised TimeoutExpired in
  (is_readthedocs env = true /\
   dict_get (s "VERSION") env = Some (s "v1.2.3 ") /\
   startswith (s "v") (s "v1.2.3 ") = true /\
   get_project_version env git
   = (Returned (s "1.2.3"), [ok (s "Captured project version from VERSION env: 1.2.3")])) /\
  (is_readthedocs [(s "VERSION", s "v1.2.3 ")] = false /\
   get_project_version [(s "VERSION", s "v1.2.3 ")] git = get_project_version [] git).
Proof.
  intros env git. split.
  - split; [reflexivity|]. split; [reflexivity|]. split; [reflexivity|].
    exact (proj1 (version_prefix_stripped_on_readthedocs env git (s "v1.2.3 "))
             eq_refl eq_refl eq_refl).
  - split; [reflexivity|].
    exact (proj2 (version_prefix_stripped_on_readthedocs
                    [(s "VERSION", s "v1.2.3 ")] git (s "v1.2.3 ")) eq_refl).
Defined.

End VersionClaims.

(** ** The external-doc fetcher *)

Section GoDocClaims.

Import GoDoc.

(** The fetcher catches everything: it always returns. *)
Lemma get_go_doc_returns (w : world) (module_name : str) :
  exists doc out, get_go_doc_for_package w module_name = (Returned doc, out).
Proof.
  unfold get_go_doc_for_package, os_chdir, subprocess_run.
  destruct (chdir_project_root w) as [[]|[|what]];
    [|eexists; eexists; reflexivity..].
  destruct (go_doc_all w module_name) as [c|[|what]];
    [|eexists; eexists; reflexivity..].
  destruct (chdir_original_cwd w) as [[]|[|what]];
    [|eexists; eexists; reflexivity..].
  cbn [bind try_except].
  destruct (Z.eqb (returncode c) 0 && truthy (strip (stdout c)));
    eexists; eexists; reflexivity.
Qed.

(** What the fetcher logs are warnings, at most one. *)
Lemma get_go_doc_warns (w : world) (module_name : str) :
  exists doc out,
    get_go_doc_for_package w module_name = (Returned doc, out) /\
    Forall (fun x => entry_level x = Warning) out.
Proof.
  unfold get_go_doc_for_package, os_chdir, subprocess_run.
  destruct (chdir_project_root w) as [[]|[|what]];
    [|eexists; eexists; split; [reflexivity|repeat constructor]..].
  destruct (go_doc_all w module_name) as [c|[|what]];
    [|eexists; eexists; split; [reflexivity|repeat constructor]..].
  destruct (chdir_original_cwd w) as [[]|[|what]];
    [|eexists; eexists; split; [reflexivity|repeat constructor]..].
  cbn [bind try_except].
  destruct (Z.eqb (returncode c) 0 && truthy (strip (stdout c)));
    eexists; eexists; split; [reflexivity|repeat constructor..].
Qed.

Lemma get_go_doc_failed (w : world) (module_name : str) :
  failed (go_doc_all w module_name) ->
  exists msg, get_go_doc_for_package w module_name = (Returned [], [warn msg]).
Proof.
  unfold get_go_doc_for_package, os_chdir, subprocess_run. intros F.
  destruct (chdir_project_root w) as [[]|[|what]];
    [|eexists; reflexivity..].
  destruct (go_doc_all w module_name) as [c|[|what]];
    [|eexists; reflexivity..].
  simpl in F. apply Z.eqb_neq in F.
  destruct (chdir_original_cwd w) as [[]|[|what]];
    [|eexists; reflexivity..].
  cbn [bind try_except]. rewrite F. eexists. reflexivity.
Qed.

End GoDocClaims.

(** ** The output scaffolder: the claims *)

Section ScaffoldClaims.

Import Scaffold.

(** *** Directory listings *)

Lemma dict_get_set_same {V} (k : str) (v : V) (d : dict V) :
  dict_get k (dict_set k v d) = Some v.
Proof.
  induction d as [|[k' v'] r IH]; simpl.
  - now rewrite str_eqb_refl.
  - destruct (str_eqb k k') eqn:E; simpl; now rewrite E.
Qed.

Lemma dict_set_set {V} (k : str) (v v' : V) (d : dict V) :
  dict_set k v (dict_set k v' d) = dict_set k v d.
Proof.
  induction d as [|[k' w] r IH]; simpl.
  - now rewrite str_eqb_refl.
  - destruct (str_eqb k k') eqn:E; simpl; rewrite E; [reflexivity|now rewrite IH].
Qed.

Lemma dict_set_get {V} (k : str) (v : V) (d : dict V) :
  dict_get k d = Some v -> dict_set k v d = d.
Proof.
  induction d as [|[k' w] r IH]; simpl; [discriminate|].
  destruct (str_eqb k k') eqn:E.
  - intros H. injection H as ->. reflexivity.
  - intros H. now rewrite IH.
Qed.

Lemma dict_remove_set {V} (k : str) (v : V) (d : dict V) :
  dict_remove k (dict_set k v d) = dict_remove k d.
Proof.
  induction d as [|[k' w] r IH]; simpl.
  - now rewrite str_eqb_refl.
  - destruct (str_eqb k k') eqn:E; simpl; rewrite E; [reflexivity|now rewrite IH].
Qed.

Lemma dict_remove_idem {V} (k : str) (d : dict V) :
  dict_remove k (dict_remove k d) = dict_remove k d.
Proof.
  induction d as [|[k' w] r IH]; simpl; [reflexivity|].
  destruct (str_eqb k k') eqn:E; [exact IH|]. simpl. now rewrite E, IH.
Qed.

Lemma dict_get_remove {V} (k : str) (d : dict V) :
  dict_get k (dict_remove k d) = None.
Proof.
  induction d as [|[k' w] r IH]; simpl; [reflexivity|].
  destruct (str_eqb k k') eqn:E; [exact IH|]. simpl. now rewrite E.
Qed.

Lemma dict_remove_absent {V} (k : str) (d : dict V) :
  dict_get k d = None -> dict_remove k d = d.
Proof.
  induction d as [|[k' w] r IH]; simpl; [reflexivity|].
  destruct (str_eqb k k') eqn:E; [discriminate|].
  intros H. now rewrite IH.
Qed.

(** *** Paths below a directory *)

Lemma remove_step (a b : str) (q : path) (es : dict node) :
  remove (a :: b :: q) (Dir es)
  = match dict_get a es with
    | Some m => Dir (dict_set a (remove (b :: q) m) es)
    | None => Dir es
    end.
Proof. reflexivity. Qed.

Lemma put_step (a b : str) (q : path) (m : node) (es : dict node) :
  put (a :: b :: q) m (Dir es)
  = match dict_get a es with
    | Some n' => Dir (dict_set a (put (b :: q) m n') es)
    | None => Dir es
    end.
Proof. reflexivity. Qed.

Lemma snoc_cons (q : path) (c : str) : exists b r, q ++ [c] = b :: r.
Proof. destruct q as [|b r]; simpl; eauto. Qed.

Lemma remove_file (p : path) (x : str) : remove p (File x) = File x.
Proof. destruct p as [|a [|b r]]; reflexivity. Qed.

Lemma put_file (p : path) (m : node) (x : str) : put p m (File x) = File x.
Proof. destruct p as [|a [|b r]]; reflexivity. Qed.

Lemma remove_put (q : path) (c : str) (m : node) :
  forall n, remove (q ++ [c]) (put (q ++ [c]) m n) = remove (q ++ [c]) n.
Proof.
  induction q as [|a q IH]; intros [x|es]; try (now rewrite put_file).
  - simpl. now rewrite dict_remove_set.
  - destruct (snoc_cons q c) as [b [r E]].
    cbn [app] in *. rewrite E in *. rewrite put_step, !remove_step.
    destruct (dict_get a es) as [n'|] eqn:G.
    + now rewrite remove_step, dict_get_set_same, IH, dict_set_set.
    + now rewrite remove_step, G.
Qed.

Lemma remove_idem (q : path) (c : str) :
  forall n, remove (q ++ [c]) (remove (q ++ [c]) n) = remove (q ++ [c]) n.
Proof.
  induction q as [|a q IH]; intros [x|es]; try (now rewrite !remove_file).
  - simpl. now rewrite dict_remove_idem.
  - destruct (snoc_cons q c) as [b [r E]].
    cbn [app] in *. rewrite E in *. rewrite !remove_step.
    destruct (dict_get a es) as [n'|] eqn:G.
    + now rewrite remove_step, dict_get_set_same, IH, dict_set_set.
    + now rewrite remove_step, G.
Qed.

Lemma lookup_put (q : path) (c : str) (m : node) :
  forall n, is_dir (lookup q n) = true -> lookup (q ++ [c]) (put (q ++ [c]) m n) = Some m.
Proof.
  induction q as [|a q IH]; intros [x|es] H; try (simpl in H; discriminate).
  - simpl. now rewrite dict_get_set_same.
  - cbn [lookup] in H. destruct (dict_get a es) as [n'|] eqn:G; [|discriminate].
    destruct (snoc_cons q c) as [b [r E]].
    cbn [app] in *. rewrite E in *. rewrite put_step, G.
    cbn [lookup]. rewrite dict_get_set_same. now apply IH.
Qed.

Lemma lookup_parent (q : path) (c : str) :
  forall n, lookup (q ++ [c]) n <> None -> is_dir (lookup q n) = true.
Proof.
  induction q as [|a q IH]; intros [x|es] H; try reflexivity.
  - now contradiction H.
  - now contradiction H.
  - cbn [app lookup] in *. destruct (dict_get a es) as [n'|]; [now apply IH|].
    now contradiction H.
Qed.

Lemma lookup_remove (q : path) (c : str) :
  forall n, lookup (q ++ [c]) (remove (q ++ [c]) n) = None.
Proof.
  induction q as [|a q IH]; intros [x|es]; try (now rewrite remove_file).
  - simpl. now rewrite dict_get_remove.
  - destruct (snoc_cons q c) as [b [r E]].
    cbn [app] in *. rewrite E in *. rewrite remove_step.
    destruct (dict_get a es) as [n'|] eqn:G.
    + cbn [lookup]. rewrite dict_get_set_same. apply IH.
    + cbn [lookup]. now rewrite G.
Qed.

Lemma lookup_parent_remove (q : path) (c : str) :
  forall n, is_dir (lookup q n) = true -> is_dir (lookup q (remove (q ++ [c]) n)) = true.
Proof.
  induction q as [|a q IH]; intros [x|es] H; try (simpl in H; discriminate).
  - reflexivity.
  - cbn [lookup] in H. destruct (dict_get a es) as [n'|] eqn:G; [|discriminate].
    destruct (snoc_cons q c) as [b [r E]].
    cbn [app] in *. rewrite E in *. rewrite remove_step, G.
    cbn [lookup]. rewrite dict_get_set_same. now apply IH.
Qed.

Lemma remove_absent (q : path) (c : str) :
  forall n, lookup (q ++ [c]) n = None -> remove (q ++ [c]) n = n.
Proof.
  induction q as [|a q IH]; intros [x|es] H; try (now rewrite remove_file).
  - simpl in *. destruct (dict_get c es) eqn:G; [discriminate|].
    now rewrite dict_remove_absent.
  - destruct (snoc_cons q c) as [b [r E]].
    cbn [app lookup] in *. rewrite E in *. rewrite remove_step.
    destruct (dict_get a es) as [n'|] eqn:G; [|reflexivity].
    rewrite IH by assumption. now rewrite dict_set_get.
Qed.

(** *** One run *)

Lemma run_cleanable (is_readthedocs : bool) (docs_dir : path) (fs : node) :
  run (new_generator is_readthedocs docs_dir) fs
  = if cleanable is_readthedocs docs_dir fs
    then put (output_path docs_dir) (Dir []) (remove (output_path docs_dir) fs)
    else fs.
Proof.
  unfold cleanable, output_path. destruct is_readthedocs; [reflexivity|].
  cbn [negb andb].
  unfold run, clean_output_directory, new_generator, get_output_dir, exists_,
    rmtree, mkdir_exist_ok, fs_bind, fs_try_except, fs_print, fs_ret, fs_raise.
  cbn [output_dir]. cbv beta iota zeta.
  destruct (lookup (docs_dir ++ [s "output"]) fs) as [[x|es]|] eqn:L.
  - cbv beta iota zeta. rewrite L. cbv beta iota zeta.
    rewrite andb_false_r. reflexivity.
  - assert (P : is_dir (lookup docs_dir fs) = true)
      by (apply (lookup_parent docs_dir (s "output")); congruence).
    cbv beta iota zeta. rewrite L, P. cbv beta iota zeta.
    rewrite lookup_remove, removelast_last, lookup_parent_remove by exact P.
    reflexivity.
  - cbv beta iota zeta. rewrite L, removelast_last. cbn [negb andb is_file].
    rewrite andb_true_r.
    destruct (is_dir (lookup docs_dir fs)); [|reflexivity].
    now rewrite remove_absent.
Qed.

Lemma cleanable_after_run (docs_dir : path) (fs : node) :
  cleanable false docs_dir fs = true ->
  lookup (output_path docs_dir)
    (put (output_path docs_dir) (Dir []) (remove (output_path docs_dir) fs))
  = Some (Dir []).
Proof.
  unfold cleanable, output_path. cbn [negb andb]. intros H.
  apply andb_prop in H as [H _].
  apply lookup_put. now apply lookup_parent_remove.
Qed.

Lemma fs_try_except_returns {A} (body : FS A) (handler : exn -> FS A) (fs : node) :
  (forall e fs1, exists a fs2 out, handler e fs1 = (Returned a, fs2, out)) ->
  exists a fs' out, fs_try_except body handler fs = (Returned a, fs', out).
Proof.
  intros H. unfold fs_try_except.
  destruct (body fs) as [[[a|e] fs1] out1].
  - eexists; eexists; eexists; reflexivity.
  - destruct (H e fs1) as [a [fs2 [out ->]]].
    eexists; eexists; eexists; reflexivity.
Qed.

(** The scaffolder catches what its steps raise: it always returns. *)
Lemma clean_output_directory_returns (self : generator) (fs : node) :
  exists fs' out, clean_output_directory self fs = (Returned tt, fs', out).
Proof.
  unfold clean_output_directory, fs_bind, fs_print. cbv beta iota zeta.
  match goal with
  | |- context [fs_try_except ?b ?h ?f] =>
      destruct (fs_try_except_returns b h f) as [[] [fs1 [out E]]]
  end.
  - intros e fs1. eexists; eexists; eexists; reflexivity.
  - rewrite E. eexists; eexists; reflexivity.
Qed.

(** C9, as stated, fails: the run does not leave an empty output directory
    for every file system.  With a regular file at the output path, and on
    Read the Docs, where the generator has no output directory, the error
    is caught and the tree is left as it was: the regular file is still
    there, and a filled output directory is still filled. *)
Lemma output_directory_not_always_emptied :
  let docs := [s "repo"; s "docs"] in
  let with_file :=
    Dir [(s "repo", Dir [(s "docs", Dir [(s "output", File (s "notes"))])])] in
  let filled :=
    Dir [(s "repo",
          Dir [(s "docs", Dir [(s "output", Dir [(s "index.html", File (s "old"))])])])] in
  run (new_generator false docs) with_file = with_file /\
  lookup (output_path docs) (run (new_generator false docs) with_file)
  = Some (File (s "notes")) /\
  run (new_generator true docs) filled = filled /\
  lookup (output_path docs) (run (new_generator true docs) filled)
  = Some (Dir [(s "index.html", File (s "old"))]) /\
  run (new_generator false docs) filled
  = Dir [(s "repo", Dir [(s "docs", Dir [(s "output", Dir [])])])].
Proof. repeat split; reflexivity. Qed.

(** C9: running the scaffolder on the file system it has left changes
    nothing, for every file system, on Read the Docs or not.  The scaffolder
    never raises; whenever it can do its work, what it leaves at the output
    path is an empty directory, and otherwise it leaves the file system as
    it was. *)
Theorem clean_output_directory_idempotent
    (is_readthedocs : bool) (docs_dir : path) (fs : node) :
  run (new_generator is_readthedocs docs_dir)
    (run (new_generator is_readthedocs docs_dir) fs)
  = run (new_generator is_readthedocs docs_dir) fs /\
  (exists fs' out,
     clean_output_directory (new_generator is_readthedocs docs_dir) fs
     = (Returned tt, fs', out)) /\
  (cleanable is_readthedocs docs_dir fs = true ->
   lookup (output_path docs_dir) (run (new_generator is_readthedocs docs_dir) fs)
   = Some (Dir [])) /\
  (cleanable is_readthedocs docs_dir fs = false ->
   run (new_generator is_readthedocs docs_dir) fs = fs).
Proof.
  split; [|split; [apply clean_output_directory_returns|split]].
  - rewrite (run_cleanable is_readthedocs docs_dir fs).
    destruct (cleanable is_readthedocs docs_dir fs) eqn:C;
      [|now rewrite run_cleanable, C].
    assert (R : is_readthedocs = false).
    { unfold cleanable in C. now destruct is_readthedocs. }
    subst is_readthedocs.
    pose proof (cleanable_after_run docs_dir fs C) as L.
    rewrite run_cleanable.
    assert (C' : cleanable false docs_dir
                   (put (output_path docs_dir) (Dir [])
                      (remove (output_path docs_dir) fs)) = true).
    { unfold cleanable. rewrite L. cbn [negb andb is_file]. rewrite andb_true_r.
      apply (lookup_parent docs_dir (s "output")). unfold output_path in *. congruence. }
    rewrite C'. unfold output_path. now rewrite remove_put, remove_idem.
  - intros C. rewrite run_cleanable, C.
    assert (R : is_readthedocs = false).
    { unfold cleanable in C. now destruct is_readthedocs. }
    subst is_readthedocs. now apply cleanable_after_run.
  - intros C. now rewrite run_cleanable, C.
Qed.

Lemma clean_output_directory_idempotent_witness :
  let docs := [s "repo"; s "docs"] in
  let fs :=
    Dir [(s "repo",
          Dir [(s "docs",
                Dir [(s "output", Dir [(s "html", Dir [(s "index.html", File (s "old"))])]);
                     (s "source", Dir [])])])] in
  (run (new_generator false docs) (run (new_generator false docs) fs)
   = run (new_generator false docs) fs) /\
  cleanable false docs fs = true /\
  lookup (output_path docs) (run (new_generator false docs) fs) = Some (Dir []) /\
  cleanable true docs fs = false /\
  run (new_generator true docs) fs = fs.
Proof.
  intros docs fs.
  destruct (clean_output_directory_idempotent false docs fs) as [H1 [_ [H2 _]]].
  destruct (clean_output_directory_idempotent true docs fs) as [_ [_ [_ H3]]].
  split; [exact H1|]. split; [reflexivity|]. split; [exact (H2 eq_refl)|].
  split; [reflexivity|]. exact (H3 eq_refl).
Defined.

End ScaffoldClaims.

(** * Further properties *)

(** ** The doc-output cleaner *)

Section CleanerMore.

(** The final [strip()] of the cleaner has nothing to remove: the output is
    the emitted lines joined by newlines, and it is empty or starts and ends
    with a character that is not whitespace. *)
Theorem clean_go_doc_output_stripped (doc_output : str) :
  clean_go_doc_output doc_output = join [nl] (emitted_lines doc_output) /\
  strip (clean_go_doc_output doc_output) = clean_go_doc_output doc_output /\
  (clean_go_doc_output doc_output = [] \/
   (head_ok (clean_go_doc_output doc_output) = true /\
    last_ok (clean_go_doc_output doc_output) = true)).
Proof.
  pose proof (clean_is_join doc_output) as E.
  destruct (finish_framed _ (reachable_scan_doc doc_output)) as [F _].
  fold (emitted_lines doc_output) in F.
  split; [exact E|]. rewrite E. split; [now apply strip_join_framed|].
  destruct F as [->|[H1 H2]]; [now left|right].
  destruct (emitted_lines doc_output) as [|x r]; [discriminate|]. split.
  - now apply head_ok_join.
  - apply last_ok_join; [discriminate|exact H2].
Qed.

(** Outside a code block and on a line that is no declaration, one
    iteration drops a first divider or appends what [render_prose] gives. *)
Lemma step_prose (st : Cleaner.state) (line : str) :
  in_code_block st = false -> declares line = false ->
  step st line =
    if negb (constants_removed st) && str_eqb (strip line) (s "CONSTANTS")
    then mark_removed CONSTANTS st
    else if negb (types_removed st) && str_eqb (strip line) (s "TYPES")
    then mark_removed TYPES st
    else Cleaner.mk_state (cleaned_lines st ++ render_prose line) false
           (code_block_content st) (constants_removed st) (types_removed st).
Proof.
  unfold declares. intros B D. destruct st as [cl ib cb cr tr]. simpl in B. subst ib.
  unfold step, render_prose, mark_removed. fields. rewrite D.
  destruct (strip line) as [|c r] eqn:E.
  - cbn [truthy negb andb]. rewrite !andb_false_r.
    change (startswith (s "//") []) with false. cbv iota.
    rewrite app_nil_r. now destruct (negb (truthy cl)).
  - cbn [truthy negb]. rewrite andb_false_r. cbv zeta.
    destruct (negb cr && str_eqb (c :: r) (s "CONSTANTS")); [reflexivity|].
    destruct (negb tr && str_eqb (c :: r) (s "TYPES")); [reflexivity|].
    destruct (startswith (s "//") (c :: r)); [|reflexivity].
    destruct (truthy (strip (skipn 2 (c :: r)))); [reflexivity|].
    now rewrite app_nil_r.
Qed.

Lemma scan_prose (lines : list str) :
  forall st : Cleaner.state,
    in_code_block st = false -> existsb declares lines = false ->
    in_code_block (scan_from st lines) = false /\
    code_block_content (scan_from st lines) = code_block_content st /\
    cleaned_lines (scan_from st lines)
    = cleaned_lines st
      ++ flat_map render_prose
           (drop_dividers (constants_removed st) (types_removed st) lines).
Proof.
  induction lines as [|l r IH]; intros st B D.
  - simpl. now rewrite app_nil_r.
  - cbn [existsb] in D. apply orb_false_elim in D as [Dl Dr].
    rewrite scan_from_cons, (step_prose st l B Dl). cbn [drop_dividers].
    destruct (negb (constants_removed st) && str_eqb (strip l) (s "CONSTANTS")).
    + destruct (IH (mark_removed CONSTANTS st) B Dr) as [H1 [H2 H3]].
      now rewrite H1, H2, H3.
    + destruct (negb (types_removed st) && str_eqb (strip l) (s "TYPES")).
      * destruct (IH (mark_removed TYPES st) B Dr) as [H1 [H2 H3]].
        now rewrite H1, H2, H3.
      * edestruct (IH (Cleaner.mk_state (cleaned_lines st ++ render_prose l) false
                         (code_block_content st) (constants_removed st)
                         (types_removed st))) as [H1 [H2 H3]];
          [reflexivity|exact Dr|].
        rewrite H1, H2, H3. fields. cbn [flat_map].
        now rewrite <- app_assoc.
Qed.

Lemma emitted_prose (doc_output : str) :
  existsb declares (tl (split nl doc_output)) = false ->
  emitted_lines doc_output
  = flat_map render_prose (drop_dividers false false (tl (split nl doc_output))).
Proof.
  intros D.
  destruct (scan_prose (tl (split nl doc_output)) initial eq_refl D) as [H1 [_ H3]].
  unfold emitted_lines, finish, scan. now rewrite H1, H3.
Qed.

(** When no line after the first is a declaration line, the cleaner works
    line by line: it drops the first [CONSTANTS] and the first [TYPES] line
    and renders every other line on its own, blank lines and empty comments
    giving nothing; no fence is added. *)
Theorem prose_only_output (doc_output : str) :
  existsb declares (tl (split nl doc_output)) = false ->
  emitted_lines doc_output
  = flat_map render_prose (drop_dividers false false (tl (split nl doc_output))) /\
  clean_go_doc_output doc_output
  = join [nl]
      (flat_map render_prose (drop_dividers false false (tl (split nl doc_output)))).
Proof.
  intros D. pose proof (emitted_prose doc_output D) as E.
  split; [exact E|]. now rewrite clean_is_join, E.
Qed.

Lemma prose_only_output_witness :
  let doc_output :=
    text ["package client // import"; ""; "Package client is the base.";
          ""; "CONSTANTS"; "// note: 'x'"; "//"] in
  existsb declares (tl (split nl doc_output)) = false /\
  emitted_lines doc_output
  = flat_map render_prose (drop_dividers false false (tl (split nl doc_output))) /\
  clean_go_doc_output doc_output
  = join [nl]
      (flat_map render_prose (drop_dividers false false (tl (split nl doc_output)))).
Proof.
  intros doc_output.
  assert (D : existsb declares (tl (split nl doc_output)) = false) by reflexivity.
  split; [exact D|]. exact (prose_only_output doc_output D).
Defined.

Lemma drop_dividers_blank (lines : list str) :
  forall cm tm,
    forallb blank lines = true ->
    flat_map render_prose (drop_dividers cm tm lines) = [].
Proof.
  induction lines as [|l r IH]; intros cm tm H; [reflexivity|].
  cbn [forallb] in H. apply andb_prop in H as [Hl Hr].
  unfold blank in Hl. apply negb_true_iff, truthy_false in Hl.
  cbn [drop_dividers]. rewrite Hl.
  change (str_eqb [] (s "CONSTANTS")) with false.
  change (str_eqb [] (s "TYPES")) with false.
  rewrite !andb_false_r. cbn [flat_map].
  unfold render_prose at 1. rewrite Hl. cbn [app]. now apply IH.
Qed.

Lemma blank_not_declares (lines : list str) :
  forallb blank lines = true -> existsb declares lines = false.
Proof.
  induction lines as [|l r IH]; [reflexivity|]. cbn [forallb existsb].
  intros H. apply andb_prop in H as [Hl Hr].
  unfold blank in Hl. apply negb_true_iff, truthy_false in Hl.
  unfold declares at 1. rewrite Hl. now apply IH.
Qed.

(** An input whose lines after the first are all blank gives the empty
    output, whatever the first line is. *)
Theorem blank_input_empty_output (doc_output : str) :
  forallb blank (tl (split nl doc_output)) = true ->
  clean_go_doc_output doc_output = [].
Proof.
  intros H.
  rewrite clean_is_join, (emitted_prose doc_output (blank_not_declares _ H)).
  now rewrite drop_dividers_blank.
Qed.

Lemma blank_input_empty_output_witness :
  forallb blank (tl (split nl (text ["func main()"; "  "; ""; ""]))) = true /\
  clean_go_doc_output (text ["func main()"; "  "; ""; ""]) = [].
Proof.
  assert (H : forallb blank (tl (split nl (text ["func main()"; "  "; ""; ""]))) = true)
    by reflexivity.
  split; [exact H|]. exact (blank_input_empty_output _ H).
Defined.

(** A code block is open after the scan exactly when some line after the
    first is a declaration line: once opened, a block is never left. *)
Theorem block_open_iff_declaration (doc_output : str) :
  in_code_block (scan (tl (split nl doc_output)))
  = existsb declares (tl (split nl doc_output)).
Proof. unfold scan. now rewrite in_code_block_scan. Qed.

Lemma escape_cons (c : ascii) (r : str) : escape (c :: r) = escape [c] ++ escape r.
Proof.
  unfold escape. change (c :: r) with ([c] ++ r).
  now rewrite !replace_char_app.
Qed.

Lemma escape_one (c : ascii) :
  escape [c] = if is_quote c then [backslash; c] else [c].
Proof.
  unfold escape, is_quote. cbn [replace_char app].
  destruct (ascii_dec c squote) as [->|H1]; [reflexivity|].
  cbn [replace_char app].
  destruct (ascii_dec c dquote) as [->|H2]; [reflexivity|].
  apply Ascii.eqb_neq in H1, H2. now rewrite H1, H2.
Qed.

(** In an escaped text every single or double quote follows a backslash. *)
Theorem escape_quotes_escaped (x : str) : quotes_escaped (escape x) = true.
Proof.
  unfold quotes_escaped. generalize false.
  induction x as [|c r IH]; intros b; [reflexivity|].
  rewrite escape_cons, escape_one. destruct (is_quote c) eqn:Q.
  - cbn [app quotes_escaped_from]. rewrite Q, Ascii.eqb_refl.
    replace (is_quote backslash) with false by reflexivity.
    cbn [andb]. apply IH.
  - cbn [app quotes_escaped_from]. rewrite Q. cbn [andb]. apply IH.
Qed.

End CleanerMore.

(** ** The README sectionizer *)

Section ReadmeMore.

Import Readme.

Lemma sub_ws_name_chars (x : str) :
  forall in_run,
    forallb keep_name_char x = true ->
    forallb is_name_char (sub_ws_from in_run x) = true.
Proof.
  induction x as [|c r IH]; intros in_run H; [reflexivity|].
  cbn [forallb] in H. apply andb_prop in H as [Hc Hr].
  cbn [sub_ws_from]. destruct (is_space c) eqn:S.
  - destruct in_run; [now apply IH|].
    change (s "-" ++ sub_ws_from true r) with ("-"%char :: sub_ws_from true r).
    cbn [forallb]. rewrite IH by assumption. reflexivity.
  - cbn [forallb]. rewrite IH by assumption. rewrite andb_true_r.
    unfold keep_name_char in Hc. unfold is_name_char. rewrite S in Hc.
    now rewrite orb_false_r in Hc.
Qed.

(** The name of a section has only lower-case letters, digits and hyphens,
    whatever the heading line holds. *)
Theorem heading_name_chars (line : str) :
  forallb is_name_char (heading_name line) = true.
Proof.
  unfold heading_name, sub_ws_hyphen, sub_drop_other.
  apply sub_ws_name_chars. apply forallb_forall.
  intros c Hc. now apply filter_In in Hc.
Qed.

Lemma dict_get_set {V} (f k : str) (v : V) (d : dict V) :
  dict_get f (dict_set k v d) = if str_eqb f k then Some v else dict_get f d.
Proof.
  induction d as [|[k' v'] r IH]; simpl; [reflexivity|].
  destruct (str_eqb k k') eqn:E.
  - apply str_eqb_eq in E. subst k'. simpl. now destruct (str_eqb f k).
  - simpl. rewrite IH. destruct (str_eqb f k') eqn:E'; [|reflexivity].
    apply str_eqb_eq in E'. subst k'.
    destruct (str_eqb f k) eqn:E''; [|reflexivity].
    apply str_eqb_eq in E''. subst k. now rewrite str_eqb_refl in E.
Qed.

Lemma dict_get_to_strings (k : str) (d : dict (list str)) :
  dict_get k (to_strings d)
  = match dict_get k d with
    | Some lines => Some (strip (join [nl] lines))
    | None => None
    end.
Proof.
  induction d as [|[k' v] r IH]; simpl; [reflexivity|].
  now destruct (str_eqb k k').
Qed.

(** Lines that are no headings go to the current section, once it is there. *)
Lemma fold_body (body : list str) :
  forall (d : dict (list str)) (name : str) (buf : list str),
    existsb is_heading body = false ->
    dict_get name d = Some buf ->
    fold_left Readme.step body (Readme.mk_state d name)
    = Readme.mk_state (dict_set name (buf ++ body) d) name.
Proof.
  induction body as [|l r IH]; intros d name buf H G.
  - simpl. rewrite app_nil_r. now rewrite dict_set_get.
  - cbn [existsb] in H. apply orb_false_elim in H as [Hl Hr].
    unfold is_heading, is_h2, is_h1 in Hl. apply orb_false_elim in Hl as [H2 H1].
    cbn [fold_left]. unfold Readme.step at 2. rewrite H2, H1.
    cbn [Readme.sections Readme.current_section].
    unfold dict_mem, dict_append. rewrite G. cbn [negb]. rewrite G.
    rewrite (IH _ name (buf ++ [l]) Hr); [|apply dict_get_set_same].
    now rewrite dict_set_set, <- app_assoc.
Qed.

(** The lines that follow the last heading of a README, when it is a
    level-2 heading, are the text of the section it names: joined and
    stripped, whatever came before, also an earlier section of that name. *)
Theorem last_section_text (content : str) (pre : list str) (h : str) (body : list str) :
  split nl content = pre ++ h :: body ->
  is_h2 h = true -> existsb is_heading body = false ->
  dict_get (heading_name h) (readme_sections content) = Some (strip (join [nl] body)).
Proof.
  intros E H2 Hb. unfold readme_sections. cbv zeta.
  rewrite E, fold_left_app. cbn [fold_left].
  destruct (fold_left Readme.step pre Readme.initial) as [d cur].
  unfold Readme.step at 2. unfold is_h2 in H2. rewrite H2.
  cbn [Readme.sections]. cbv zeta.
  rewrite (fold_body body _ (heading_name h) [] Hb); [|apply dict_get_set_same].
  cbn [Readme.sections app].
  now rewrite dict_get_to_strings, dict_get_set_same.
Qed.

Lemma last_section_text_witness :
  let content :=
    text ["# SDK"; "## Usage Examples"; "old"; "## Usage  examples!"; ""; "new"; "### more"; ""] in
  split nl content
    = [s "# SDK"; s "## Usage Examples"; s "old"] ++ s "## Usage  examples!"
        :: [[]; s "new"; s "### more"; []] /\
  is_h2 (s "## Usage  examples!") = true /\
  existsb is_heading [[]; s "new"; s "### more"; []] = false /\
  dict_get (heading_name (s "## Usage  examples!")) (readme_sections content)
    = Some (strip (join [nl] [[]; s "new"; s "### more"; []])).
Proof.
  intros content.
  assert (E : split nl content
              = [s "# SDK"; s "## Usage Examples"; s "old"] ++ s "## Usage  examples!"
                  :: [[]; s "new"; s "### more"; []]) by reflexivity.
  split; [exact E|]. split; [reflexivity|]. split; [reflexivity|].
  exact (last_section_text content _ _ _ E eq_refl eq_refl).
Defined.

Lemma dict_set_keys {V} (k : str) (v : V) (d : dict V) :
  map fst (dict_set k v d)
  = if dict_mem k d then map fst d else map fst d ++ [k].
Proof.
  unfold dict_mem. induction d as [|[k' v'] r IH]; simpl; [reflexivity|].
  destruct (str_eqb k k') eqn:E; [reflexivity|].
  simpl. rewrite IH. now destruct (dict_get k r).
Qed.

Lemma dict_mem_in {V} (k : str) (d : dict V) :
  dict_mem k d = false -> ~ In k (map fst d).
Proof.
  unfold dict_mem. induction d as [|[k' v'] r IH]; simpl; [tauto|].
  destruct (str_eqb k k') eqn:E; [discriminate|].
  intros H [H'|H']; [|now apply IH].
  subst k'. now rewrite str_eqb_refl in E.
Qed.

Lemma dict_set_nodup {V} (k : str) (v : V) (d : dict V) :
  NoDup (map fst d) -> NoDup (map fst (dict_set k v d)).
Proof.
  intros H. rewrite dict_set_keys. destruct (dict_mem k d) eqn:M; [exact H|].
  apply NoDup_app; [exact H|repeat constructor; intros []|].
  intros x Hx [<-|[]]. now apply (dict_mem_in k d).
Qed.

Lemma step_nodup (st : Readme.state) (line : str) :
  NoDup (map fst (sections st)) -> NoDup (map fst (sections (Readme.step st line))).
Proof.
  intros H. unfold Readme.step.
  destruct (startswith (s "## ") line); [now apply dict_set_nodup|].
  destruct (startswith (s "# ") line); [now apply dict_set_nodup|].
  cbn [sections]. unfold dict_append.
  destruct (dict_get (current_section st)
              (if negb (dict_mem (current_section st) (sections st))
               then dict_set (current_section st) [] (sections st)
               else sections st)).
  - apply dict_set_nodup.
    destruct (negb (dict_mem (current_section st) (sections st)));
      [now apply dict_set_nodup|exact H].
  - destruct (negb (dict_mem (current_section st) (sections st)));
      [now apply dict_set_nodup|exact H].
Qed.

Lemma readme_sections_nodup (content : str) :
  NoDup (map fst (readme_sections content)).
Proof.
  unfold readme_sections. cbv zeta.
  unfold to_strings. rewrite map_map. cbn [fst].
  change (fun x : str * list str => fst x) with (@fst str (list str)).
  assert (G : forall lines st,
             NoDup (map fst (sections st)) ->
             NoDup (map fst (sections (fold_left Readme.step lines st)))).
  { induction lines as [|l r IH]; intros st H; [exact H|].
    cbn [fold_left]. apply IH. now apply step_nodup. }
  apply G. constructor.
Qed.

Lemma dict_mem_true_in {V} (k : str) (d : dict V) :
  dict_mem k d = true -> In k (map fst d).
Proof.
  unfold dict_mem. induction d as [|[k' v'] r IH]; simpl; [discriminate|].
  destruct (str_eqb k k') eqn:E; [|intros H; right; now apply IH].
  apply str_eqb_eq in E. now left.
Qed.

Lemma dict_set_key_in {V} (k : str) (v : V) (d : dict V) (x : str) :
  In x (map fst (dict_set k v d)) <-> x = k \/ In x (map fst d).
Proof.
  rewrite dict_set_keys. destruct (dict_mem k d) eqn:M.
  - split; [now right|]. intros [->|H]; [now apply dict_mem_true_in|exact H].
  - rewrite in_app_iff. simpl. split; [intros [H|[H|[]]]|intros [H|H]]; auto.
Qed.

Lemma dict_append_keys (k line : str) (d : dict (list str)) :
  map fst (dict_append k line d) = map fst d.
Proof.
  unfold dict_append. destruct (dict_get k d) eqn:G; [|reflexivity].
  rewrite dict_set_keys. unfold dict_mem. now rewrite G.
Qed.

(** A line leaves the names that are there and adds at most the name of the
    section it is filed under. *)
Lemma step_keys (st : Readme.state) (line : str) (x : str) :
  In x (map fst (sections (Readme.step st line)))
  <-> x = current_section (Readme.step st line) \/ In x (map fst (sections st)).
Proof.
  unfold Readme.step.
  destruct (startswith (s "## ") line); [apply dict_set_key_in|].
  destruct (startswith (s "# ") line); [apply dict_set_key_in|].
  cbn [sections current_section]. rewrite dict_append_keys.
  destruct (dict_mem (current_section st) (sections st)) eqn:M; cbn [negb].
  - split; [now right|]. intros [->|H]; [now apply dict_mem_true_in|exact H].
  - apply dict_set_key_in.
Qed.

Lemma fold_step_keeps (lines : list str) :
  forall (st : Readme.state) (x : str),
    In x (map fst (sections st)) ->
    In x (map fst (sections (fold_left Readme.step lines st))).
Proof.
  induction lines as [|l r IH]; intros st x H; [exact H|].
  cbn [fold_left]. apply IH. apply step_keys. now right.
Qed.

Lemma fold_step_heading (lines : list str) :
  forall (st : Readme.state) (h : str),
    In h lines -> is_h2 h = true ->
    In (heading_name h) (map fst (sections (fold_left Readme.step lines st))).
Proof.
  induction lines as [|l r IH]; intros st h I H; [contradiction|].
  cbn [fold_left]. destruct I as [->|I]; [|now apply IH].
  apply fold_step_keeps, step_keys. left.
  unfold Readme.step. unfold is_h2 in H. now rewrite H.
Qed.

Lemma fold_step_names (all : list str) (lines : list str) :
  forall st : Readme.state,
    incl lines all ->
    (forall x, x = current_section st \/ In x (map fst (sections st)) ->
       x = introduction \/
       exists h, In h all /\ is_h2 h = true /\ x = heading_name h) ->
    forall x,
      In x (map fst (sections (fold_left Readme.step lines st))) ->
      x = introduction \/ exists h, In h all /\ is_h2 h = true /\ x = heading_name h.
Proof.
  induction lines as [|l r IH]; intros st Hin A x H.
  - apply A. now right.
  - cbn [fold_left] in H. apply (IH (Readme.step st l)); [|clear x H|exact H].
    { intros y Hy. apply Hin. now right. }
    assert (C : current_section (Readme.step st l) = introduction \/
                current_section (Readme.step st l) = current_section st \/
                (is_h2 l = true /\ current_section (Readme.step st l) = heading_name l)).
    { unfold Readme.step, is_h2. destruct (startswith (s "## ") l); [now right; right|].
      destruct (startswith (s "# ") l); [now left|now right; left]. }
    assert (Ac : current_section (Readme.step st l) = introduction \/
                 exists h, In h all /\ is_h2 h = true
                           /\ current_section (Readme.step st l) = heading_name h).
    { destruct C as [C|[C|[C1 C2]]].
      - now left.
      - rewrite C. apply A. now left.
      - right. exists l. split; [apply Hin; now left|]. now split. }
    intros x [->|H]; [exact Ac|].
    apply step_keys in H as [->|H]; [exact Ac|]. apply A. now right.
Qed.

Lemma to_strings_keys (d : dict (list str)) : map fst (to_strings d) = map fst d.
Proof. unfold to_strings. rewrite map_map. reflexivity. Qed.

(** The names of the mapping the sectionizer returns are those of the
    level-2 headings of the README, and "introduction": every level-2
    heading line gives a section of its name, no name occurs but these and
    "introduction", and "introduction" is there whenever the README does
    not start with a level-2 heading. *)
Theorem readme_section_names (content : str) :
  (forall h, In h (split nl content) -> is_h2 h = true ->
     In (heading_name h) (map fst (readme_sections content))) /\
  (forall name, In name (map fst (readme_sections content)) ->
     name = introduction \/
     exists h, In h (split nl content) /\ is_h2 h = true /\ name = heading_name h) /\
  (is_h2 (hd [] (split nl content)) = false ->
   In introduction (map fst (readme_sections content))).
Proof.
  unfold readme_sections. cbv zeta. rewrite to_strings_keys.
  split; [|split].
  - intros h I H. now apply fold_step_heading.
  - intros name H.
    apply (fold_step_names (split nl content) (split nl content) Readme.initial);
      [apply incl_refl| |exact H].
    intros x [->|[]]. now left.
  - destruct (split nl content) as [|l r] eqn:S; cbn [hd].
    + now apply split_not_nil in S.
    + intros H. cbn [fold_left]. apply fold_step_keeps, step_keys. left.
      unfold Readme.step, is_h2 in *. rewrite H.
      now destruct (startswith (s "# ") l).
Qed.

Lemma readme_section_names_witness :
  let content := text ["intro"; "## Usage Examples"; "x"; "# Title"; "## Error: handling"] in
  In (s "## Error: handling") (split nl content) /\
  is_h2 (s "## Error: handling") = true /\
  In (s "error-handling") (map fst (readme_sections content)) /\
  In (s "usage-examples") (map fst (readme_sections content)) /\
  (s "usage-examples" = introduction \/
   exists h, In h (split nl content) /\ is_h2 h = true /\ s "usage-examples" = heading_name h) /\
  is_h2 (hd [] (split nl content)) = false /\
  In introduction (map fst (readme_sections content)).
Proof.
  intros content.
  destruct (readme_section_names content) as [H1 [H2 H3]].
  assert (I : In (s "## Error: handling") (split nl content))
    by (do 4 right; left; reflexivity).
  assert (K : In (s "usage-examples") (map fst (readme_sections content)))
    by (right; left; reflexivity).
  split; [exact I|]. split; [reflexivity|].
  split; [exact (H1 _ I eq_refl)|]. split; [exact K|].
  split; [exact (H2 _ K)|]. split; [reflexivity|]. exact (H3 eq_refl).
Defined.

End ReadmeMore.

(** ** The page writer *)

Section PageWriterMore.

Import Readme.

Lemma write_sections_files (items : list (str * str)) :
  forall source_dir,
    exists files out,
      write_sections items source_dir = (Returned files, out) /\
      forall f,
        dict_get f files
        = match last_page f items with
          | Some page => Some page
          | None => dict_get f source_dir
          end.
Proof.
  induction items as [|[section content] r IH]; intros source_dir.
  - exists source_dir, []. split; reflexivity.
  - cbn [write_sections last_page]. unfold page_of.
    destruct (dict_get section section_files) as [filename|].
    + destruct (truthy (strip content)).
      * destruct (IH (dict_set filename (markdown_content section content) source_dir))
          as [files [out [E G]]].
        cbn [print bind]. rewrite E. eexists. eexists. split; [reflexivity|].
        intros f. rewrite G, dict_get_set.
        destruct (last_page f r); [reflexivity|].
        now destruct (str_eqb f filename).
      * destruct (IH source_dir) as [files [out [E G]]].
        exists files, out. split; [exact E|].
        intros f. rewrite G. now destruct (last_page f r).
    + destruct (IH source_dir) as [files [out [E G]]].
      exists files, out. split; [exact E|].
      intros f. rewrite G. now destruct (last_page f r).
Qed.

Lemma create_markdown_files_files (readme_sections source_dir : dict str) :
  exists files out,
    create_markdown_files readme_sections source_dir = (Returned files, out) /\
    forall f,
      dict_get f files
      = match last_page f readme_sections with
        | Some page => Some page
        | None => dict_get f source_dir
        end.
Proof.
  unfold create_markdown_files.
  destruct (write_sections_files readme_sections source_dir) as [files [out [E G]]].
  cbn [print bind]. rewrite E. eexists. eexists. split; [reflexivity|exact G].
Qed.

(** Once the page writer has run through, what it leaves in a file is the
    page of the last section that is mapped to that file and is not blank
    (so a "global-services" section after a "regions" section replaces its
    page); a file no such section is mapped to is left as it was. *)
Theorem create_markdown_files_last_page
    (readme_sections source_dir files : dict str) (out : list entry) :
  create_markdown_files readme_sections source_dir = (Returned files, out) ->
  forall f,
    dict_get f files
    = match last_page f readme_sections with
      | Some page => Some page
      | None => dict_get f source_dir
      end.
Proof.
  intros H.
  destruct (create_markdown_files_files readme_sections source_dir)
    as [files' [out' [E G]]].
  rewrite E in H. injection H as <- _. exact G.
Qed.

Lemma create_markdown_files_last_page_witness :
  let sections := [(s "regions", s "br-se1"); (s "usage", s "x"); (s "global-services", s "dns")] in
  let source_dir := [(s "usage.md", s "kept")] in
  let files :=
    [(s "usage.md", s "kept");
     (s "regions.md", markdown_content (s "global-services") (s "dns"))] in
  create_markdown_files sections source_dir
  = (Returned files,
     [info (s "Creating Markdown files..."); ok (s "Created regions.md");
      ok (s "Created regions.md")]) /\
  dict_get (s "regions.md") files
  = Some (markdown_content (s "global-services") (s "dns")) /\
  dict_get (s "usage.md") files = Some (s "kept").
Proof.
  intros sections source_dir files.
  assert (H : create_markdown_files sections source_dir
              = (Returned files,
                 [info (s "Creating Markdown files..."); ok (s "Created regions.md");
                  ok (s "Created regions.md")])) by reflexivity.
  split; [exact H|]. split.
  - exact (create_markdown_files_last_page sections source_dir files _ H (s "regions.md")).
  - exact (create_markdown_files_last_page sections source_dir files _ H (s "usage.md")).
Defined.

Lemma last_page_unmapped (f : str) (items : list (str * str)) :
  (forall section, dict_get section section_files <> Some f) ->
  last_page f items = None.
Proof.
  intros H. induction items as [|[section content] r IH]; [reflexivity|].
  cbn [last_page]. rewrite IH. unfold page_of.
  destruct (dict_get section section_files) as [filename|] eqn:G; [|reflexivity].
  destruct (truthy (strip content)); [|reflexivity].
  destruct (str_eqb f filename) eqn:E; [|reflexivity].
  apply str_eqb_eq in E. subst filename. now apply H in G.
Qed.

(** The page writer never creates or changes a file whose name is not in its
    table of output files, whatever the sections are called. *)
Theorem create_markdown_files_only_mapped
    (readme_sections source_dir : dict str) (f : str) :
  (forall section, dict_get section section_files <> Some f) ->
  exists files out,
    create_markdown_files readme_sections source_dir = (Returned files, out) /\
    dict_get f files = dict_get f source_dir.
Proof.
  intros H.
  destruct (create_markdown_files_files readme_sections source_dir)
    as [files [out [E G]]].
  exists files, out. split; [exact E|].
  now rewrite G, last_page_unmapped.
Qed.

Lemma not_mapped_check (f : str) :
  forallb (fun kv => negb (str_eqb (snd kv) f)) section_files = true ->
  forall section, dict_get section section_files <> Some f.
Proof.
  intros H section G. rewrite forallb_forall in H.
  assert (I : exists k, In (k, f) section_files).
  { revert G. generalize section_files. intros d.
    induction d as [|[k v] r IH]; simpl; [discriminate|].
    destruct (str_eqb section k).
    - intros E. injection E as ->. exists k. now left.
    - intros E. destruct (IH E) as [k' Hk]. exists k'. now right. }
  destruct I as [k Hk]. specialize (H _ Hk). cbn [snd] in H.
  now rewrite str_eqb_refl in H.
Qed.

Lemma create_markdown_files_only_mapped_witness :
  let sections := [(s "usage", s "do that"); (s "index", s "x")] in
  let source_dir := [(s "index.rst", s "kept")] in
  (forall section, dict_get section section_files <> Some (s "index.rst")) /\
  exists files out,
    create_markdown_files sections source_dir = (Returned files, out) /\
    dict_get (s "index.rst") files = dict_get (s "index.rst") source_dir.
Proof.
  intros sections source_dir.
  assert (H : forall section, dict_get section section_files <> Some (s "index.rst"))
    by (apply not_mapped_check; reflexivity).
  split; [exact H|].
  exact (create_markdown_files_only_mapped sections source_dir (s "index.rst") H).
Defined.

(** *** Heading levels of a page *)

Lemma split_app (sep : ascii) (a b : str) :
  split sep (a ++ sep :: b) = split sep a ++ split sep b.
Proof.
  induction a as [|c a IH]; simpl.
  - destruct (ascii_dec sep sep); [reflexivity|congruence].
  - destruct (ascii_dec c sep); [now rewrite IH|].
    rewrite IH. pose proof (split_not_nil sep a) as Hne.
    destruct (split sep a); [congruence|reflexivity].
Qed.

Lemma process_line_not_h3 (line : str) : is_h3 (process_line line) = false.
Proof.
  unfold is_h3, process_line.
  destruct (startswith (s "### ") line) eqn:E; [|exact E].
  destruct line as [|a line]; [discriminate|].
  unfold replace_first. rewrite E. reflexivity.
Qed.

Lemma process_line_nl_free (line : str) : nl_free line -> nl_free (process_line line).
Proof.
  unfold process_line, nl_free. intros H.
  destruct (startswith (s "### ") line) eqn:E; [|exact H].
  destruct line as [|a line]; [discriminate|].
  unfold replace_first. rewrite E. intros Hin.
  apply in_app_or in Hin as [Hin|Hin].
  - simpl in Hin. destruct Hin as [X|[X|[X|[]]]]; discriminate.
  - apply H. rewrite <- (firstn_skipn (List.length (s "### ")) (a :: line)).
    apply in_or_app. now right.
Qed.

Lemma case_char_not_nl (c : ascii) :
  c <> nl -> lower_ascii c <> nl /\ upper_ascii c <> nl.
Proof.
  destruct c as [[] [] [] [] [] [] [] []]; intros H; split;
    vm_compute; try discriminate; try exact H.
Qed.

Lemma title_from_nl_free (x : str) :
  forall b, nl_free x -> nl_free (title_from b x).
Proof.
  unfold nl_free. induction x as [|c r IH]; intros b H; [exact H|].
  assert (Hc : c <> nl) by (intros E; apply H; now left).
  assert (Hr : ~ In nl r) by (intros E; apply H; now right).
  destruct (case_char_not_nl c Hc) as [L U].
  cbn [title_from]. destruct (is_ascii_letter c).
  - destruct b; intros [E|E]; try (now apply (IH true Hr)); congruence.
  - intros [E|E]; [congruence|now apply (IH false Hr)].
Qed.

Lemma replace_hyphen_nl_free (x : str) :
  nl_free x -> nl_free (replace_char "-"%char (s " ") x).
Proof.
  unfold nl_free. intros H Hin. apply replace_char_in in Hin as [Hin|Hin]; [|tauto].
  simpl in Hin. destruct Hin as [E|[]]. discriminate.
Qed.

(** A level-3 heading line of a section is written as a level-2 heading, and
    no line of a written page starts as a level-3 heading. *)
Theorem markdown_content_no_h3 (section content : str) :
  nl_free section ->
  (forall rest, process_line (s "### " ++ rest) = s "## " ++ rest) /\
  forallb (fun line => negb (is_h3 line)) (split nl (markdown_content section content)) = true.
Proof.
  intros Hs. split; [reflexivity|].
  pose proof (title_from_nl_free _ false (replace_hyphen_nl_free _ Hs)) as Ht.
  fold (title (replace_char "-"%char (s " ") section)) in Ht.
  unfold markdown_content. cbv zeta.
  set (T := title (replace_char "-"%char (s " ") section)) in *.
  set (body := map process_line (split nl content)).
  assert (Hb : Forall nl_free body).
  { unfold body. apply Forall_forall. intros l Hl.
    apply in_map_iff in Hl as [l0 [<- Hl0]]. apply process_line_nl_free.
    pose proof (split_sep_free nl content) as F. rewrite Forall_forall in F.
    now apply F. }
  assert (Hne : body <> []).
  { unfold body. pose proof (split_not_nil nl content).
    destruct (split nl content); [congruence|discriminate]. }
  replace (s "---" ++ [nl] ++ s "title: " ++ T ++ [nl] ++ s "---" ++ [nl] ++ [nl]
             ++ s "# " ++ T ++ [nl] ++ [nl] ++ join [nl] body ++ [nl])
    with (s "---" ++ nl :: (s "title: " ++ T) ++ nl :: s "---" ++ nl :: [] ++ nl
            :: (s "# " ++ T) ++ nl :: [] ++ nl :: join [nl] body ++ nl :: [])
    by (cbn [app]; now rewrite <- !app_assoc).
  rewrite !split_app.
  rewrite (split_no_sep nl (s "---")) by (apply nl_free_check; reflexivity).
  rewrite (split_no_sep nl (s "title: " ++ T)).
  2:{ intros Hin. apply in_app_or in Hin as [Hin|Hin]; [|now apply Ht].
      revert Hin. apply nl_free_check. reflexivity. }
  rewrite (split_no_sep nl (s "# " ++ T)).
  2:{ intros Hin. apply in_app_or in Hin as [Hin|Hin]; [|now apply Ht].
      revert Hin. apply nl_free_check. reflexivity. }
  rewrite split_join by assumption.
  rewrite !forallb_app. cbn [split forallb].
  change (is_h3 (s "---")) with false.
  change (is_h3 (s "title: " ++ T)) with false.
  change (is_h3 (s "# " ++ T)) with false.
  change (is_h3 []) with false. cbn [negb andb].
  rewrite andb_true_r. apply forallb_forall. intros l Hl.
  unfold body in Hl. apply in_map_iff in Hl as [l0 [<- _]].
  now rewrite process_line_not_h3.
Qed.

Lemma markdown_content_no_h3_witness :
  nl_free (s "error-handling") /\
  (forall rest, process_line (s "### " ++ rest) = s "## " ++ rest) /\
  forallb (fun line => negb (is_h3 line))
    (split nl (markdown_content (s "error-handling")
                 (text ["### Retry"; "text"; "#### Deep"; "### Errors"]))) = true.
Proof.
  assert (H : nl_free (s "error-handling")) by (apply nl_free_check; reflexivity).
  split; [exact H|]. exact (markdown_content_no_h3 _ _ H).
Defined.

End PageWriterMore.

(** ** The version resolver *)

Section VersionMore.

Import Version.

Lemma from_git_result (git : result completed) :
  exists out,
    get_project_version_from_git git
    = (Returned (match git with
                 | Returned c =>
                     if Z.eqb (returncode c) 0 then strip (stdout c) else default_version
                 | Raised _ => default_version
                 end), out).
Proof.
  unfold get_project_version_from_git, subprocess_run.
  destruct git as [c|e]; cbn [bind try_except].
  - destruct (Z.eqb (returncode c) 0); eexists; reflexivity.
  - eexists; reflexivity.
Qed.

Lemma version_from_git (env : environ) (git : result completed) :
  is_readthedocs env = false ->
  fst (get_project_version env git)
  = Returned (match git_tag git with
              | Some tag => drop_prefix_v tag
              | None => default_version
              end).
Proof.
  intros R. unfold get_project_version. rewrite R. cbn [negb].
  destruct (from_git_result git) as [out ->]. unfold git_tag.
  destruct git as [c|e]; [|reflexivity].
  destruct (Z.eqb (returncode c) 0); [|reflexivity].
  cbn [bind ret try_except andb]. rewrite strip_idem.
  destruct (strip (stdout c)) as [|a r] eqn:E; [reflexivity|].
  reflexivity.
Qed.

(** Outside Read the Docs the resolver never raises and falls back to the
    default "0.3.45" whenever [git describe --tags] raises, times out, ends
    with a status other than zero or prints nothing but whitespace;
    otherwise it returns the stripped tag without its leading v. *)
Theorem version_outside_readthedocs (env : environ) (git : result completed) :
  is_readthedocs env = false ->
  (git_tag git = None -> fst (get_project_version env git) = Returned default_version) /\
  (forall tag, git_tag git = Some tag ->
     fst (get_project_version env git) = Returned (drop_prefix_v tag)).
Proof.
  intros R. pose proof (version_from_git env git R) as E. split.
  - intros G. now rewrite G in E.
  - intros tag G. now rewrite G in E.
Qed.

Lemma version_outside_readthedocs_witness :
  let env := [(s "VERSION", s "v9.9.9")] in
  is_readthedocs env = false /\
  (git_tag (Returned (mk_completed 128 (s "fatal"))) = None /\
   fst (get_project_version env (Returned (mk_completed 128 (s "fatal"))))
   = Returned default_version) /\
  (git_tag (Returned (mk_completed 0 (text ["v0.3.45-2-gabc"; ""]))) = Some (s "v0.3.45-2-gabc") /\
   fst (get_project_version env (Returned (mk_completed 0 (text ["v0.3.45-2-gabc"; ""]))))
   = Returned (drop_prefix_v (s "v0.3.45-2-gabc"))).
Proof.
  intros env. split; [reflexivity|]. split.
  - split; [reflexivity|].
    exact (proj1 (version_outside_readthedocs env
                    (Returned (mk_completed 128 (s "fatal"))) eq_refl) eq_refl).
  - split; [reflexivity|].
    exact (proj2 (version_outside_readthedocs env
                    (Returned (mk_completed 0 (text ["v0.3.45-2-gabc"; ""]))) eq_refl)
             _ eq_refl).
Defined.

(** On Read the Docs the value "latest" or "stable", from VERSION or, when
    that is unset or empty, from READTHEDOCS_VERSION, is never returned as
    the version: the resolver then does what it does outside Read the Docs
    and asks git. *)
Theorem version_latest_stable_from_git (env : environ) (git : result completed) :
  is_readthedocs env = true ->
  env_version env = Some (s "latest") \/ env_version env = Some (s "stable") ->
  get_project_version env git = get_project_version [] git.
Proof.
  intros R H. unfold get_project_version. rewrite R. cbn [negb].
  fold (env_version env). change (is_readthedocs []) with false. cbn [negb].
  destruct H as [-> | ->]; reflexivity.
Qed.

Lemma version_latest_stable_from_git_witness :
  let env := [(s "READTHEDOCS", s "True"); (s "VERSION", []);
              (s "READTHEDOCS_VERSION", s "latest")] in
  let git := Returned (mk_completed 0 (s "v1.0.0")) in
  is_readthedocs env = true /\
  (env_version env = Some (s "latest") \/ env_version env = Some (s "stable")) /\
  get_project_version env git = get_project_version [] git /\
  fst (get_project_version env git) = Returned (s "1.0.0").
Proof.
  intros env git.
  assert (H : env_version env = Some (s "latest") \/ env_version env = Some (s "stable"))
    by (left; reflexivity).
  split; [reflexivity|]. split; [exact H|]. split; [|reflexivity].
  exact (version_latest_stable_from_git env git eq_refl H).
Defined.

End VersionMore.

(** ** The scaffolder and the Sphinx structure *)

Section ScaffoldMore.

Import Scaffold.

Lemma str_eqb_sym (a b : str) : str_eqb a b = str_eqb b a.
Proof.
  destruct (str_eqb a b) eqn:E.
  - apply str_eqb_eq in E. subst. now rewrite str_eqb_refl.
  - destruct (str_eqb b a) eqn:E'; [|reflexivity].
    apply str_eqb_eq in E'. subst. now rewrite str_eqb_refl in E.
Qed.

Lemma dict_get_remove_other {V} (k k' : str) (d : dict V) :
  str_eqb k k' = false -> dict_get k (dict_remove k' d) = dict_get k d.
Proof.
  intros H. induction d as [|[a v] r IH]; simpl; [reflexivity|].
  destruct (str_eqb k' a) eqn:E.
  - apply str_eqb_eq in E. subst a. now rewrite H.
  - simpl. now rewrite IH.
Qed.

Lemma lookup_one (a : str) (es : dict node) :
  lookup [a] (Dir es) = dict_get a es.
Proof. simpl. now destruct (dict_get a es). Qed.

(** Removing the tree at [p] keeps every regular file that is not below [p]. *)
Lemma remove_keeps_file (p : path) :
  forall (q : path) (n : node) (c : str),
    lookup q n = Some (File c) -> is_prefix p q = false ->
    lookup q (remove p n) = Some (File c).
Proof.
  induction p as [|a p IH]; intros q n c L P; [discriminate|].
  destruct n as [x|es]; [now rewrite remove_file|].
  destruct q as [|b q]; [discriminate|].
  cbn [is_prefix] in P. cbn [lookup] in L.
  destruct p as [|a' p].
  - cbn [remove lookup]. destruct (str_eqb a b) eqn:E.
    + cbn [andb] in P. destruct q; discriminate.
    + rewrite dict_get_remove_other by now rewrite str_eqb_sym. exact L.
  - rewrite remove_step. destruct (dict_get a es) as [n'|] eqn:G; [|exact L].
    cbn [lookup]. rewrite dict_get_set, str_eqb_sym.
    destruct (str_eqb a b) eqn:E; [|exact L].
    apply str_eqb_eq in E. subst b. rewrite G in L. cbn [andb] in P.
    now apply IH.
Qed.

(** Putting a node at a free place keeps every regular file. *)
Lemma put_keeps_file (p : path) (m : node) :
  forall (q : path) (n : node) (c : str),
    lookup q n = Some (File c) -> lookup p n = None ->
    lookup q (put p m n) = Some (File c).
Proof.
  induction p as [|a p IH]; intros q n c L P; [discriminate|].
  destruct n as [x|es]; [now rewrite put_file|].
  destruct q as [|b q]; [discriminate|].
  cbn [lookup] in L.
  destruct p as [|a' p].
  - rewrite lookup_one in P. cbn [put lookup]. rewrite dict_get_set.
    destruct (str_eqb b a) eqn:E; [|exact L].
    apply str_eqb_eq in E. subst b. now rewrite P in L.
  - rewrite put_step. cbn [lookup] in P.
    destruct (dict_get a es) as [n'|] eqn:G; [|exact L].
    cbn [lookup]. rewrite dict_get_set.
    destruct (str_eqb b a) eqn:E; [|exact L].
    apply str_eqb_eq in E. subst b. rewrite G in L. now apply IH.
Qed.

(** Putting a node at a free place keeps every directory a directory. *)
Lemma put_keeps_dir (p : path) (m : node) :
  forall (q : path) (n : node),
    is_dir (lookup q n) = true -> lookup p n = None ->
    is_dir (lookup q (put p m n)) = true.
Proof.
  induction p as [|a p IH]; intros q n L P; [discriminate|].
  destruct n as [x|es]; [now rewrite put_file|].
  destruct q as [|b q].
  { destruct p as [|a' p]; [reflexivity|].
    rewrite put_step. now destruct (dict_get a es). }
  cbn [lookup] in L.
  destruct p as [|a' p].
  - rewrite lookup_one in P. cbn [put lookup]. rewrite dict_get_set.
    destruct (str_eqb b a) eqn:E; [|exact L].
    apply str_eqb_eq in E. subst b. now rewrite P in L.
  - rewrite put_step. cbn [lookup] in P.
    destruct (dict_get a es) as [n'|] eqn:G; [|exact L].
    cbn [lookup]. rewrite dict_get_set.
    destruct (str_eqb b a) eqn:E; [|exact L].
    apply str_eqb_eq in E. subst b. rewrite G in L. now apply IH.
Qed.

(** The scaffolder deletes nothing outside the output directory: a regular
    file that is not at or below the output path is there, unchanged, after
    the run, whatever else the file system holds. *)
Theorem clean_output_directory_keeps_other_files
    (is_readthedocs : bool) (docs_dir : path) (fs : node) (q : path) (c : str) :
  lookup q fs = Some (File c) ->
  is_prefix (output_path docs_dir) q = false ->
  lookup q (Scaffold.run (new_generator is_readthedocs docs_dir) fs) = Some (File c).
Proof.
  intros L P. rewrite run_cleanable.
  destruct (cleanable is_readthedocs docs_dir fs); [|exact L].
  apply put_keeps_file; [now apply remove_keeps_file|].
  unfold output_path. apply lookup_remove.
Qed.

Lemma clean_output_directory_keeps_other_files_witness :
  let docs := [s "docs"] in
  let fs :=
    Dir [(s "docs",
          Dir [(s "output", Dir [(s "index.html", File (s "old"))]);
               (s "output.txt", File (s "notes"));
               (s "source", Dir [(s "conf.py", File (s "project = 1"))])])] in
  lookup [s "docs"; s "source"; s "conf.py"] fs = Some (File (s "project = 1")) /\
  is_prefix (output_path docs) [s "docs"; s "source"; s "conf.py"] = false /\
  lookup [s "docs"; s "source"; s "conf.py"] (Scaffold.run (new_generator false docs) fs)
  = Some (File (s "project = 1")).
Proof.
  intros docs fs. split; [reflexivity|]. split; [reflexivity|].
  exact (clean_output_directory_keeps_other_files false docs fs
           [s "docs"; s "source"; s "conf.py"] (s "project = 1") eq_refl eq_refl).
Defined.

(** *** [mkdir(exist_ok=True)] *)

Lemma mkdir_existing (p : path) (fs : node) :
  is_dir (lookup p fs) = true -> mkdir_exist_ok p fs = (Returned tt, fs, []).
Proof.
  unfold mkdir_exist_ok. destruct (lookup p fs) as [[x|es]|]; try discriminate.
  reflexivity.
Qed.

Lemma lookup_put_any (p : path) (m : node) (fs : node) :
  p <> [] -> is_dir (lookup (removelast p) fs) = true ->
  lookup p (put p m fs) = Some m.
Proof.
  intros Hne H. rewrite (app_removelast_last [] Hne) at 1 2.
  now apply lookup_put.
Qed.

Lemma mkdir_returned (p : path) (fs fs' : node) (out : list entry) :
  mkdir_exist_ok p fs = (Returned tt, fs', out) ->
  can_make p fs = true /\
  is_dir (lookup p fs') = true /\
  (forall q, is_dir (lookup q fs) = true -> is_dir (lookup q fs') = true) /\
  (forall q c, lookup q fs = Some (File c) -> lookup q fs' = Some (File c)).
Proof.
  unfold mkdir_exist_ok, can_make.
  destruct (lookup p fs) as [[x|es]|] eqn:L; [discriminate| |].
  - intros E. injection E as <- _. rewrite L. repeat split; auto.
  - destruct (is_dir (lookup (removelast p) fs)) eqn:D; [|discriminate].
    intros E. injection E as <- _. split; [reflexivity|].
    assert (Hne : p <> []) by (intros ->; discriminate).
    split; [now rewrite lookup_put_any|]. split.
    + intros q Hq. now apply put_keeps_dir.
    + intros q c Hq. now apply put_keeps_file.
Qed.

Lemma mkdir_raised (p : path) (fs fs' : node) (e : exn) (out : list entry) :
  mkdir_exist_ok p fs = (Raised e, fs', out) -> fs' = fs /\ can_make p fs = false.
Proof.
  unfold mkdir_exist_ok, can_make.
  destruct (lookup p fs) as [[x|es]|]; try discriminate.
  - intros E. now injection E as _ <-.
  - destruct (is_dir (lookup (removelast p) fs)); [discriminate|].
    intros E. now injection E as _ <-.
Qed.

Lemma can_make_returns (p : path) (fs : node) :
  can_make p fs = true -> exists fs', mkdir_exist_ok p fs = (Returned tt, fs', []).
Proof.
  unfold mkdir_exist_ok, can_make.
  destruct (lookup p fs) as [[x|es]|]; [discriminate|eauto|].
  intros ->. eauto.
Qed.

Lemma can_make_child (p : path) (c : str) (fs : node) :
  is_dir (lookup p fs) = true ->
  can_make (p ++ [c]) fs = negb (is_file (lookup (p ++ [c]) fs)).
Proof.
  intros H. unfold can_make. rewrite removelast_last, H.
  now destruct (lookup (p ++ [c]) fs) as [[x|es]|].
Qed.

Lemma lookup_app (p q : path) :
  forall n,
    lookup (p ++ q) n = match lookup p n with Some m => lookup q m | None => None end.
Proof.
  induction p as [|a p IH]; intros n; [reflexivity|].
  cbn [app lookup]. destruct n as [x|es]; [reflexivity|].
  destruct (dict_get a es); [apply IH|reflexivity].
Qed.

Lemma put_dir (p : path) (m : node) (es : dict node) :
  exists es', put p m (Dir es) = Dir es'.
Proof.
  destruct p as [|a [|b p]]; simpl; eauto.
  destruct (dict_get a es); eauto.
Qed.

(** Putting an empty directory at a free place makes no regular file. *)
Lemma put_no_new_file (p : path) :
  forall (q : path) (n : node) (c : str),
    lookup p n = None ->
    lookup q (put p (Dir []) n) = Some (File c) -> lookup q n = Some (File c).
Proof.
  induction p as [|a p IH]; intros q n c P L; [discriminate|].
  destruct n as [x|es]; [now rewrite put_file in L|].
  destruct q as [|b q].
  { destruct (put_dir (a :: p) (Dir []) es) as [es' E]. rewrite E in L. discriminate. }
  destruct p as [|a' p].
  - rewrite lookup_one in P. cbn [put lookup] in L. rewrite dict_get_set in L.
    cbn [lookup]. destruct (str_eqb b a) eqn:E; [|exact L].
    destruct q; discriminate.
  - rewrite put_step in L. cbn [lookup] in P.
    destruct (dict_get a es) as [n'|] eqn:G; [|exact L].
    cbn [lookup] in L. rewrite dict_get_set in L. cbn [lookup].
    destruct (str_eqb b a) eqn:E; [|exact L].
    apply str_eqb_eq in E. subst b. rewrite G. now apply (IH q n' c).
Qed.

Lemma mkdir_no_new_file (p : path) (fs fs' : node) (r : result unit) (out : list entry) :
  mkdir_exist_ok p fs = (r, fs', out) ->
  forall q, is_file (lookup q fs) = false -> is_file (lookup q fs') = false.
Proof.
  unfold mkdir_exist_ok.
  destruct (lookup p fs) as [[x|es]|] eqn:L.
  - intros E. now injection E as _ <- _.
  - intros E. now injection E as _ <- _.
  - destruct (is_dir (lookup (removelast p) fs)).
    + intros E. injection E as _ <- _. intros q Hq.
      destruct (lookup q (put p (Dir []) fs)) as [[c|es]|] eqn:Lq; try reflexivity.
      apply put_no_new_file in Lq; [|exact L]. now rewrite Lq in Hq.
    + intros E. now injection E as _ <- _.
Qed.

(** The three [mkdir] calls of the step, one after the other. *)
Ltac structure_steps S fs :=
  unfold Structure.run, Structure.create_sphinx_structure, fs_bind, fs_print;
  cbv beta iota zeta;
  let e := fresh "e" in let fs1 := fresh "fs1" in let o := fresh "o" in
  let E := fresh "E" in
  destruct (mkdir_exist_ok S fs) as [[[[]|e] fs1] o] eqn:E; cbv beta iota zeta;
  [ let e2 := fresh "e" in let fs2 := fresh "fs2" in let o2 := fresh "o" in
    let E2 := fresh "E" in
    destruct (mkdir_exist_ok (S ++ [s "_static"]) fs1) as [[[[]|e2] fs2] o2] eqn:E2;
    cbv beta iota zeta;
    [ let e3 := fresh "e" in let fs3 := fresh "fs3" in let o3 := fresh "o" in
      let E3 := fresh "E" in
      destruct (mkdir_exist_ok (S ++ [s "_templates"]) fs2) as [[[[]|e3] fs3] o3] eqn:E3;
      cbv beta iota zeta
    | ]
  | ].

(** The step creates nothing but directories and removes nothing: every
    regular file is there, unchanged, afterwards, whether the step returns
    or raises. *)
Theorem create_sphinx_structure_keeps_files
    (source_dir : path) (fs : node) (q : path) (c : str) :
  lookup q fs = Some (File c) ->
  lookup q (Structure.run source_dir fs) = Some (File c).
Proof.
  intros L. structure_steps source_dir fs; cbn [fst snd].
  - apply mkdir_returned in E, E0, E1.
    apply E1, E0, E. exact L.
  - apply mkdir_returned in E, E0. apply mkdir_raised in E1 as [-> _].
    apply E0, E. exact L.
  - apply mkdir_returned in E. apply mkdir_raised in E0 as [-> _].
    apply E. exact L.
  - apply mkdir_raised in E as [-> _]. exact L.
Qed.

Lemma create_sphinx_structure_keeps_files_witness :
  let fs := Dir [(s "docs", Dir [(s "source", Dir [(s "conf.py", File (s "x"))]);
                                 (s "main_generator.py", File (s "y"))])] in
  lookup [s "docs"; s "source"; s "conf.py"] fs = Some (File (s "x")) /\
  lookup [s "docs"; s "source"; s "conf.py"] (Structure.run [s "docs"; s "source"] fs)
  = Some (File (s "x")).
Proof.
  intros fs. split; [reflexivity|].
  exact (create_sphinx_structure_keeps_files [s "docs"; s "source"] fs
           [s "docs"; s "source"; s "conf.py"] (s "x") eq_refl).
Defined.

(** When the source directory is there or can be made and no regular file
    is in the place of [_static] or [_templates], the step returns and the
    three directories exist afterwards. *)
Theorem create_sphinx_structure_creates (source_dir : path) (fs : node) :
  can_make source_dir fs = true ->
  is_file (lookup (source_dir ++ [s "_static"]) fs) = false ->
  is_file (lookup (source_dir ++ [s "_templates"]) fs) = false ->
  exists fs' out,
    Structure.create_sphinx_structure source_dir fs = (Returned tt, fs', out) /\
    is_dir (lookup source_dir fs') = true /\
    is_dir (lookup (source_dir ++ [s "_static"]) fs') = true /\
    is_dir (lookup (source_dir ++ [s "_templates"]) fs') = true.
Proof.
  intros C F1 F2.
  unfold Structure.create_sphinx_structure, fs_bind, fs_print. cbv beta iota zeta.
  destruct (can_make_returns _ _ C) as [fs1 E1]. rewrite E1. cbv beta iota zeta.
  pose proof (mkdir_no_new_file _ _ _ _ _ E1) as N1.
  apply mkdir_returned in E1 as [_ [D1 [K1 _]]].
  assert (C2 : can_make (source_dir ++ [s "_static"]) fs1 = true).
  { rewrite can_make_child by assumption. now rewrite N1. }
  destruct (can_make_returns _ _ C2) as [fs2 E2]. rewrite E2. cbv beta iota zeta.
  pose proof (mkdir_no_new_file _ _ _ _ _ E2) as N2.
  apply mkdir_returned in E2 as [_ [D2 [K2 _]]].
  assert (C3 : can_make (source_dir ++ [s "_templates"]) fs2 = true).
  { rewrite can_make_child by now apply K2. rewrite N2; [reflexivity|]. now apply N1. }
  destruct (can_make_returns _ _ C3) as [fs3 E3]. rewrite E3. cbv beta iota zeta.
  apply mkdir_returned in E3 as [_ [D3 [K3 _]]].
  eexists. eexists. split; [reflexivity|]. repeat split; auto.
Qed.

Lemma create_sphinx_structure_creates_witness :
  let fs := Dir [(s "docs", Dir [(s "source", Dir [(s "_static", Dir [(s "logo.png", File [])])])])] in
  let src := Structure.source_dir false [s "docs"] in
  can_make src fs = true /\
  is_file (lookup (src ++ [s "_static"]) fs) = false /\
  is_file (lookup (src ++ [s "_templates"]) fs) = false /\
  exists fs' out,
    Structure.create_sphinx_structure src fs = (Returned tt, fs', out) /\
    is_dir (lookup src fs') = true /\
    is_dir (lookup (src ++ [s "_static"]) fs') = true /\
    is_dir (lookup (src ++ [s "_templates"]) fs') = true.
Proof.
  intros fs src. split; [reflexivity|]. split; [reflexivity|]. split; [reflexivity|].
  exact (create_sphinx_structure_creates src fs eq_refl eq_refl eq_refl).
Defined.

(** Running the step again on the file system it has left changes nothing
    more, whether the first run returned or raised. *)
Theorem create_sphinx_structure_idempotent (source_dir : path) (fs : node) :
  Structure.run source_dir (Structure.run source_dir fs) = Structure.run source_dir fs.
Proof.
  destruct (Structure.create_sphinx_structure source_dir fs) as [[r fs'] out] eqn:R.
  assert (Hrun : Structure.run source_dir fs = fs') by (unfold Structure.run; now rewrite R).
  rewrite Hrun. revert R.
  unfold Structure.create_sphinx_structure, fs_bind, fs_print. cbv beta iota zeta.
  destruct (mkdir_exist_ok source_dir fs) as [[[[]|e1] fs1] o1] eqn:E1; cbv beta iota zeta.
  2:{ intros R. injection R as _ <- _. apply mkdir_raised in E1 as [-> _].
      now rewrite Hrun. }
  pose proof (mkdir_returned _ _ _ _ E1) as [_ [D1 [K1 _]]].
  destruct (mkdir_exist_ok (source_dir ++ [s "_static"]) fs1)
    as [[[[]|e2] fs2] o2] eqn:E2; cbv beta iota zeta.
  2:{ intros R. injection R as _ <- _.
      pose proof (mkdir_raised _ _ _ _ _ E2) as [-> _].
      unfold Structure.run, Structure.create_sphinx_structure, fs_bind, fs_print.
      cbv beta iota zeta. rewrite (mkdir_existing _ _ D1). cbv beta iota zeta.
      now rewrite E2. }
  pose proof (mkdir_returned _ _ _ _ E2) as [_ [D2 [K2 _]]].
  destruct (mkdir_exist_ok (source_dir ++ [s "_templates"]) fs2)
    as [[[[]|e3] fs3] o3] eqn:E3; cbv beta iota zeta.
  2:{ intros R. injection R as _ <- _.
      pose proof (mkdir_raised _ _ _ _ _ E3) as [-> _].
      unfold Structure.run, Structure.create_sphinx_structure, fs_bind, fs_print.
      cbv beta iota zeta. rewrite (mkdir_existing _ _ (K2 _ D1)). cbv beta iota zeta.
      rewrite (mkdir_existing _ _ D2). cbv beta iota zeta.
      now rewrite E3. }
  pose proof (mkdir_returned _ _ _ _ E3) as [_ [D3 [K3 _]]].
  intros R. injection R as _ <- _.
  unfold Structure.run, Structure.create_sphinx_structure, fs_bind, fs_print.
  cbv beta iota zeta.
  rewrite (mkdir_existing _ _ (K3 _ (K2 _ D1))). cbv beta iota zeta.
  rewrite (mkdir_existing _ _ (K3 _ D2)). cbv beta iota zeta.
  now rewrite (mkdir_existing _ _ D3).
Qed.

End ScaffoldMore.

(** ** The module pages and the external-doc fetcher *)

Section ModulePages.

Import Scaffold GoDoc.



(** *** Writing a file *)

Lemma lookup_snoc (q : path) (c : str) (n : node) :
  lookup (q ++ [c]) n
  = match lookup q n with Some (Dir es) => dict_get c es | _ => None end.
Proof.
  rewrite lookup_app. destruct (lookup q n) as [[x|es]|]; [reflexivity| |reflexivity].
  apply lookup_one.
Qed.

Lemma lookup_put_parent (q : path) (c : str) (m : node) :
  forall n es,
    lookup q n = Some (Dir es) ->
    lookup q (put (q ++ [c]) m n) = Some (Dir (dict_set c m es)).
Proof.
  induction q as [|a q IH]; intros n es H.
  - cbn in H. injection H as ->. reflexivity.
  - destruct n as [x|es0]; [discriminate|]. cbn [lookup] in H.
    destruct (dict_get a es0) as [n'|] eqn:G; [|discriminate].
    destruct (snoc_cons q c) as [b [r E]].
    cbn [app] in *. rewrite E in *. rewrite put_step, G.
    cbn [lookup]. rewrite dict_get_set_same. now apply IH.
Qed.

Lemma all_files_get (es : dict node) (k : str) (m : node) :
  all_files es = true -> dict_get k es = Some m -> is_file (Some m) = true.
Proof.
  unfold all_files. induction es as [|[k' v] r IH]; [discriminate|].
  cbn [forallb dict_get snd]. intros H G. apply andb_prop in H as [H1 H2].
  destruct (str_eqb k k'); [injection G as <-; exact H1|now apply IH].
Qed.

Lemma all_files_set (es : dict node) (k c : str) :
  all_files es = true -> all_files (dict_set k (File c) es) = true.
Proof.
  unfold all_files. induction es as [|[k' v] r IH]; [reflexivity|].
  cbn [forallb dict_set snd]. intros H. apply andb_prop in H as [H1 H2].
  destruct (str_eqb k k'); cbn [forallb snd].
  - now rewrite H2.
  - now rewrite H1, IH.
Qed.

(** In a directory of regular files every write succeeds, and the directory
    stays one of regular files. *)
Lemma write_file_in_dir (md : path) (name content : str) (fs : node) :
  holds_only_files md fs = true ->
  write_file (md ++ [name]) content fs
  = (Returned tt, put (md ++ [name]) (File content) fs, []) /\
  holds_only_files md (put (md ++ [name]) (File content) fs) = true.
Proof.
  unfold holds_only_files. intros H.
  destruct (lookup md fs) as [[x|es]|] eqn:L; try discriminate.
  split.
  - unfold write_file. rewrite lookup_snoc, removelast_last, L.
    destruct (dict_get name es) as [[y|es']|] eqn:G; [reflexivity| |reflexivity].
    pose proof (all_files_get es name _ H G). discriminate.
  - rewrite (lookup_put_parent md name (File content) fs es L). now apply all_files_set.
Qed.

Lemma write_file_writable (p : path) (content : str) (fs : node) :
  writable p fs = true ->
  write_file p content fs = (Returned tt, put p (File content) fs, []).
Proof.
  unfold writable, write_file.
  destruct (lookup p fs) as [[x|es]|]; [reflexivity|discriminate|].
  now intros ->.
Qed.

Lemma write_file_unwritable (p : path) (content : str) (fs : node) :
  writable p fs = false -> exists e, write_file p content fs = (Raised e, fs, []).
Proof.
  unfold writable, write_file.
  destruct (lookup p fs) as [[x|es]|]; [discriminate|eauto|].
  intros ->. destruct (through_file p fs); eauto.
Qed.

Lemma writable_parent (q : path) (c : str) (fs : node) :
  writable (q ++ [c]) fs = true -> is_dir (lookup q fs) = true.
Proof.
  unfold writable. destruct (lookup (q ++ [c]) fs) as [[x|es]|] eqn:L; [|discriminate|].
  - intros _. apply (lookup_parent q c). congruence.
  - now rewrite removelast_last.
Qed.

(** Putting a node in the place of a regular file keeps every other regular
    file. *)
Lemma put_over_file (p : path) (m : node) :
  forall (q : path) (n : node) (x c : str),
    lookup p n = Some (File x) -> lookup q n = Some (File c) -> q <> p ->
    lookup q (put p m n) = Some (File c).
Proof.
  induction p as [|a p IH]; intros q n x c P L N.
  - cbn in P. injection P as ->. destruct q; [contradiction|discriminate].
  - destruct n as [y|es]; [now rewrite put_file|].
    destruct q as [|b q]; [discriminate|].
    cbn [lookup] in L, P.
    destruct p as [|a' p].
    + cbn [put lookup]. rewrite dict_get_set.
      destruct (str_eqb b a) eqn:E; [|exact L].
      apply str_eqb_eq in E. subst b.
      destruct (dict_get a es) as [n'|]; [|discriminate].
      cbn in P. injection P as ->.
      destruct q; [now contradiction N|discriminate].
    + rewrite put_step. destruct (dict_get a es) as [n'|] eqn:G; [|discriminate].
      cbn [lookup]. rewrite dict_get_set.
      destruct (str_eqb b a) eqn:E; [|exact L].
      apply str_eqb_eq in E. subst b. rewrite G in L.
      apply (IH q n' x c P L). intros ->. now apply N.
Qed.

(** A write changes no regular file but the one it writes, whether it
    returns or raises. *)
Lemma write_file_keeps (p : path) (content : str) (fs fs' : node)
    (r : result unit) (out : list entry) :
  write_file p content fs = (r, fs', out) ->
  forall q c, lookup q fs = Some (File c) -> q <> p -> lookup q fs' = Some (File c).
Proof.
  unfold write_file.
  destruct (lookup p fs) as [[x|es]|] eqn:L.
  - intros E. injection E as _ <- _. intros q c Hq N.
    now apply (put_over_file p (File content) q fs x c).
  - intros E. now injection E as _ <- _.
  - destruct (is_dir (lookup (removelast p) fs)).
    + intros E. injection E as _ <- _. intros q c Hq _. now apply put_keeps_file.
    + destruct (through_file p fs); intros E; now injection E as _ <- _.
Qed.

(** *** One module *)

(** The step for a module that has Go files: fetch, then write. *)
Lemma create_module_documentation_writes
    (w : world) (m : str) (modules_dir : path) (fs : node)
    (names : list str) (doc : str) (out : list entry) :
  module_dir w m = Some names -> truthy (go_files names) = true ->
  get_go_doc_for_package w m = (Returned doc, out) ->
  create_module_documentation w m modules_dir fs
  = match write_file (module_page modules_dir m)
            (if truthy doc then (s "# " ++ title m ++ [nl; nl]) ++ doc ++ [nl; nl]
             else s "# " ++ title m ++ [nl; nl]) fs with
    | (Returned _, fs', o) =>
        (Returned tt, fs',
         out ++ o ++ [ok (s "Documentation created for module " ++ m ++ s " using go doc")])
    | (Raised e, fs', o) => (Raised e, fs', out ++ o)
    end.
Proof.
  intros Hd Hg E. unfold create_module_documentation, module_page.
  rewrite Hd, Hg. cbn [negb]. unfold fs_bind at 1. unfold lift.
  rewrite E. cbn [fst snd]. unfold fs_bind, fs_print.
  destruct (write_file _ _ fs) as [[[[]|e] fs1] o1]; reflexivity.
Qed.

Lemma create_module_documentation_returns
    (w : world) (m : str) (modules_dir : path) (fs : node) :
  holds_only_files modules_dir fs = true ->
  exists fs' out,
    create_module_documentation w m modules_dir fs = (Returned tt, fs', out) /\
    holds_only_files modules_dir fs' = true.
Proof.
  intros H.
  destruct (module_dir w m) as [names|] eqn:Hd.
  2:{ unfold create_module_documentation. rewrite Hd.
      eexists; eexists; split; [reflexivity|exact H]. }
  destruct (truthy (go_files names)) eqn:Hg.
  2:{ unfold create_module_documentation. rewrite Hd, Hg.
      eexists; eexists; split; [reflexivity|exact H]. }
  destruct (get_go_doc_returns w m) as [doc [out E]].
  rewrite (create_module_documentation_writes w m modules_dir fs names doc out Hd Hg E).
  unfold module_page, child.
  match goal with
  | |- context [write_file (?d ++ [?f]) ?c fs] =>
      destruct (write_file_in_dir d f c fs H) as [W R]; rewrite W
  end.
  eexists; eexists; split; [reflexivity|exact R].
Qed.

Lemma create_module_documentation_keeps
    (w : world) (m : str) (modules_dir : path) (fs fs' : node)
    (r : result unit) (out : list entry) :
  create_module_documentation w m modules_dir fs = (r, fs', out) ->
  forall q c,
    lookup q fs = Some (File c) -> q <> module_page modules_dir m ->
    lookup q fs' = Some (File c).
Proof.
  destruct (module_dir w m) as [names|] eqn:Hd.
  2:{ unfold create_module_documentation. rewrite Hd.
      intros E. now injection E as _ <- _. }
  destruct (truthy (go_files names)) eqn:Hg.
  2:{ unfold create_module_documentation. rewrite Hd, Hg.
      intros E. now injection E as _ <- _. }
  destruct (get_go_doc_returns w m) as [doc [o E]].
  rewrite (create_module_documentation_writes w m modules_dir fs names doc o Hd Hg E).
  match goal with
  | |- context [write_file ?p ?c fs] =>
      destruct (write_file p c fs) as [[[[]|e] fs1] o1] eqn:W
  end.
  - intros R. injection R as _ <- _. now apply (write_file_keeps _ _ _ _ _ _ W).
  - intros R. injection R as _ <- _. now apply (write_file_keeps _ _ _ _ _ _ W).
Qed.

(** *** The loop over the modules *)

Lemma for_modules_returns (w : world) (modules : list str) (modules_dir : path) :
  forall fs,
    holds_only_files modules_dir fs = true ->
    exists fs' out, for_modules w modules modules_dir fs = (Returned tt, fs', out).
Proof.
  induction modules as [|m r IH]; intros fs H.
  - eexists; eexists; reflexivity.
  - cbn [for_modules]. unfold fs_bind.
    destruct (create_module_documentation_returns w m modules_dir fs H)
      as [fs1 [o1 [-> H1]]].
    destruct (IH fs1 H1) as [fs2 [o2 ->]].
    eexists; eexists; reflexivity.
Qed.

Lemma for_modules_keeps (w : world) (modules : list str) (modules_dir : path) :
  forall (fs fs' : node) (r : result unit) (out : list entry),
    for_modules w modules modules_dir fs = (r, fs', out) ->
    forall q c,
      lookup q fs = Some (File c) ->
      (forall m, In m modules -> q <> module_page modules_dir m) ->
      lookup q fs' = Some (File c).
Proof.
  induction modules as [|m l IH]; intros fs fs' r out E q c L N.
  - injection E as _ <- _. exact L.
  - cbn [for_modules] in E. unfold fs_bind in E.
    destruct (create_module_documentation w m modules_dir fs)
      as [[[[]|e] fs1] o1] eqn:E1.
    + pose proof (create_module_documentation_keeps _ _ _ _ _ _ _ E1 q c L
                    (N m (or_introl eq_refl))) as L1.
      destruct (for_modules w l modules_dir fs1) as [[r2 fs2] o2] eqn:E2.
      injection E as _ <- _.
      apply (IH _ _ _ _ E2 q c L1). intros m' Hm'. apply N. now right.
    + injection E as _ <- _.
      apply (create_module_documentation_keeps _ _ _ _ _ _ _ E1 q c L).
      apply N. now left.
Qed.

Lemma mkdir_pages_dir (p : path) (fs : node) :
  pages_dir_ok p fs = true ->
  exists fs', mkdir_exist_ok p fs = (Returned tt, fs', []) /\ holds_only_files p fs' = true.
Proof.
  unfold pages_dir_ok, mkdir_exist_ok, holds_only_files.
  destruct (lookup p fs) as [[x|es]|] eqn:L; [discriminate| |].
  - intros H. exists fs. split; [reflexivity|]. now rewrite L.
  - intros H. rewrite H. eexists. split; [reflexivity|].
    assert (Hne : p <> []) by (intros ->; discriminate).
    now rewrite lookup_put_any.
Qed.

Lemma create_modules_documentation_returns (w : world) (source_dir : path) (fs : node) :
  pages_dir_ok (source_dir ++ [s "modules"]) fs = true ->
  exists fs' out, create_modules_documentation w source_dir fs = (Returned tt, fs', out).
Proof.
  intros H. unfold create_modules_documentation, child, fs_bind, fs_print.
  cbv beta iota zeta.
  destruct (mkdir_pages_dir _ _ H) as [fs1 [-> H1]].
  destruct (for_modules_returns w go_modules _ fs1 H1) as [fs2 [o2 ->]].
  eexists; eexists; reflexivity.
Qed.

(** C7: when [go doc] cannot be run, times out or ends with a status other
    than zero, the fetcher returns the empty string, logs one warning and
    raises nothing.  Its caller goes on to write the page of the module, the
    title alone, and the loop over the modules goes on to its end: where the
    pages can be written, step and loop return, whatever [go doc] does. *)
Theorem go_doc_failure_is_soft (w : world) (module_name : str) :
  failed (go_doc_all w module_name) ->
  (exists msg, get_go_doc_for_package w module_name = (Returned [], [warn msg])) /\
  (forall names modules_dir fs,
     module_dir w module_name = Some names -> go_files names <> [] ->
     is_ascii module_name = true ->
     writable (module_page modules_dir module_name) fs = true ->
     exists msg,
       create_module_documentation w module_name modules_dir fs
       = (Returned tt,
          put (module_page modules_dir module_name)
            (File (s "# " ++ title module_name ++ [nl; nl])) fs,
          [warn msg;
           ok (s "Documentation created for module " ++ module_name ++ s " using go doc")])) /\
  (forall source_dir fs,
     pages_dir_ok (source_dir ++ [s "modules"]) fs = true ->
     exists fs' out,
       create_modules_documentation w source_dir fs = (Returned tt, fs', out)).
Proof.
  intros F. destruct (get_go_doc_failed w module_name F) as [msg E].
  split; [now exists msg|]. split.
  - intros names modules_dir fs Hd Hg _ Hw. exists msg.
    apply truthy_true in Hg.
    rewrite (create_module_documentation_writes w module_name modules_dir fs
               names [] [warn msg] Hd Hg E).
    cbn [truthy]. now rewrite (write_file_writable _ _ _ Hw).
  - intros source_dir fs H. now apply create_modules_documentation_returns.
Qed.

Lemma go_doc_failure_is_soft_witness :
  let w :=
    mk_world (Returned tt)
      (fun m => if str_eqb m (s "client") then Raised TimeoutExpired
                else Returned (mk_completed 1 []))
      (Returned tt)
      (fun m => Some [m ++ s ".go"; m ++ s "_test.go"]) in
  let fs := Dir [(s "source", Dir [(s "index.rst", File (s "index"))])] in
  let made := Dir [(s "source", Dir [(s "index.rst", File (s "index")); (s "modules", Dir [])])] in
  failed (go_doc_all w (s "compute")) /\
  (exists msg, get_go_doc_for_package w (s "compute") = (Returned [], [warn msg])) /\
  go_files [s "compute.go"; s "compute_test.go"] <> [] /\
  is_ascii (s "compute") = true /\
  writable (module_page [s "source"; s "modules"] (s "compute")) made = true /\
  (exists msg,
     create_module_documentation w (s "compute") [s "source"; s "modules"] made
     = (Returned tt,
        Dir [(s "source",
              Dir [(s "index.rst", File (s "index"));
                   (s "modules", Dir [(s "compute.md", File (text ["# Compute"; ""; ""]))])])],
        [warn msg; ok (s "Documentation created for module compute using go doc")])) /\
  pages_dir_ok ([s "source"] ++ [s "modules"]) fs = true /\
  (exists fs' out, create_modules_documentation w [s "source"] fs = (Returned tt, fs', out)).
Proof.
  intros w fs made.
  assert (F : failed (go_doc_all w (s "compute"))) by discriminate.
  assert (G : go_files [s "compute.go"; s "compute_test.go"] <> []) by discriminate.
  destruct (go_doc_failure_is_soft w (s "compute") F) as [H1 [H2 H3]].
  split; [exact F|]. split; [exact H1|]. split; [exact G|].
  split; [reflexivity|]. split; [reflexivity|]. split.
  - exact (H2 [s "compute.go"; s "compute_test.go"] [s "source"; s "modules"] made
             eq_refl G eq_refl eq_refl).
  - split; [reflexivity|]. exact (H3 [s "source"] fs eq_refl).
Defined.



(** The loop over the modules leaves every regular file but the pages named
    after the twelve modules as it was, whether it returns or raises and
    whatever the commands do.  It raises at once, before any page, when a
    regular file is in the place of the directory of module pages. *)
Theorem create_modules_documentation_only_module_pages
    (w : world) (source_dir : path) (fs : node) :
  (forall q c,
     lookup q fs = Some (File c) ->
     (forall m, In m go_modules -> q <> module_page (source_dir ++ [s "modules"]) m) ->
     lookup q (after_modules w source_dir fs) = Some (File c)) /\
  (is_file (lookup (source_dir ++ [s "modules"]) fs) = true ->
   create_modules_documentation w source_dir fs
   = (Raised (OtherException (s "FileExistsError")), fs,
      [info (s "Creating module documentation...")])).
Proof.
  split.
  - intros q c L N.
    unfold after_modules, create_modules_documentation, child, fs_bind, fs_print.
    cbv beta iota zeta.
    destruct (mkdir_exist_ok (source_dir ++ [s "modules"]) fs)
      as [[[[]|e] fs1] o1] eqn:E1; cbv beta iota zeta.
    + apply mkdir_returned in E1 as [_ [_ [_ K]]].
      destruct (for_modules w go_modules (source_dir ++ [s "modules"]) fs1)
        as [[r2 fs2] o2] eqn:E2.
      cbn [fst snd]. apply (for_modules_keeps _ _ _ _ _ _ _ E2 q c (K q c L) N).
    + apply mkdir_raised in E1 as [-> _]. exact L.
  - intros H.
    unfold create_modules_documentation, child, fs_bind, fs_print, mkdir_exist_ok.
    cbv beta iota zeta.
    destruct (lookup (source_dir ++ [s "modules"]) fs) as [[x|es]|]; try discriminate.
    reflexivity.
Qed.

Lemma not_module_page_check (modules_dir : path) (f : str) :
  forallb (fun m => negb (str_eqb f (m ++ s ".md"))) go_modules = true ->
  forall m, In m go_modules -> modules_dir ++ [f] <> module_page modules_dir m.
Proof.
  intros H m Hm E. unfold module_page in E. apply app_inv_head in E.
  injection E as E. rewrite forallb_forall in H. specialize (H m Hm).
  rewrite E, str_eqb_refl in H. discriminate.
Qed.

Lemma create_modules_documentation_only_module_pages_witness :
  let w :=
    mk_world (Returned tt) (fun _ => Raised TimeoutExpired) (Returned tt)
      (fun m => Some [m ++ s ".go"]) in
  let fs :=
    Dir [(s "source",
          Dir [(s "modules",
                Dir [(s "index.md", File (s "kept")); (s "client.md", File (s "old"))])])] in
  let blocked := Dir [(s "source", Dir [(s "modules", File (s "notes"))])] in
  lookup ([s "source"; s "modules"] ++ [s "index.md"]) fs = Some (File (s "kept")) /\
  (forall m, In m go_modules ->
     [s "source"; s "modules"] ++ [s "index.md"]
     <> module_page ([s "source"] ++ [s "modules"]) m) /\
  lookup ([s "source"; s "modules"] ++ [s "index.md"]) (after_modules w [s "source"] fs)
  = Some (File (s "kept")) /\
  is_file (lookup ([s "source"] ++ [s "modules"]) blocked) = true /\
  create_modules_documentation w [s "source"] blocked
  = (Raised (OtherException (s "FileExistsError")), blocked,
     [info (s "Creating module documentation...")]).
Proof.
  intros w fs blocked.
  assert (N : forall m, In m go_modules ->
                [s "source"; s "modules"] ++ [s "index.md"]
                <> module_page ([s "source"] ++ [s "modules"]) m)
    by (apply (not_module_page_check [s "source"; s "modules"]); reflexivity).
  destruct (create_modules_documentation_only_module_pages w [s "source"] fs) as [H1 _].
  destruct (create_modules_documentation_only_module_pages w [s "source"] blocked)
    as [_ H2].
  split; [reflexivity|]. split; [exact N|]. split.
  { exact (H1 ([s "source"; s "modules"] ++ [s "index.md"]) (s "kept") eq_refl N). }
  split; [reflexivity|]. exact (H2 eq_refl).
Defined.

(** When [go doc] succeeds for a module with Go files and an ASCII name,
    and the page can be written, the page is the title line, an empty line,
    and the cleaned output followed by an empty line; a non-blank output
    that cleans to nothing gives the title alone, with no warning. *)
Theorem module_page_content
    (w : world) (module_name : str) (names : list str) (modules_dir : path)
    (fs : node) (c : completed) :
  module_dir w module_name = Some names -> go_files names <> [] ->
  chdir_project_root w = Returned tt -> chdir_original_cwd w = Returned tt ->
  go_doc_all w module_name = Returned c ->
  returncode c = 0%Z -> strip (stdout c) <> [] ->
  is_ascii module_name = true ->
  writable (module_page modules_dir module_name) fs = true ->
  exists fs',
    create_module_documentation w module_name modules_dir fs
    = (Returned tt, fs',
       [ok (s "Documentation created for module " ++ module_name ++ s " using go doc")]) /\
    lookup (module_page modules_dir module_name) fs'
    = Some (File (s "# " ++ title module_name ++ [nl; nl]
                  ++ (if truthy (clean_go_doc_output (stdout c))
                      then clean_go_doc_output (stdout c) ++ [nl; nl] else []))).
Proof.
  intros Hd Hg H1 H2 H3 Hrc Hout _ Hw.
  apply truthy_true in Hg, Hout.
  assert (E : get_go_doc_for_package w module_name
              = (Returned (clean_go_doc_output (stdout c)), [])).
  { unfold get_go_doc_for_package, os_chdir, subprocess_run.
    rewrite H1, H2, H3. cbn [bind try_except]. now rewrite Hrc, Hout. }
  rewrite (create_module_documentation_writes w module_name modules_dir fs
             names _ [] Hd Hg E).
  rewrite (write_file_writable _ _ _ Hw).
  eexists. split; [reflexivity|].
  unfold module_page, child in *.
  rewrite lookup_put by now apply (writable_parent _ _ _ Hw).
  destruct (truthy (clean_go_doc_output (stdout c)));
    rewrite <- ?app_assoc, ?app_nil_r; reflexivity.
Qed.

Lemma module_page_content_witness :
  let c := mk_completed 0 (text ["package client // import"; ""; "Package client.";
                                 ""; "func New() *Client"; "    New returns a client."]) in
  let w := mk_world (Returned tt) (fun _ => Returned c) (Returned tt)
             (fun m => Some [m ++ s ".go"]) in
  let fs := Dir [(s "modules", Dir [(s "client.md", File (s "old"))])] in
  module_dir w (s "client") = Some [s "client.go"] /\
  go_files [s "client.go"] <> [] /\
  chdir_project_root w = Returned tt /\ chdir_original_cwd w = Returned tt /\
  go_doc_all w (s "client") = Returned c /\
  returncode c = 0%Z /\ strip (stdout c) <> [] /\
  is_ascii (s "client") = true /\
  writable (module_page [s "modules"] (s "client")) fs = true /\
  exists fs',
    create_module_documentation w (s "client") [s "modules"] fs
    = (Returned tt, fs',
       [ok (s "Documentation created for module " ++ s "client" ++ s " using go doc")]) /\
    lookup (module_page [s "modules"] (s "client")) fs'
    = Some (File (s "# " ++ title (s "client") ++ [nl; nl]
                  ++ (if truthy (clean_go_doc_output (stdout c))
                      then clean_go_doc_output (stdout c) ++ [nl; nl] else []))).
Proof.
  intros c w fs.
  assert (G : go_files [s "client.go"] <> []) by discriminate.
  assert (B : strip (stdout c) <> []) by discriminate.
  split; [reflexivity|]. split; [exact G|]. split; [reflexivity|].
  split; [reflexivity|]. split; [reflexivity|]. split; [reflexivity|].
  split; [exact B|]. split; [reflexivity|]. split; [reflexivity|].
  exact (module_page_content w (s "client") [s "client.go"] [s "modules"] fs c
           eq_refl G eq_refl eq_refl eq_refl eq_refl B eq_refl eq_refl).
Defined.

(** When the page of a module with Go files cannot be written, because a
    directory is in its place or the directory of module pages is not
    there, the step raises once [go doc] has run: it writes nothing and logs
    no line but the warnings of the fetcher, and the loop over the modules
    ends there, before the modules that follow. *)
Theorem module_page_write_raises
    (w : world) (module_name : str) (names : list str) (modules_dir : path) (fs : node) :
  module_dir w module_name = Some names -> go_files names <> [] ->
  writable (module_page modules_dir module_name) fs = false ->
  exists e out,
    create_module_documentation w module_name modules_dir fs = (Raised e, fs, out) /\
    Forall (fun x => entry_level x = Warning) out /\
    forall rest, for_modules w (module_name :: rest) modules_dir fs = (Raised e, fs, out).
Proof.
  intros Hd Hg Hw. apply truthy_true in Hg.
  destruct (get_go_doc_warns w module_name) as [doc [out [E L]]].
  destruct (write_file_unwritable (module_page modules_dir module_name)
              (if truthy doc
               then (s "# " ++ title module_name ++ [nl; nl]) ++ doc ++ [nl; nl]
               else s "# " ++ title module_name ++ [nl; nl]) fs Hw) as [e W].
  assert (R : create_module_documentation w module_name modules_dir fs
              = (Raised e, fs, out)).
  { rewrite (create_module_documentation_writes w module_name modules_dir fs
               names doc out Hd Hg E).
    rewrite W. now rewrite app_nil_r. }
  exists e, out. split; [exact R|]. split; [exact L|].
  intros rest. cbn [for_modules]. unfold fs_bind. now rewrite R.
Qed.

Lemma module_page_write_raises_witness :
  let w := mk_world (Returned tt) (fun _ => Returned (mk_completed 0 (s "x y")))
             (Returned tt) (fun m => Some [m ++ s ".go"]) in
  let fs := Dir [(s "modules", Dir [(s "client.md", Dir []); (s "audit.md", File (s "old"))])] in
  module_dir w (s "client") = Some [s "client.go"] /\
  go_files [s "client.go"] <> [] /\
  writable (module_page [s "modules"] (s "client")) fs = false /\
  exists e out,
    create_module_documentation w (s "client") [s "modules"] fs = (Raised e, fs, out) /\
    Forall (fun x => entry_level x = Warning) out /\
    forall rest, for_modules w (s "client" :: rest) [s "modules"] fs = (Raised e, fs, out).
Proof.
  intros w fs.
  assert (G : go_files [s "client.go"] <> []) by discriminate.
  split; [reflexivity|]. split; [exact G|]. split; [reflexivity|].
  exact (module_page_write_raises w (s "client") [s "client.go"] [s "modules"] fs
           eq_refl G eq_refl).
Defined.

End ModulePages.

(** ** The index and the example pages *)

Section ExamplesMore.

Import Scaffold Examples.

Lemma str_leb_total (a : str) : forall b, str_leb a b = false -> str_leb b a = true.
Proof.
  induction a as [|x a IH]; intros [|y b]; simpl; try discriminate; try reflexivity.
  destruct (Nat.ltb_spec (nat_of_ascii x) (nat_of_ascii y)); [discriminate|].
  destruct (Nat.eqb_spec (nat_of_ascii x) (nat_of_ascii y)) as [E|E].
  - rewrite E, Nat.ltb_irrefl, Nat.eqb_refl. apply IH.
  - intros _. destruct (Nat.ltb_spec (nat_of_ascii y) (nat_of_ascii x)); [reflexivity|lia].
Qed.

Lemma str_leb_trans (a : str) :
  forall b c, str_leb a b = true -> str_leb b c = true -> str_leb a c = true.
Proof.
  induction a as [|x a IH]; intros [|y b] [|z c]; simpl; try discriminate; try reflexivity.
  destruct (Nat.ltb_spec (nat_of_ascii x) (nat_of_ascii y)) as [L1|L1];
    destruct (Nat.ltb_spec (nat_of_ascii y) (nat_of_ascii z)) as [L2|L2];
    destruct (Nat.ltb_spec (nat_of_ascii x) (nat_of_ascii z)) as [L3|L3];
    try reflexivity; try lia;
    destruct (Nat.eqb_spec (nat_of_ascii x) (nat_of_ascii y));
    destruct (Nat.eqb_spec (nat_of_ascii y) (nat_of_ascii z));
    destruct (Nat.eqb_spec (nat_of_ascii x) (nat_of_ascii z));
    try discriminate; try lia.
  apply IH.
Qed.

Lemma insert_entry_in (e x : str * node) (l : list (str * node)) :
  In x (insert_entry e l) <-> x = e \/ In x l.
Proof.
  induction l as [|h r IH]; simpl; [intuition|].
  destruct (str_leb (fst e) (fst h)); simpl; [intuition|].
  rewrite IH. intuition.
Qed.

Lemma insert_entry_sorted (e : str * node) (l : list (str * node)) :
  StronglySorted by_name l -> StronglySorted by_name (insert_entry e l).
Proof.
  induction l as [|h r IH]; intros H; simpl.
  - repeat constructor.
  - apply StronglySorted_inv in H as [Hr Hh].
    destruct (str_leb (fst e) (fst h)) eqn:E.
    + constructor; [now constructor|]. constructor; [exact E|].
      rewrite Forall_forall in *. intros x Hx. unfold by_name in *.
      eapply str_leb_trans; [exact E|now apply Hh].
    + constructor; [now apply IH|].
      rewrite Forall_forall in *. intros x Hx.
      apply insert_entry_in in Hx as [->|Hx]; [|now apply Hh].
      now apply str_leb_total.
Qed.

Lemma sorted_entries_in (es : dict node) (x : str * node) :
  In x (sorted_entries es) <-> In x es.
Proof.
  unfold sorted_entries. induction es as [|e r IH]; simpl; [tauto|].
  rewrite insert_entry_in, IH. intuition.
Qed.

Lemma sorted_entries_sorted (es : dict node) : StronglySorted by_name (sorted_entries es).
Proof.
  unfold sorted_entries. induction es as [|e r IH]; simpl; [constructor|].
  now apply insert_entry_sorted.
Qed.

Lemma filter_sorted (f : str * node -> bool) (l : list (str * node)) :
  StronglySorted by_name l -> StronglySorted by_name (filter f l).
Proof.
  induction l as [|h r IH]; intros H; simpl; [constructor|].
  apply StronglySorted_inv in H as [Hr Hh].
  destruct (f h); [|now apply IH].
  constructor; [now apply IH|].
  rewrite Forall_forall in *. intros x Hx. apply filter_In in Hx as [Hx _].
  now apply Hh.
Qed.

(** The entries that pass the two tests of the loops, in the order of their
    names by code points. *)
Lemma example_dirs_in_order (es : dict node) :
  StronglySorted by_name (example_dirs es) /\
  (forall name n, In (name, n) (example_dirs es) <-> In (name, n) es /\ has_main n = true).
Proof.
  split; [apply filter_sorted, sorted_entries_sorted|].
  intros name n. unfold example_dirs. rewrite filter_In, sorted_entries_in.
  reflexivity.
Qed.

Lemma dict_mem_get {V} (k : str) (d : dict V) :
  dict_mem k d = true <-> dict_get k d <> None.
Proof. unfold dict_mem. destruct (dict_get k d); split; congruence. Qed.

Lemma write_examples_files (dirs : list (str * node)) :
  forall d,
    exists pages out,
      write_examples dirs d = (Returned pages, out) /\
      (forall f, dict_get f d <> None -> dict_get f pages <> None) /\
      (forall name n, In (name, n) dirs -> has_main n = true ->
         dict_get (display_name name ++ s ".md") pages <> None) /\
      (forall f, dict_get f pages <> dict_get f d ->
         exists name n, In (name, n) dirs /\ has_main n = true /\
                        f = display_name name ++ s ".md").
Proof.
  induction dirs as [|[name n] r IH]; intros d.
  - exists d, []. repeat split; tauto.
  - cbn [write_examples].
    assert (Skip : has_main n = false ->
              exists pages out,
                write_examples r d = (Returned pages, out) /\
                (forall f, dict_get f d <> None -> dict_get f pages <> None) /\
                (forall name0 n0, In (name0, n0) ((name, n) :: r) -> has_main n0 = true ->
                   dict_get (display_name name0 ++ s ".md") pages <> None) /\
                (forall f, dict_get f pages <> dict_get f d ->
                   exists name0 n0, In (name0, n0) ((name, n) :: r) /\ has_main n0 = true /\
                                    f = display_name name0 ++ s ".md")).
    { intros Hn. destruct (IH d) as [pages [out [E [K [W O]]]]].
      exists pages, out. split; [exact E|]. split; [exact K|]. split.
      - intros name0 n0 [X|X] H0; [|now apply (W name0 n0)].
        injection X as <- <-. congruence.
      - intros f Hf. destruct (O f Hf) as [name0 [n0 [I [H0 F]]]].
        exists name0, n0. split; [now right|]. now split. }
    destruct n as [x|es]; [now apply Skip|].
    destruct (dict_get (s "main.go") es) as [main_file|] eqn:G.
    2:{ apply Skip. unfold has_main, dict_mem. now rewrite G. }
    clear Skip.
    destruct (IH (dict_set (display_name name ++ s ".md")
                    (example_content name main_file) d))
      as [pages [out [E [K [W O]]]]].
    cbn [print bind]. rewrite E. eexists. eexists. split; [reflexivity|]. split; [|split].
    + intros f Hf. apply K. rewrite dict_get_set.
      now destruct (str_eqb f (display_name name ++ s ".md")).
    + intros name0 n0 [X|X] H0; [|now apply (W name0 n0)].
      injection X as <- <-. apply K. now rewrite dict_get_set_same.
    + intros f Hf.
      destruct (str_eqb f (display_name name ++ s ".md")) eqn:Ef.
      * apply str_eqb_eq in Ef. exists name, (Dir es). split; [now left|].
        split; [|exact Ef]. unfold has_main, dict_mem. now rewrite G.
      * destruct (O f) as [name0 [n0 [I [H0 F]]]].
        { rewrite dict_get_set, Ef. exact Hf. }
        exists name0, n0. split; [now right|]. now split.
Qed.

(** The index and the example pages agree: for the same examples directory,
    every entry [examples/X] of the index has its page [X.md] after the
    example pages are written, and every page the step creates or changes is
    the page of an entry of the index. *)
Theorem index_entries_match_pages (es : dict node) (source_dir examples_docs_dir : dict str) :
  exists index out pages out',
    create_index_rst (Some (Dir es)) source_dir = (Returned index, out) /\
    dict_get (s "index.rst") index
      = Some (index_content (examples_section (example_entries es))) /\
    create_examples_documentation (Some (Dir es)) examples_docs_dir
      = (Returned pages, out') /\
    (forall entry, In entry (example_entries es) ->
       exists page, entry = s "   examples/" ++ page /\
                    dict_get (page ++ s ".md") pages <> None) /\
    (forall f, dict_get f pages <> dict_get f examples_docs_dir ->
       exists page, f = page ++ s ".md" /\
                    In (s "   examples/" ++ page) (example_entries es)).
Proof.
  destruct (write_examples_files (sorted_entries es) examples_docs_dir)
    as [pages [out [E [K [W O]]]]].
  eexists. eexists. exists pages. eexists.
  split; [reflexivity|]. split; [apply dict_get_set_same|].
  split; [unfold create_examples_documentation, iterdir; cbn [ret bind];
          rewrite E; reflexivity|].
  split.
  - intros entry H. unfold example_entries in H.
    apply in_map_iff in H as [[name n] [<- H]]. cbn [fst].
    exists (display_name name). split; [reflexivity|].
    unfold example_dirs in H. apply filter_In in H as [H1 H2].
    now apply (W name n).
  - intros f Hf. destruct (O f Hf) as [name [n [I [H0 ->]]]].
    exists (display_name name). split; [reflexivity|].
    unfold example_entries. apply in_map_iff. exists (name, n).
    split; [reflexivity|]. unfold example_dirs. apply filter_In. now split.
Qed.

Lemma index_entries_match_pages_witness :
  let es := [(s "b_x", Dir [(s "main.go", File (s "package main"))]);
             (s "zz", Dir [])] in
  In (s "   examples/b-x") (example_entries es) /\
  exists pages out,
    create_examples_documentation (Some (Dir es)) [] = (Returned pages, out) /\
    dict_get (s "b-x" ++ s ".md") pages <> None.
Proof.
  intros es.
  assert (I : In (s "   examples/b-x") (example_entries es)) by (left; reflexivity).
  split; [exact I|].
  destruct (index_entries_match_pages es [] []) as [index [out [pages [out' [_ [_ [E [W _]]]]]]]].
  exists pages, out'. split; [exact E|].
  destruct (W _ I) as [page [Hp Hd]].
  apply (app_inv_head (s "   examples/")) in Hp. subst page. exact Hd.
Defined.

(** When [cmd/examples] is missing the index has no examples part and the
    example step writes nothing and logs one warning; when it is a regular
    file both steps raise, as nothing catches the error of iterating it. *)
Lemma examples_dir_missing_or_file (source_dir examples_docs_dir : dict str) (x : str) :
  (exists out,
     create_index_rst None source_dir
     = (Returned (dict_set (s "index.rst") (index_content []) source_dir), out)) /\
  (exists msg,
     create_examples_documentation None examples_docs_dir
     = (Returned examples_docs_dir, [warn msg])) /\
  (exists e, create_index_rst (Some (File x)) source_dir = (Raised e, [])) /\
  (exists e, create_examples_documentation (Some (File x)) examples_docs_dir = (Raised e, [])).
Proof.
  repeat split; eexists; reflexivity.
Qed.

End ExamplesMore.

(** ** From the README to its pages *)

Section ReadmeToPages.

Import Readme.

Lemma dict_get_in {V} (k : str) (v : V) (d : dict V) :
  dict_get k d = Some v -> In (k, v) d.
Proof.
  induction d as [|[k' v'] r IH]; simpl; [discriminate|].
  destruct (str_eqb k k') eqn:E.
  - apply str_eqb_eq in E. subst k'. intros H. injection H as ->. now left.
  - intros H. right. now apply IH.
Qed.

Lemma last_page_some (f page : str) (items : list (str * str)) :
  last_page f items = Some page ->
  exists section content,
    In (section, content) items /\ page_of section content = Some (f, page).
Proof.
  induction items as [|[section content] r IH]; [discriminate|].
  cbn [last_page]. destruct (last_page f r) as [p|].
  - intros H. injection H as ->. destruct IH as [s0 [c0 [I P]]]; [reflexivity|].
    exists s0, c0. split; [now right|exact P].
  - destruct (page_of section content) as [[filename p]|] eqn:P; [|discriminate].
    destruct (str_eqb f filename) eqn:E; [|discriminate].
    apply str_eqb_eq in E. subst filename. intros H. injection H as ->.
    exists section, content. split; [now left|exact P].
Qed.

Lemma last_page_only (f page section content : str) (items : list (str * str)) :
  NoDup (map fst items) ->
  In (section, content) items ->
  page_of section content = Some (f, page) ->
  (forall section' content' page',
     In (section', content') items -> page_of section' content' = Some (f, page') ->
     section' = section) ->
  last_page f items = Some page.
Proof.
  induction items as [|[s0 c0] r IH]; intros N I P U; [destruct I|].
  cbn [map fst] in N. apply NoDup_cons_iff in N as [N0 N].
  cbn [last_page]. destruct I as [I|I].
  - injection I as -> ->.
    destruct (last_page f r) as [p|] eqn:L.
    + apply last_page_some in L as [s1 [c1 [I1 P1]]].
      assert (s1 = section) by (apply (U s1 c1 p); [now right|exact P1]).
      subst s1. exfalso. apply N0. apply in_map_iff. now exists (section, c1).
    + now rewrite P, str_eqb_refl.
  - rewrite (IH N I P); [reflexivity|].
    intros s1 c1 p1 I1 P1. apply (U s1 c1 p1); [now right|exact P1].
Qed.

(** Every file of the table but [regions.md] belongs to one section. *)
Lemma section_files_one_section (section section' f : str) :
  dict_get section section_files = Some f ->
  dict_get section' section_files = Some f ->
  f <> s "regions.md" -> section' = section.
Proof.
  intros H H' R. apply dict_get_in in H, H'.
  unfold section_files in H, H'. cbn [In] in H, H'.
  repeat (destruct H as [H|H]); try contradiction;
    apply pair_equal_spec in H as [<- <-];
    repeat (destruct H' as [H'|H']); try contradiction;
    apply pair_equal_spec in H' as [<- E];
    try reflexivity; try discriminate E; exfalso; apply R; reflexivity.
Qed.

(** Sectionizer and page writer together: a section of the README that the
    table maps to a file other than [regions.md], and whose text is not
    blank, is in that file after the pages are written, as front matter,
    title and text with its level-3 headings demoted. *)
Theorem readme_section_page
    (content section filename text : str) (source_dir : dict str) :
  dict_get section (readme_sections content) = Some text ->
  dict_get section section_files = Some filename ->
  filename <> s "regions.md" -> strip text <> [] ->
  exists files out,
    create_markdown_files (readme_sections content) source_dir = (Returned files, out) /\
    dict_get filename files = Some (markdown_content section text).
Proof.
  intros G T R B.
  destruct (create_markdown_files_files (readme_sections content) source_dir)
    as [files [out [E K]]].
  exists files, out. split; [exact E|]. rewrite K.
  assert (P : page_of section text = Some (filename, markdown_content section text)).
  { unfold page_of. rewrite T. apply truthy_true in B. now rewrite B. }
  rewrite (last_page_only filename (markdown_content section text) section text);
    [reflexivity|apply readme_sections_nodup|now apply dict_get_in|exact P|].
  intros s1 c1 p1 _ P1. unfold page_of in P1.
  destruct (dict_get s1 section_files) as [f1|] eqn:T1; [|discriminate].
  destruct (truthy (strip c1)); [|discriminate].
  injection P1 as -> _. now apply (section_files_one_section section s1 filename).
Qed.

Lemma readme_section_page_witness :
  let content :=
    text ["# SDK"; "intro"; "## Usage Examples"; "### Compute"; "run it"; "## Notes"; "n"] in
  dict_get (s "usage-examples") (readme_sections content)
    = Some (text ["### Compute"; "run it"]) /\
  dict_get (s "usage-examples") section_files = Some (s "usage.md") /\
  s "usage.md" <> s "regions.md" /\
  strip (text ["### Compute"; "run it"]) <> [] /\
  exists files out,
    create_markdown_files (readme_sections content) [] = (Returned files, out) /\
    dict_get (s "usage.md") files
    = Some (markdown_content (s "usage-examples") (text ["### Compute"; "run it"])).
Proof.
  intros content.
  assert (R : s "usage.md" <> s "regions.md") by discriminate.
  assert (B : strip (text ["### Compute"; "run it"]) <> []) by discriminate.
  split; [reflexivity|]. split; [reflexivity|]. split; [exact R|]. split; [exact B|].
  exact (readme_section_page content (s "usage-examples") (s "usage.md")
           (text ["### Compute"; "run it"]) [] eq_refl eq_refl R B).
Defined.

End ReadmeToPages.

(** ** Fences of the cleaner's output *)

Section FencesMore.

Lemma close_block_finish (st : Cleaner.state) : close_block st = finish st.
Proof.
  unfold close_block, finish.
  destruct (in_code_block st); [|reflexivity].
  now destruct (truthy (code_block_content st)).
Qed.

Lemma occ_nil (t : str) : occ t [] = 0.
Proof. reflexivity. Qed.

Lemma occ_fence_fence : occ fence [fence] = 1.
Proof. reflexivity. Qed.

Lemma finish_flags (cl : list str) (ib : bool) (cb : list str) (cr tr cr' tr' : bool) :
  finish (Cleaner.mk_state cl ib cb cr tr) = finish (Cleaner.mk_state cl ib cb cr' tr').
Proof. reflexivity. Qed.

(** One iteration adds two fences for a declaration line and none for any
    other line, as long as the line itself is no fence. *)
Lemma finish_step_fences (st : Cleaner.state) (line : str) :
  reachable st -> strip line <> fence ->
  occ fence (finish (step st line))
  = occ fence (finish st) + (if declares line then 2 else 0).
Proof.
  intros R Hf. unfold declares.
  destruct (step_stepped st line) as [_ E|E _|E _|D _|B D _|B C _|B D _ _ _|_ D _].
  - rewrite E. simpl. lia.
  - rewrite E. change (is_declaration (s "CONSTANTS")) with false.
    destruct st; unfold finish; fields. lia.
  - rewrite E. change (is_declaration (s "TYPES")) with false.
    destruct st; unfold finish; fields. lia.
  - rewrite D. unfold finish at 1. fields. cbn [truthy andb].
    rewrite close_block_finish, !occ_app, occ_fence_fence, occ_one_neq by assumption.
    lia.
  - rewrite D. pose proof (block_not_empty _ R B) as Hne.
    unfold finish. fields. rewrite B.
    destruct (code_block_content st) as [|x b] eqn:Eb; [congruence|].
    replace (truthy ((x :: b) ++ [strip line])) with true by reflexivity.
    cbn [truthy andb].
    rewrite !occ_app, (occ_one_neq fence (strip line)) by assumption. lia.
  - rewrite (comment_not_declaration _ C).
    unfold finish. fields. rewrite B. cbn [andb].
    rewrite occ_app, occ_one_neq; [lia|discriminate].
  - rewrite D. unfold finish. fields. rewrite B. cbn [andb].
    rewrite occ_app, occ_one_neq; [lia|].
    intros E. apply Hf. rewrite <- E. symmetry. apply escape_no_backslash.
    rewrite E. simpl. intros [X|[X|[X|[]]]]; discriminate.
  - rewrite D. lia.
Qed.

Lemma finish_scan_fences (lines : list str) :
  forall st : Cleaner.state,
    reachable st -> Forall nl_free lines ->
    (forall l, In l lines -> strip l <> fence) ->
    occ fence (finish (scan_from st lines))
    = occ fence (finish st) + 2 * List.length (filter declares lines).
Proof.
  induction lines as [|l r IH]; intros st R N Hf.
  - simpl. lia.
  - inversion N; subst. rewrite scan_from_cons.
    rewrite IH; [|now apply reachable_step|assumption|intros; apply Hf; now right].
    rewrite finish_step_fences; [|assumption|apply Hf; now left].
    cbn [filter]. destruct (declares l); cbn [List.length]; lia.
Qed.

(** The fences of the output are those of the blocks: when no line after
    the first is itself a fence line, the output has exactly two fence
    lines for every declaration line of the input, so every block that is
    opened is closed. *)
Theorem fences_balanced (doc_output : str) :
  (forall l, In l (tl (split nl doc_output)) -> strip l <> fence) ->
  occ fence (output_lines (clean_go_doc_output doc_output))
  = 2 * List.length (filter declares (tl (split nl doc_output))).
Proof.
  intros Hf.
  assert (E : occ fence (emitted_lines doc_output)
              = 2 * List.length (filter declares (tl (split nl doc_output)))).
  { unfold emitted_lines, scan.
    rewrite finish_scan_fences;
      [reflexivity|apply reachable_initial|apply tl_split_nl_free|exact Hf]. }
  destruct (emitted_lines doc_output) as [|x r] eqn:El.
  - rewrite output_lines_clean_empty by assumption. rewrite <- E. reflexivity.
  - rewrite output_lines_clean; rewrite El; [exact E|discriminate].
Qed.

Lemma no_fence_check (lines : list str) :
  forallb (fun l => negb (str_eqb (strip l) fence)) lines = true ->
  forall l, In l lines -> strip l <> fence.
Proof.
  intros H l Hl E. rewrite forallb_forall in H. specialize (H l Hl).
  now rewrite E, str_eqb_refl in H.
Qed.

Lemma fences_balanced_witness :
  let doc_output :=
    text ["package client"; "Package client."; "func A()"; "  A does."; "";
          "type B struct {"; "}"; "var C int"] in
  (forall l, In l (tl (split nl doc_output)) -> strip l <> fence) /\
  occ fence (output_lines (clean_go_doc_output doc_output)) = 6.
Proof.
  intros doc_output.
  assert (H : forall l, In l (tl (split nl doc_output)) -> strip l <> fence)
    by (apply no_fence_check; reflexivity).
  split; [exact H|]. exact (fences_balanced doc_output H).
Defined.

End FencesMore.

(** ** The Sphinx structure and the output directory *)

Section StructureOutput.

Import Scaffold.

(** Putting a node at [p] changes nothing at a path that is neither below
    nor above [p]. *)
Lemma put_other (p : path) (m : node) :
  forall (q : path) (n : node),
    is_prefix p q = false -> is_prefix q p = false ->
    lookup q (put p m n) = lookup q n.
Proof.
  induction p as [|a p IH]; intros q n P Q; [discriminate|].
  destruct n as [x|es]; [now rewrite put_file|].
  destruct q as [|b q]; [discriminate|].
  cbn [is_prefix] in P, Q. rewrite (str_eqb_sym b a) in Q.
  destruct p as [|a' p].
  - cbn [put lookup]. rewrite dict_get_set, str_eqb_sym.
    destruct (str_eqb a b); [|reflexivity].
    destruct q; discriminate.
  - rewrite put_step. destruct (dict_get a es) as [n'|] eqn:G; [|reflexivity].
    cbn [lookup]. rewrite dict_get_set, str_eqb_sym.
    destruct (str_eqb a b) eqn:E; [|reflexivity].
    apply str_eqb_eq in E. subst b. rewrite G. cbn [andb] in P, Q.
    now apply IH.
Qed.

Lemma mkdir_other (p q : path) (fs fs' : node) (r : result unit) (out : list entry) :
  mkdir_exist_ok p fs = (r, fs', out) ->
  is_prefix p q = false -> is_prefix q p = false ->
  lookup q fs' = lookup q fs.
Proof.
  unfold mkdir_exist_ok. intros E P Q.
  destruct (lookup p fs) as [[x|es]|].
  - now injection E as _ <- _.
  - now injection E as _ <- _.
  - destruct (is_dir (lookup (removelast p) fs)).
    + injection E as _ <- _. now apply put_other.
    + now injection E as _ <- _.
Qed.

Lemma is_prefix_siblings (d : path) (a b : str) (x y : path) :
  str_eqb a b = false -> is_prefix (d ++ a :: x) (d ++ b :: y) = false.
Proof.
  intros H. induction d as [|c d IH]; cbn [app is_prefix].
  - now rewrite H.
  - now rewrite str_eqb_refl.
Qed.

(** Outside Read the Docs the step makes its directories beside the output
    directory, never inside it: what is at the output path is left exactly
    as it was, so an output directory the scaffolder has emptied is still
    empty afterwards. *)
Theorem create_sphinx_structure_leaves_output (docs_dir : path) (fs : node) :
  lookup (output_path docs_dir) (Structure.run (Structure.source_dir false docs_dir) fs)
  = lookup (output_path docs_dir) fs.
Proof.
  unfold Structure.source_dir, output_path.
  assert (P1 : is_prefix (docs_dir ++ [s "source"]) (docs_dir ++ [s "output"]) = false)
    by now apply is_prefix_siblings.
  assert (Q1 : is_prefix (docs_dir ++ [s "output"]) (docs_dir ++ [s "source"]) = false)
    by now apply is_prefix_siblings.
  assert (P2 : forall c, is_prefix ((docs_dir ++ [s "source"]) ++ [c])
                           (docs_dir ++ [s "output"]) = false).
  { intros c. rewrite <- app_assoc. now apply is_prefix_siblings. }
  assert (Q2 : forall c, is_prefix (docs_dir ++ [s "output"])
                           ((docs_dir ++ [s "source"]) ++ [c]) = false).
  { intros c. rewrite <- app_assoc. now apply is_prefix_siblings. }
  unfold Structure.run, Structure.create_sphinx_structure, fs_bind, fs_print.
  cbv beta iota zeta.
  destruct (mkdir_exist_ok (docs_dir ++ [s "source"]) fs) as [[[[]|e1] fs1] o1] eqn:E1;
    cbv beta iota zeta; cbn [fst snd];
    pose proof (mkdir_other _ _ _ _ _ _ E1 P1 Q1) as K1; [|exact K1].
  destruct (mkdir_exist_ok ((docs_dir ++ [s "source"]) ++ [s "_static"]) fs1)
    as [[[[]|e2] fs2] o2] eqn:E2;
    cbv beta iota zeta; cbn [fst snd];
    pose proof (mkdir_other _ _ _ _ _ _ E2 (P2 _) (Q2 _)) as K2; [|congruence].
  destruct (mkdir_exist_ok ((docs_dir ++ [s "source"]) ++ [s "_templates"]) fs2)
    as [[[[]|e3] fs3] o3] eqn:E3;
    cbv beta iota zeta; cbn [fst snd];
    pose proof (mkdir_other _ _ _ _ _ _ E3 (P2 _) (Q2 _)) as K3; congruence.
Qed.

End StructureOutput.
